(** * db.py: balance ledger, referral store and settings

    A shallow embedding of the functions of [db.py] together with the
    PostgreSQL tables they run their statements against.

    Conventions of the embedding.
    - A Python [float] is NaN, an infinity or a finite number, and a
      finite number is given by the rational it is ([number]).  Where a
      [float] is made from a decimal number, by [round(x, n)] or by
      [float(...)] of a [Decimal], it is the binary64 number nearest to
      the decimal ([double], [binary64]).  The amounts of the balance
      functions are any [float]; the amounts inside a referral record,
      the arguments of [ref_add_earned] and [ref_set_earned] and the
      rates are finite floats.
    - A [float] passed as a parameter of a statement reaches PostgreSQL
      as a [numeric] with its exact value, NaN and the infinities as the
      values of [numeric] they are (PostgreSQL 14 or later and a driver
      that sends them).  PostgreSQL orders NaN above every other value
      and equal to itself, so NaN passes a [CHECK (x >= 0)].
    - A [NUMERIC(12,s)] column holds an integer number of units of [10^-s]
      (hundredths for [balance_rub], [earned_rub] and [volume_rub],
      millionths for [balance_usdt], ten-thousandths for a rate), so 50.00
      RUB is [5000]; a column of [user_balances] can also hold NaN.  A
      value that does not fit the column raises an error, a value of a
      finer scale is rounded half away from zero when it is stored.
    - A [JSONB] column gives back the document in the form PostgreSQL
      keeps it: the keys of an object in order (shorter keys first, then
      by their bytes in UTF-8, the encoding of the database), the last of
      equal keys, numbers written out without exponent.
    - A [TEXT] value is a [str] without the character 0.
    - Every SQL statement is one atomic transition of the tables.
    - An error raised by the database (a Python exception leaving the
      function) is the outcome [Raise]; the tables are then unchanged.
    - A coroutine runs from one [await] to the next without interruption;
      the size of the connection pool is not modelled, nor are the limits
      of memory and of the depth of recursion. *)

From Stdlib Require Import Ascii String ZArith QArith Qround Lia List DecimalN.
From stdpp Require Import gmap strings.

Local Open Scope Z_scope.

(** ** Fixed-point numbers *)

(** The largest magnitude of [NUMERIC(12,s)] is [10^12 - 1] units. *)
Definition numeric_12_limit : Z := 10 ^ 12.

Definition fits_numeric_12 (units : Z) : bool :=
  Z.abs units <? numeric_12_limit.

(** Round a rational to the nearest integer, ties to the even neighbour. *)
Definition round_half_even (x : Q) : Z :=
  let n := Qnum x in
  let d := Zpos (Qden x) in
  let f := n / d in
  match 2 * (n mod d) ?= d with
  | Lt => f
  | Gt => f + 1
  | Eq => if Z.even f then f else f + 1
  end.

(** Round a rational to the nearest integer, ties away from zero: the
    rounding PostgreSQL applies when a value is stored in a [NUMERIC]
    column of smaller scale. *)
Definition round_half_away (x : Q) : Z :=
  let n := Qnum x in
  let d := Zpos (Qden x) in
  let f := Z.abs n / d in
  Z.sgn n * (if 2 * (Z.abs n mod d) <? d then f else f + 1).

Definition scale_of (ndigits : nat) : Z := 10 ^ Z.of_nat ndigits.

(** The decimal rounding of [round(x, ndigits)], in units of
    [10^-ndigits]. *)
Definition py_round (x : Q) (ndigits : nat) : Z :=
  round_half_even (x * inject_Z (scale_of ndigits)).

(** Coercion of a numeric value to a column of scale [ndigits]. *)
Definition pg_round (x : Q) (ndigits : nat) : Z :=
  round_half_away (x * inject_Z (scale_of ndigits)).

(** The rational denoted by [units] units of [10^-ndigits]. *)
Definition of_units (units : Z) (ndigits : nat) : Q :=
  inject_Z units / inject_Z (scale_of ndigits).

(** ** Floats *)

(** A [float], and the value of a numeric expression of PostgreSQL: NaN,
    an infinity, or a finite number given by the rational it is.  Every
    binary64 number is such a rational; the functions are defined on
    every rational, and what is proved for every rational holds for every
    finite float. *)
Inductive number : Type :=
| NaN
| Inf (negative : bool)
| Fin (q : Q).

(** [2^k <= n / d], for positive [n] and [d]. *)
Definition pow2_le (k n d : Z) : bool :=
  if 0 <=? k then d * 2 ^ k <=? n else d <=? n * 2 ^ (- k).

(** The position of the leading bit of [n / d]: the [k] with
    [2^k <= n / d < 2^(k+1)]. *)
Definition leading_bit (n d : Z) : Z :=
  let k := Z.log2 n - Z.log2 d in
  if pow2_le k n d then k else k - 1.

(** [x / 2^e] and [m * 2^e]. *)
Definition scaled (e : Z) (x : Q) : Q :=
  if 0 <=? e then Qnum x # (Qden x * Z.to_pos (2 ^ e))
  else (Qnum x * 2 ^ (- e)) # Qden x.

Definition unscaled (e : Z) (m : Z) : Q :=
  if 0 <=? e then inject_Z (m * 2 ^ e) else m # Z.to_pos (2 ^ (- e)).

(** The binary64 number nearest to a rational, ties to the even
    mantissa: 53 bits from the leading bit on, and no bit below
    [2^-1074].  The largest exponent is left to [double]. *)
Definition binary64 (x : Q) : Q :=
  if Qnum x =? 0 then 0%Q
  else
    let e := Z.max (leading_bit (Z.abs (Qnum x)) (Z.pos (Qden x)) - 52) (-1074) in
    unscaled e (round_half_even (scaled e x)).

(** Conversion of a decimal number to [float], as [float(Decimal(...))],
    [float("...")] and the end of [round(x, n)] do it. *)
Definition double (x : Q) : number :=
  let f := binary64 x in
  if Qle_bool (inject_Z (2 ^ 1024)) f then Inf false
  else if Qle_bool f (inject_Z (- 2 ^ 1024)) then Inf true
  else Fin f.

(** [x <= 0] *)
Definition float_le_0 (x : number) : bool :=
  match x with
  | NaN => false
  | Inf negative => negative
  | Fin q => Qle_bool q 0
  end.

(** [round(x, ndigits)]: NaN and the infinities are returned as they
    are; a finite [x] is rounded to the nearest multiple of
    [10^-ndigits], ties to even, and that decimal converted to [float]. *)
Definition round (x : number) (ndigits : nat) : number :=
  match x with
  | Fin q => double (of_units (py_round q ndigits) ndigits)
  | _ => x
  end.

(** The scales of the columns are far below [2^1022]. *)
Definition small_scale (p : nat) : Prop := scale_of p <= 10 ^ 300.

(** ** Errors and outcomes *)

Inductive pg_error : Type :=
| NumericFieldOverflow
| CheckViolation
| InvalidJsonText.

Inductive outcome (A : Type) : Type :=
| Return (v : A)
| Raise (e : pg_error).
Arguments Return {A} v.
Arguments Raise {A} e.

(** ** Python values *)

(** A JSON document, and a Python [str] whose characters matter, is a
    sequence of Unicode code points. *)
Definition text : Type := list N.

Definition txt (s : string) : text :=
  map (fun a => N.of_nat (nat_of_ascii a)) (list_ascii_of_string s).

(** The values [json.loads] builds and [json.dumps] prints.  A [float]
    is kept as a JSON number literal that denotes it; a [dict] as the
    list of its items, in order, with distinct keys. *)
#[local] Set Warnings "-register-all".
Inductive pyval : Type :=
| PyNone
| PyBool (b : bool)
| PyInt (z : Z)
| PyFloat (literal : text)
| PyStr (s : text)
| PyList (l : list pyval)
| PyDict (items : list (text * pyval)).

Definition is_digit (c : N) : bool := ((48 <=? c) && (c <=? 57))%N.

(** [d[k] = v] on the item list of a dict. *)
Fixpoint dict_set (k : text) (v : pyval) (d : list (text * pyval))
  : list (text * pyval) :=
  match d with
  | [] => [(k, v)]
  | (k', v') :: d' =>
    if decide (k' = k) then (k', v) :: d' else (k', v') :: dict_set k v d'
  end.

(** [dict(pairs)]: a later pair replaces the value of an equal key. *)
Definition dict_of_pairs (pairs : list (text * pyval)) : list (text * pyval) :=
  fold_left (fun d kv => dict_set (fst kv) (snd kv) d) pairs [].

(** ** [json.dumps] *)

Module Json.

Local Open Scope N_scope.

Definition QUOTE : N := 34.
Definition BACKSLASH : N := 92.

Definition hex_digit (d : N) : N := if d <? 10 then 48 + d else 87 + d.

(** ['{0:04x}'.format(x)] *)
Definition hex4 (x : N) : text :=
  [hex_digit (x / 4096 mod 16); hex_digit (x / 256 mod 16);
   hex_digit (x / 16 mod 16); hex_digit (x mod 16)].

Definition u_escape (x : N) : text := BACKSLASH :: 117 :: hex4 x.

(** The replacement [py_encode_basestring_ascii] makes for one character. *)
Definition escape_char (c : N) : text :=
  if c =? QUOTE then [BACKSLASH; QUOTE]
  else if c =? BACKSLASH then [BACKSLASH; BACKSLASH]
  else if c =? 10 then [BACKSLASH; 110]
  else if c =? 13 then [BACKSLASH; 114]
  else if c =? 9 then [BACKSLASH; 116]
  else if c =? 12 then [BACKSLASH; 102]
  else if c =? 8 then [BACKSLASH; 98]
  else if (32 <=? c) && (c <=? 126) then [c]
  else if c <? 65536 then u_escape c
  else
    let n := c - 65536 in
    u_escape (55296 + (n / 1024) mod 1024) ++ u_escape (56320 + n mod 1024).

(** A string between quotes, each character written as [esc] says. *)
Definition encode_with (esc : N -> text) (s : text) : text :=
  QUOTE :: flat_map esc s ++ [QUOTE].

(** [py_encode_basestring_ascii] *)
Definition encode_string : text -> text := encode_with escape_char.

Fixpoint text_of_uint (d : Decimal.uint) : text :=
  match d with
  | Decimal.Nil => []
  | Decimal.D0 d => 48 :: text_of_uint d
  | Decimal.D1 d => 49 :: text_of_uint d
  | Decimal.D2 d => 50 :: text_of_uint d
  | Decimal.D3 d => 51 :: text_of_uint d
  | Decimal.D4 d => 52 :: text_of_uint d
  | Decimal.D5 d => 53 :: text_of_uint d
  | Decimal.D6 d => 54 :: text_of_uint d
  | Decimal.D7 d => 55 :: text_of_uint d
  | Decimal.D8 d => 56 :: text_of_uint d
  | Decimal.D9 d => 57 :: text_of_uint d
  end.

(** [str(z)] for an [int]. *)
Definition encode_int (z : Z) : text :=
  if (z <? 0)%Z then 45 :: text_of_uint (N.to_uint (Z.abs_N z))
  else text_of_uint (N.to_uint (Z.abs_N z)).

(** [sep.join(parts)] *)
Fixpoint join (sep : text) (parts : list text) : text :=
  match parts with
  | [] => []
  | [p] => p
  | p :: ps => p ++ sep ++ join sep ps
  end.

Definition item_separator : text := Eval cbv in txt ", ".
Definition key_separator : text := Eval cbv in txt ": ".
Definition lit_null : text := Eval cbv in txt "null".
Definition lit_true : text := Eval cbv in txt "true".
Definition lit_false : text := Eval cbv in txt "false".
Definition lit_nan : text := Eval cbv in txt "NaN".
Definition lit_inf : text := Eval cbv in txt "Infinity".
Definition lit_neg_inf : text := Eval cbv in txt "-Infinity".

(** A document with the separators [", "] and [": "], its strings
    written with [esc]. *)
Fixpoint print (esc : N -> text) (v : pyval) : text :=
  match v with
  | PyNone => lit_null
  | PyBool true => lit_true
  | PyBool false => lit_false
  | PyInt z => encode_int z
  | PyFloat lit => lit
  | PyStr s => encode_with esc s
  | PyList l => 91 :: join item_separator (map (print esc) l) ++ [93]
  | PyDict items =>
    123 :: join item_separator
             (map (fun kv => encode_with esc (fst kv) ++ key_separator ++ print esc (snd kv))
                  items)
        ++ [125]
  end.

(** [json.dumps(v)] with the default options ([ensure_ascii], separators
    [", "] and [": "]). *)
Definition dumps : pyval -> text := print escape_char.

(** ** [json.loads] *)

Definition is_ws (c : N) : bool :=
  (c =? 32) || (c =? 9) || (c =? 10) || (c =? 13).

Fixpoint skip_ws (s : text) : text :=
  match s with
  | c :: r => if is_ws c then skip_ws r else s
  | [] => []
  end.

Definition hex_val (c : N) : option N :=
  if (48 <=? c) && (c <=? 57) then Some (c - 48)
  else if (97 <=? c) && (c <=? 102) then Some (c - 87)
  else if (65 <=? c) && (c <=? 70) then Some (c - 55)
  else None.

(** [_decode_uXXXX]: the value of four hexadecimal digits. *)
Definition decode_uXXXX (h1 h2 h3 h4 : N) : option N :=
  match hex_val h1, hex_val h2, hex_val h3, hex_val h4 with
  | Some a, Some b, Some c, Some d => Some (((a * 16 + b) * 16 + c) * 16 + d)
  | _, _, _, _ => None
  end.

Definition is_high_surrogate (u : N) : bool := (55296 <=? u) && (u <=? 56319).
Definition is_low_surrogate (u : N) : bool := (56320 <=? u) && (u <=? 57343).

Definition join_surrogates (hi lo : N) : N :=
  65536 + ((hi - 55296) * 1024 + (lo - 56320)).

(** The table [BACKSLASH] of the one-character escapes. *)
Definition unescape (e : N) : option N :=
  if e =? QUOTE then Some QUOTE
  else if e =? BACKSLASH then Some BACKSLASH
  else if e =? 47 then Some 47
  else if e =? 98 then Some 8
  else if e =? 102 then Some 12
  else if e =? 110 then Some 10
  else if e =? 114 then Some 13
  else if e =? 116 then Some 9
  else None.

Definition prepend (c : N) (r : option (text * text)) : option (text * text) :=
  match r with
  | Some (cs, rest) => Some (c :: cs, rest)
  | None => None
  end.

(** [scanstring] in strict mode, started after the opening quote: the
    decoded characters and the text after the closing quote. *)
Fixpoint scanstring (s : text) : option (text * text) :=
  match s with
  | [] => None
  | c :: r =>
    if c =? QUOTE then Some ([], r)
    else if c =? BACKSLASH then
      match r with
      | [] => None
      | e :: r1 =>
        if e =? 117 then
          match r1 with
          | h1 :: h2 :: h3 :: h4 :: r2 =>
            match decode_uXXXX h1 h2 h3 h4 with
            | None => None
            | Some uni =>
              if is_high_surrogate uni then
                match r2 with
                | b :: u :: r3 =>
                  if (b =? BACKSLASH) && (u =? 117) then
                    match r3 with
                    | l1 :: l2 :: l3 :: l4 :: r4 =>
                      match decode_uXXXX l1 l2 l3 l4 with
                      | None => None
                      | Some uni2 =>
                        if is_low_surrogate uni2
                        then prepend (join_surrogates uni uni2) (scanstring r4)
                        else prepend uni (scanstring r2)
                      end
                    | _ => None
                    end
                  else prepend uni (scanstring r2)
                | _ => prepend uni (scanstring r2)
                end
              else prepend uni (scanstring r2)
            end
          | _ => None
          end
        else
          match unescape e with
          | Some c' => prepend c' (scanstring r1)
          | None => None
          end
      end
    else if c <? 32 then None
    else prepend c (scanstring r)
  end.

(** The longest prefix of decimal digits, and what follows it. *)
Fixpoint span_digits (s : text) : text * text :=
  match s with
  | c :: r =>
    if is_digit c then let (ds, rest) := span_digits r in (c :: ds, rest)
    else ([], s)
  | [] => ([], [])
  end.

Fixpoint uint_of_text (ds : text) : Decimal.uint :=
  match ds with
  | [] => Decimal.Nil
  | c :: r =>
    let d := uint_of_text r in
    if c =? 48 then Decimal.D0 d else if c =? 49 then Decimal.D1 d
    else if c =? 50 then Decimal.D2 d else if c =? 51 then Decimal.D3 d
    else if c =? 52 then Decimal.D4 d else if c =? 53 then Decimal.D5 d
    else if c =? 54 then Decimal.D6 d else if c =? 55 then Decimal.D7 d
    else if c =? 56 then Decimal.D8 d else Decimal.D9 d
  end.

(** The integer part of [NUMBER_RE], an optional minus sign and then
    either a single 0 or a digit 1-9 with any digits after it: its sign,
    its digits and the rest. *)
Definition scan_integer (s : text) : option (bool * text * text) :=
  let (neg, s1) := match s with
                   | c :: r => if c =? 45 then (true, r) else (false, s)
                   | [] => (false, s)
                   end in
  match s1 with
  | c :: r =>
    if c =? 48 then Some (neg, [48], r)
    else if is_digit c then let (ds, rest) := span_digits s1 in Some (neg, ds, rest)
    else None
  | [] => None
  end.

(** The optional fraction of [NUMBER_RE]: a point and one digit or more. *)
Definition scan_frac (s : text) : text * text :=
  match s with
  | c :: r =>
    if c =? 46 then
      match span_digits r with
      | ([], _) => ([], s)
      | (ds, rest) => (46 :: ds, rest)
      end
    else ([], s)
  | [] => ([], s)
  end.

(** The optional exponent of [NUMBER_RE]: e or E, an optional sign and
    one digit or more. *)
Definition scan_exp (s : text) : text * text :=
  match s with
  | e :: r =>
    if (e =? 101) || (e =? 69) then
      let (sign, r1) := match r with
                        | c :: r' => if (c =? 43) || (c =? 45) then ([c], r') else ([], r)
                        | [] => ([], r)
                        end in
      match span_digits r1 with
      | ([], _) => ([], s)
      | (ds, rest) => (e :: sign ++ ds, rest)
      end
    else ([], s)
  | [] => ([], s)
  end.

(** A match of [NUMBER_RE]: an [int] when there is neither fraction nor
    exponent, a [float] otherwise. *)
Definition scan_number (s : text) : option (pyval * text) :=
  match scan_integer s with
  | None => None
  | Some (neg, ds, r) =>
    let (frac, r1) := scan_frac r in
    let (exp, r2) := scan_exp r1 in
    match frac, exp with
    | [], [] =>
      let n := Z.of_N (N.of_uint (uint_of_text ds)) in
      Some (PyInt (if neg then (- n)%Z else n), r2)
    | _, _ => Some (PyFloat ((if neg then [45] else []) ++ ds ++ frac ++ exp), r2)
    end
  end.

(** [s[idx:idx + len(word)] == word] and the text after the word. *)
Fixpoint strip_prefix (word s : text) : option text :=
  match word, s with
  | [], _ => Some s
  | w :: word', c :: s' => if w =? c then strip_prefix word' s' else None
  | _ :: _, [] => None
  end.

(** The constants and numbers [scan_once] tries after strings, objects
    and arrays. *)
Definition scan_atom (s : text) : option (pyval * text) :=
  match strip_prefix lit_null s with
  | Some r => Some (PyNone, r)
  | None =>
  match strip_prefix lit_true s with
  | Some r => Some (PyBool true, r)
  | None =>
  match strip_prefix lit_false s with
  | Some r => Some (PyBool false, r)
  | None =>
  match scan_number s with
  | Some res => Some res
  | None =>
  match strip_prefix lit_nan s with
  | Some r => Some (PyFloat lit_nan, r)
  | None =>
  match strip_prefix lit_inf s with
  | Some r => Some (PyFloat lit_inf, r)
  | None =>
  match strip_prefix lit_neg_inf s with
  | Some r => Some (PyFloat lit_neg_inf, r)
  | None => None
  end end end end end end end.

(** [scan_once], [JSONArray] and [JSONObject].  [fuel] bounds the depth of
    the calls; each call consumes at least one character. *)
Fixpoint scan_once (fuel : nat) (s : text) : option (pyval * text) :=
  match fuel with
  | O => None
  | S fuel =>
    match s with
    | [] => None
    | c :: r =>
      if c =? QUOTE then
        match scanstring r with
        | Some (str, rest) => Some (PyStr str, rest)
        | None => None
        end
      else if c =? 123 then
        match skip_ws r with
        | c' :: r' =>
          if c' =? 125 then Some (PyDict [], r')
          else
            match object_items fuel (skip_ws r) with
            | Some (pairs, rest) => Some (PyDict (dict_of_pairs pairs), rest)
            | None => None
            end
        | [] => None
        end
      else if c =? 91 then
        match skip_ws r with
        | c' :: r' =>
          if c' =? 93 then Some (PyList [], r')
          else
            match array_items fuel (skip_ws r) with
            | Some (values, rest) => Some (PyList values, rest)
            | None => None
            end
        | [] => None
        end
      else scan_atom s
    end
  end
with array_items (fuel : nat) (s : text) : option (list pyval * text) :=
  match fuel with
  | O => None
  | S fuel =>
    match scan_once fuel s with
    | None => None
    | Some (value, rest) =>
      match skip_ws rest with
      | c :: r =>
        if c =? 93 then Some ([value], r)
        else if c =? 44 then
          match array_items fuel (skip_ws r) with
          | Some (values, rest') => Some (value :: values, rest')
          | None => None
          end
        else None
      | [] => None
      end
    end
  end
with object_items (fuel : nat) (s : text) : option (list (text * pyval) * text) :=
  match fuel with
  | O => None
  | S fuel =>
    match s with
    | q :: s1 =>
      if q =? QUOTE then
        match scanstring s1 with
        | None => None
        | Some (key, rest) =>
          match skip_ws rest with
          | colon :: r =>
            if colon =? 58 then
              match scan_once fuel (skip_ws r) with
              | None => None
              | Some (value, rest1) =>
                match skip_ws rest1 with
                | c :: r1 =>
                  if c =? 125 then Some ([(key, value)], r1)
                  else if c =? 44 then
                    match object_items fuel (skip_ws r1) with
                    | Some (pairs, rest2) => Some ((key, value) :: pairs, rest2)
                    | None => None
                    end
                  else None
                | [] => None
                end
              end
            else None
          | [] => None
          end
        end
      else None
    | [] => None
    end
  end.

(** [json.loads(s)]: [None] stands for the exception raised on a text
    that is not a JSON document. *)
Definition loads (s : text) : option pyval :=
  let s := skip_ws s in
  match scan_once (S (length s)) s with
  | Some (v, rest) => match skip_ws rest with [] => Some v | _ => None end
  | None => None
  end.

End Json.

(** ** Floats in documents *)

(** The number a run of decimal digits writes. *)
Definition digits_value (ds : text) : Z :=
  Z.of_N (N.of_uint (Json.uint_of_text ds)).

(** The value of the exponent part of a number literal. *)
Definition exponent_of (exp : text) : Z :=
  match exp with
  | [] => 0
  | _ :: 45%N :: ds => - digits_value ds
  | _ :: 43%N :: ds => digits_value ds
  | _ :: ds => digits_value ds
  end.

(** The parts of a number literal: its sign, the digits of its integer
    and fraction parts, and its exponent. *)
Definition literal_parts (lit : text) : option (bool * text * text * Z) :=
  match Json.scan_integer lit with
  | None => None
  | Some (negative, ds, r) =>
    let (frac, r1) := Json.scan_frac r in
    let (exp, _) := Json.scan_exp r1 in
    Some (negative, ds, tail frac, exponent_of exp)
  end.

(** [m * 10^e] *)
Definition decimal (m e : Z) : Q :=
  if 0 <=? e then inject_Z (m * 10 ^ e) else m # Z.to_pos (10 ^ (- e)).

(** [float(lit)]: the [float] that [json.loads] makes of a number
    literal or of one of the constants [NaN], [Infinity], [-Infinity]. *)
Definition float_of_literal (lit : text) : number :=
  match literal_parts lit with
  | None =>
    if decide (lit = Json.lit_inf) then Inf false
    else if decide (lit = Json.lit_neg_inf) then Inf true
    else NaN
  | Some (negative, ds, fds, e) =>
    let q := decimal (digits_value (ds ++ fds)) (e - Z.of_nat (length fds)) in
    double (if negative then - q else q)%Q
  end.

Definition float_is_zero (lit : text) : bool :=
  match float_of_literal lit with
  | Fin q => Qnum q =? 0
  | _ => false
  end.

(** Truth value of a Python object, as [or] and [if] test it. *)
Definition truthy (v : pyval) : bool :=
  match v with
  | PyNone => false
  | PyBool b => b
  | PyInt z => negb (z =? 0)
  | PyFloat lit => negb (float_is_zero lit)
  | PyStr s => match s with [] => false | _ => true end
  | PyList l => match l with [] => false | _ => true end
  | PyDict d => match d with [] => false | _ => true end
  end.

(** [a or b] *)
Definition py_or (a b : pyval) : pyval := if truthy a then a else b.

(** ** The type [JSONB] *)

(** [escape_json]: what PostgreSQL writes for one character of a string. *)
Definition escape_json (c : N) : text :=
  (if c =? Json.QUOTE then [Json.BACKSLASH; Json.QUOTE]
   else if c =? Json.BACKSLASH then [Json.BACKSLASH; Json.BACKSLASH]
   else if c =? 10 then [Json.BACKSLASH; 110]
   else if c =? 13 then [Json.BACKSLASH; 114]
   else if c =? 9 then [Json.BACKSLASH; 116]
   else if c =? 12 then [Json.BACKSLASH; 102]
   else if c =? 8 then [Json.BACKSLASH; 98]
   else if c <? 32 then Json.u_escape c
   else [c])%N.

(** The text of a [JSONB] value, as asyncpg returns it. *)
Definition jsonb_text : pyval -> text := Json.print escape_json.

(** The number of bytes of a string in UTF-8. *)
Definition utf8_length (s : text) : N :=
  fold_right (fun c acc =>
                ((if c <? 128 then 1 else if c <? 2048 then 2
                  else if c <? 65536 then 3 else 4) + acc)%N) 0%N s.

Fixpoint text_compare (a b : text) : comparison :=
  match a, b with
  | [], [] => Eq
  | [], _ :: _ => Lt
  | _ :: _, [] => Gt
  | x :: a', y :: b' =>
    match (x ?= y)%N with
    | Eq => text_compare a' b'
    | c => c
    end
  end.

(** The order of the keys of an object: shorter keys first, keys of the
    same length by their bytes. *)
Definition key_compare (a b : text) : comparison :=
  match (utf8_length a ?= utf8_length b)%N with
  | Eq => text_compare a b
  | c => c
  end.

(** A pair put at its place among sorted pairs; the value of an equal
    key is replaced. *)
Fixpoint insert_item (k : text) (v : pyval) (items : list (text * pyval))
  : list (text * pyval) :=
  match items with
  | [] => [(k, v)]
  | (k', v') :: rest =>
    match key_compare k k' with
    | Lt => (k, v) :: items
    | Eq => (k, v) :: rest
    | Gt => (k', v') :: insert_item k v rest
    end
  end.

Definition sort_items (items : list (text * pyval)) : list (text * pyval) :=
  fold_left (fun acc kv => insert_item (fst kv) (snd kv) acc) items [].

Fixpoint strip_zeros (ds : text) : text :=
  match ds with
  | 48%N :: ((_ :: _) as rest) => strip_zeros rest
  | _ => ds
  end.

(** A number as [numeric] writes it: without exponent, with the digits
    after the point that the literal has in all; without a point it is
    read back as an [int].  Zero has no sign. *)
Definition jsonb_number (lit : text) : pyval :=
  match literal_parts lit with
  | None => PyFloat lit
  | Some (negative, ds, fds, e) =>
    let digits := ds ++ fds in
    let shift := e - Z.of_nat (length fds) in
    let m := digits_value digits in
    if 0 <=? shift then PyInt ((if negative then - m else m) * 10 ^ shift)
    else
      let dscale := Z.to_nat (- shift) in
      let padded := repeat 48%N (S dscale - length digits) ++ digits in
      let cut := (length padded - dscale)%nat in
      PyFloat ((if negative && negb (m =? 0) then [45%N] else [])
                 ++ strip_zeros (firstn cut padded) ++ 46%N :: skipn cut padded)
  end.

(** The value [JSONB] keeps of a document. *)
Fixpoint jsonb_value (v : pyval) : pyval :=
  match v with
  | PyFloat lit => jsonb_number lit
  | PyList l => PyList (map jsonb_value l)
  | PyDict items =>
    PyDict (sort_items (map (fun kv => (fst kv, jsonb_value (snd kv))) items))
  | _ => v
  end.

(** What [JSONB] input refuses in a document that [json.loads] reads: the
    constants [NaN], [Infinity], [-Infinity], a number outside the format
    of [numeric], the character 0 and a surrogate that is not part of a
    pair. *)
Definition jsonb_char (c : N) : bool :=
  (negb (c =? 0) && negb ((55296 <=? c) && (c <=? 57343)))%N.

(** The format of [numeric]: at most 131072 digits before the decimal
    point and 16383 after it. *)
Definition numeric_format (int_digits frac_digits : Z) : bool :=
  (int_digits <=? 131072) && (frac_digits <=? 16383).

Definition int_in_numeric (z : Z) : bool :=
  numeric_format (Z.of_nat (length (Json.encode_int (Z.abs z)))) 0.

Definition literal_in_numeric (lit : text) : bool :=
  match literal_parts lit with
  | None => false
  | Some (_, ds, fds, e) =>
    let m := digits_value (ds ++ fds) in
    let shift := e - Z.of_nat (length fds) in
    (Z.abs e <? 1073741823)
    && numeric_format
         (if m =? 0 then 0 else Z.of_nat (length (Json.encode_int m)) + shift)
         (- shift)
  end.

Fixpoint jsonb_representable (v : pyval) : bool :=
  match v with
  | PyNone | PyBool _ => true
  | PyInt z => int_in_numeric z
  | PyFloat lit => literal_in_numeric lit
  | PyStr s => forallb jsonb_char s
  | PyList l => forallb jsonb_representable l
  | PyDict items =>
    forallb (fun kv => forallb jsonb_char (fst kv) && jsonb_representable (snd kv)) items
  end.

(** Conversion of a text parameter to [JSONB], and back to text. *)
Definition jsonb_in (doc : text) : pg_error + text :=
  match Json.loads doc with
  | Some v =>
    if jsonb_representable v then inr (jsonb_text (jsonb_value v)) else inl InvalidJsonText
  | None => inl InvalidJsonText
  end.

(** ** The table [user_balances] *)

(** A cell of a [NUMERIC(12,s)] column: NaN, or a number of units of
    [10^-s]. *)
Inductive numeric : Type :=
| NNaN
| Units (u : Z).

Record user_balances_row : Type := BalanceRow {
  col_balance_rub : numeric;
  col_balance_usdt : numeric;
  col_balance_updated_at : Z
}.

Definition fits_column (v : numeric) : bool :=
  match v with
  | NNaN => true
  | Units u => fits_numeric_12 u
  end.

(** [v >= 0]; NaN is above every number. *)
Definition check_nonneg (v : numeric) : bool :=
  match v with
  | NNaN => true
  | Units u => 0 <=? u
  end.

(** Column types and the two CHECK constraints of the table, as they are
    enforced on every row written. *)
Definition validate_balance_row (r : user_balances_row) : option pg_error :=
  if negb (fits_column (col_balance_rub r) && fits_column (col_balance_usdt r))
  then Some NumericFieldOverflow
  else if negb (check_nonneg (col_balance_rub r) && check_nonneg (col_balance_usdt r))
  then Some CheckViolation
  else None.

Inductive currency : Type := RUB | USDT.

Definition precision (c : currency) : nat :=
  match c with RUB => 2%nat | USDT => 6%nat end.

Definition col_balance (c : currency) (r : user_balances_row) : numeric :=
  match c with RUB => col_balance_rub r | USDT => col_balance_usdt r end.

Definition set_col_balance (c : currency) (v : numeric) (now : Z) (r : user_balances_row)
  : user_balances_row :=
  match c with
  | RUB => BalanceRow v (col_balance_usdt r) now
  | USDT => BalanceRow (col_balance_rub r) v now
  end.

(** Conversion of a value to a column [NUMERIC(12,ndigits)]. *)
Definition numeric_in (ndigits : nat) (x : number) : pg_error + numeric :=
  match x with
  | NaN => inr NNaN
  | Inf _ => inl NumericFieldOverflow
  | Fin q =>
    let u := pg_round q ndigits in
    if fits_numeric_12 u then inr (Units u) else inl NumericFieldOverflow
  end.

(** [a + b] on two cells of one column. *)
Definition numeric_add (a b : numeric) : numeric :=
  match a, b with
  | Units x, Units y => Units (x + y)
  | _, _ => NNaN
  end.

(** [a - x], stored back in the column of [a]. *)
Definition numeric_sub (ndigits : nat) (a : numeric) (x : number) : pg_error + numeric :=
  match a, x with
  | NNaN, _ => inr NNaN
  | Units _, NaN => inr NNaN
  | Units _, Inf _ => inl NumericFieldOverflow
  | Units u, Fin q => numeric_in ndigits (Fin (of_units u ndigits - q))
  end.

(** [a >= x]; NaN is equal to NaN and above every other value. *)
Definition numeric_ge (ndigits : nat) (a : numeric) (x : number) : bool :=
  match a, x with
  | NNaN, _ => true
  | Units _, NaN => false
  | Units _, Inf negative => negative
  | Units u, Fin q => Qle_bool q (of_units u ndigits)
  end.

(** [INSERT INTO user_balances (user_id, balance_c, balance_other)
     VALUES ($1, $2, 0)
     ON CONFLICT (user_id) DO UPDATE SET
       balance_c = user_balances.balance_c + EXCLUDED.balance_c,
       updated_at = NOW()] *)
Definition sql_upsert_add (c : currency) (now : Z) (user_id : string) (amount : number)
    (t : gmap string user_balances_row)
  : pg_error + gmap string user_balances_row :=
  match numeric_in (precision c) amount with
  | inl e => inl e
  | inr v =>
    let excluded := set_col_balance c v now (BalanceRow (Units 0) (Units 0) now) in
    match validate_balance_row excluded with
    | Some e => inl e
    | None =>
      match t !! user_id with
      | None => inr (<[user_id := excluded]> t)
      | Some old =>
        let new := set_col_balance c (numeric_add (col_balance c old) v) now old in
        match validate_balance_row new with
        | Some e => inl e
        | None => inr (<[user_id := new]> t)
        end
      end
    end
  end.

(** [UPDATE user_balances
     SET balance_c = balance_c - $2, updated_at = NOW()
     WHERE user_id = $1 AND balance_c >= $2
     RETURNING balance_rub, balance_usdt] *)
Definition sql_update_deduct (c : currency) (now : Z) (user_id : string) (amount : number)
    (t : gmap string user_balances_row)
  : pg_error + (option user_balances_row * gmap string user_balances_row) :=
  match t !! user_id with
  | None => inr (None, t)
  | Some old =>
    if numeric_ge (precision c) (col_balance c old) amount then
      match numeric_sub (precision c) (col_balance c old) amount with
      | inl e => inl e
      | inr v =>
        let new := set_col_balance c v now old in
        match validate_balance_row new with
        | Some e => inl e
        | None => inr (Some new, <[user_id := new]> t)
        end
      end
    else inr (None, t)
  end.

(** [SELECT balance_rub, balance_usdt FROM user_balances WHERE user_id = $1] *)
Definition sql_select_balance (user_id : string) (t : gmap string user_balances_row)
  : option user_balances_row :=
  t !! user_id.
(** ** The table [referrals] *)

(** Every column but the key is nullable.  A [JSONB] cell is the text
    asyncpg returns for it; a [NUMERIC(12,2)] column holds hundredths. *)
Record referrals_row : Type := ReferralRow {
  col_parent1 : option string;
  col_parent2 : option string;
  col_parent3 : option string;
  col_referrals_l1 : option text;
  col_referrals_l2 : option text;
  col_referrals_l3 : option text;
  col_earned_rub : option Z;
  col_volume_rub : option Z;
  col_username : option string;
  col_first_name : option string;
  col_updated_at : option Z
}.

(** Conversion of a numeric parameter to [NUMERIC(12,2)]. *)
Definition numeric_12_2_in (x : Q) : pg_error + Z :=
  let units := pg_round x 2 in
  if fits_numeric_12 units then inr units else inl NumericFieldOverflow.

(** [INSERT INTO referrals (user_id, parent1, ..., first_name)
     VALUES ($1, ..., $11)
     ON CONFLICT (user_id) DO UPDATE SET
       parent1 = EXCLUDED.parent1, ..., first_name = EXCLUDED.first_name,
       updated_at = NOW()] *)
Definition sql_upsert_referral (now : Z) (user_id : string)
    (p1 p2 p3 : option string) (l1 l2 l3 : text) (earned volume : Q)
    (uname fname : string) (t : gmap string referrals_row)
  : pg_error + gmap string referrals_row :=
  match jsonb_in l1, jsonb_in l2, jsonb_in l3,
        numeric_12_2_in earned, numeric_12_2_in volume with
  | inr j1, inr j2, inr j3, inr e, inr v =>
    inr (<[user_id := ReferralRow p1 p2 p3 (Some j1) (Some j2) (Some j3)
                        (Some e) (Some v) (Some uname) (Some fname) (Some now)]> t)
  | inl err, _, _, _, _ => inl err
  | _, inl err, _, _, _ => inl err
  | _, _, inl err, _, _ => inl err
  | _, _, _, inl err, _ => inl err
  | _, _, _, _, inl err => inl err
  end.

Definition lit_empty_list : text := Eval cbv in txt "[]".

(** [INSERT INTO referrals (user_id, referrals_l1, referrals_l2, referrals_l3)
     VALUES ($1, '[]', '[]', '[]') ON CONFLICT (user_id) DO NOTHING];
    the other columns take their defaults. *)
Definition sql_insert_referral_default (now : Z) (user_id : string)
    (t : gmap string referrals_row) : gmap string referrals_row :=
  match t !! user_id with
  | Some _ => t
  | None =>
    <[user_id := ReferralRow None None None
                   (Some lit_empty_list) (Some lit_empty_list) (Some lit_empty_list)
                   (Some 0) (Some 0) (Some EmptyString) (Some EmptyString) (Some now)]> t
  end.

(** [column + $n] stored back in a [NUMERIC(12,2)] column. *)
Definition numeric_12_2_add (old : option Z) (delta : Q) : pg_error + option Z :=
  match old with
  | None => inr None
  | Some units =>
    match numeric_12_2_in (of_units units 2 + delta) with
    | inl e => inl e
    | inr units' => inr (Some units')
    end
  end.

(** [UPDATE referrals SET volume_rub = volume_rub + $2,
       earned_rub = earned_rub + $3, updated_at = NOW()
     WHERE user_id = $1] *)
Definition sql_update_accrual (now : Z) (user_id : string) (volume_delta earned_delta : Q)
    (t : gmap string referrals_row) : pg_error + gmap string referrals_row :=
  match t !! user_id with
  | None => inr t
  | Some old =>
    match numeric_12_2_add (col_volume_rub old) volume_delta,
          numeric_12_2_add (col_earned_rub old) earned_delta with
    | inr v, inr e =>
      inr (<[user_id := ReferralRow (col_parent1 old) (col_parent2 old) (col_parent3 old)
                          (col_referrals_l1 old) (col_referrals_l2 old) (col_referrals_l3 old)
                          e v (col_username old) (col_first_name old) (Some now)]> t)
    | inl err, _ => inl err
    | _, inl err => inl err
    end
  end.

(** [UPDATE referrals SET earned_rub = $2, updated_at = NOW()
     WHERE user_id = $1] *)
Definition sql_update_earned (now : Z) (user_id : string) (earned : Q)
    (t : gmap string referrals_row) : pg_error + gmap string referrals_row :=
  match t !! user_id with
  | None => inr t
  | Some old =>
    match numeric_12_2_in earned with
    | inr e =>
      inr (<[user_id := ReferralRow (col_parent1 old) (col_parent2 old) (col_parent3 old)
                          (col_referrals_l1 old) (col_referrals_l2 old) (col_referrals_l3 old)
                          (Some e) (col_volume_rub old)
                          (col_username old) (col_first_name old) (Some now)]> t)
    | inl err => inl err
    end
  end.

(** ** Module state *)

(** The global [_db_enabled], the clock read by [NOW()] and the two tables
    reached through [_pool]. *)
Record state : Type := State {
  _db_enabled : bool;
  now : Z;
  user_balances : gmap string user_balances_row;
  referrals : gmap string referrals_row
}.

Definition set_user_balances (t : gmap string user_balances_row) (s : state) : state :=
  State (_db_enabled s) (now s) t (referrals s).

Definition set_referrals (t : gmap string referrals_row) (s : state) : state :=
  State (_db_enabled s) (now s) (user_balances s) t.

(** The clock advancing between two statements. *)
Definition set_now (t : Z) (s : state) : state :=
  State (_db_enabled s) t (user_balances s) (referrals s).

(** ** Values the functions return *)

(** The dict [{"balance_rub": ..., "balance_usdt": ...}] of two floats. *)
Record balance : Type := Balance {
  balance_rub : number;
  balance_usdt : number
}.

(** A referral dict: what [_row_to_ref] builds and [ref_save] reads with
    [data.get].  For a key of the last four, [None] is the value [None]
    or a missing key; an amount is a finite float. *)
Record ref : Type := Ref {
  parent1 : option string;
  parent2 : option string;
  parent3 : option string;
  referrals_l1 : pyval;
  referrals_l2 : pyval;
  referrals_l3 : pyval;
  earned_rub : option Q;
  volume_rub : option Q;
  username : option string;
  first_name : option string
}.

Inductive value : Type :=
| VNone
| VBool (b : bool)
| VBalance (b : balance)
| VRef (r : ref)
| VRefs (m : gmap string ref).

(** ** Referrals *)

(** [dict(row)] for a row of [referrals]: a [JSONB] cell arrives as a
    [str], a NULL as [None]. *)
Record record : Type := Record_ {
  r_parent1 : option string;
  r_parent2 : option string;
  r_parent3 : option string;
  r_referrals_l1 : pyval;
  r_referrals_l2 : pyval;
  r_referrals_l3 : pyval;
  r_earned_rub : option Z;
  r_volume_rub : option Z;
  r_username : option string;
  r_first_name : option string
}.

Definition jsonb_out (cell : option text) : pyval :=
  match cell with
  | None => PyNone
  | Some doc => PyStr doc
  end.

Definition fetch (row : referrals_row) : record :=
  Record_ (col_parent1 row) (col_parent2 row) (col_parent3 row)
          (jsonb_out (col_referrals_l1 row)) (jsonb_out (col_referrals_l2 row))
          (jsonb_out (col_referrals_l3 row))
          (col_earned_rub row) (col_volume_rub row)
          (col_username row) (col_first_name row).

(** The body of the loop of [_row_to_ref], for one key. *)
Definition coerce_referrals (v : pyval) : pyval :=
  match v with
  | PyList _ => v
  | PyStr s =>
    match s with
    | [] => PyList []
    | _ => match Json.loads s with
           | Some parsed => parsed
           | None => PyList []
           end
    end
  | PyNone => PyList []
  | PyDict items => PyList (map (fun kv => PyStr (fst kv)) items)
  | PyBool _ | PyInt _ | PyFloat _ => PyList []
  end.

(** [float(x or 0)] for a [NUMERIC(12,2)] cell. *)
Definition float_or_0 (cell : option Z) : Q :=
  match cell with
  | Some units => binary64 (of_units units 2)
  | None => 0%Q
  end.

Definition str_or_empty (cell : option string) : string :=
  match cell with
  | Some s => s
  | None => EmptyString
  end.

Definition _row_to_ref (row : record) : ref :=
  let l1 := coerce_referrals (r_referrals_l1 row) in
  let l2 := coerce_referrals (r_referrals_l2 row) in
  let l3 := coerce_referrals (r_referrals_l3 row) in
  Ref (r_parent1 row) (r_parent2 row) (r_parent3 row)
      (py_or l1 (PyList [])) (py_or l2 (PyList [])) (py_or l3 (PyList []))
      (Some (float_or_0 (r_earned_rub row)))
      (Some (float_or_0 (r_volume_rub row)))
      (Some (str_or_empty (r_username row)))
      (Some (str_or_empty (r_first_name row))).

(** The literal dict at the end of [ref_get_or_create]. *)
Definition default_ref : ref :=
  Ref None None None (PyList []) (PyList []) (PyList []) (Some 0%Q) (Some 0%Q) None None.

Definition ref_get_or_create (user_id : string) (s : state) : outcome value * state :=
  if negb (_db_enabled s) then (Return VNone, s)
  else
    match referrals s !! user_id with
    | Some row => (Return (VRef (_row_to_ref (fetch row))), s)
    | None =>
      let s := set_referrals (sql_insert_referral_default (now s) user_id (referrals s)) s in
      match referrals s !! user_id with
      | Some row => (Return (VRef (_row_to_ref (fetch row))), s)
      | None => (Return (VRef default_ref), s)
      end
    end.

(** [float(x or 0)] for a value of a dict. *)
Definition q_or_0 (x : option Q) : Q :=
  match x with
  | Some q => q
  | None => 0%Q
  end.

Definition ref_save (user_id : string) (data : ref) (s : state) : outcome value * state :=
  if negb (_db_enabled s) then (Return VNone, s)
  else
    match sql_upsert_referral (now s) user_id
            (parent1 data) (parent2 data) (parent3 data)
            (Json.dumps (py_or (referrals_l1 data) (PyList [])))
            (Json.dumps (py_or (referrals_l2 data) (PyList [])))
            (Json.dumps (py_or (referrals_l3 data) (PyList [])))
            (q_or_0 (earned_rub data)) (q_or_0 (volume_rub data))
            (str_or_empty (username data)) (str_or_empty (first_name data))
            (referrals s) with
    | inl e => (Raise e, s)
    | inr t => (Return VNone, set_referrals t s)
    end.

Definition ref_load_all (s : state) : outcome value * state :=
  if negb (_db_enabled s) then (Return (VRefs ∅), s)
  else (Return (VRefs ((fun row => _row_to_ref (fetch row)) <$> referrals s)), s).

Definition ref_add_earned (user_id : string) (volume_delta earned_delta : Q) (s : state)
  : outcome value * state :=
  if negb (_db_enabled s) then (Return VNone, s)
  else
    match sql_update_accrual (now s) user_id volume_delta earned_delta (referrals s) with
    | inl e => (Raise e, s)
    | inr t => (Return VNone, set_referrals t s)
    end.

Definition ref_set_earned (user_id : string) (earned : Q) (s : state)
  : outcome value * state :=
  if negb (_db_enabled s) then (Return VNone, s)
  else
    match sql_update_earned (now s) user_id earned (referrals s) with
    | inl e => (Raise e, s)
    | inr t => (Return VNone, set_referrals t s)
    end.

(** ** Balances *)

(** [float(x or 0)] for a cell of [user_balances]. *)
Definition float_of_cell (ndigits : nat) (v : numeric) : number :=
  match v with
  | NNaN => NaN
  | Units u => double (of_units u ndigits)
  end.

Definition balance_of_row (r : user_balances_row) : balance :=
  Balance (float_of_cell 2 (col_balance_rub r)) (float_of_cell 6 (col_balance_usdt r)).

(** The literal [{"balance_rub": 0.0, "balance_usdt": 0.0}]. *)
Definition zero_balance : balance := Balance (Fin 0) (Fin 0).

Definition balance_get (user_id : string) (s : state) : outcome value * state :=
  if negb (_db_enabled s) then (Return (VBalance zero_balance), s)
  else
    match sql_select_balance user_id (user_balances s) with
    | None => (Return (VBalance zero_balance), s)
    | Some row => (Return (VBalance (balance_of_row row)), s)
    end.

Definition balance_add_rub (user_id : string) (amount : number) (s : state)
  : outcome value * state :=
  if negb (_db_enabled s) || float_le_0 amount then (Return (VBool false), s)
  else
    let amount := round amount 2 in
    match sql_upsert_add RUB (now s) user_id amount (user_balances s) with
    | inl e => (Raise e, s)
    | inr t => (Return (VBool true), set_user_balances t s)
    end.

Definition balance_add_usdt (user_id : string) (amount : number) (s : state)
  : outcome value * state :=
  if negb (_db_enabled s) || float_le_0 amount then (Return (VBool false), s)
  else
    let amount := round amount 6 in
    match sql_upsert_add USDT (now s) user_id amount (user_balances s) with
    | inl e => (Raise e, s)
    | inr t => (Return (VBool true), set_user_balances t s)
    end.

Definition balance_deduct_rub (user_id : string) (amount : number) (s : state)
  : outcome value * state :=
  if negb (_db_enabled s) || float_le_0 amount then (Return VNone, s)
  else
    let amount := round amount 2 in
    match sql_update_deduct RUB (now s) user_id amount (user_balances s) with
    | inl e => (Raise e, s)
    | inr (None, t) =>
      let s := set_user_balances t s in
      let row := sql_select_balance user_id (user_balances s) in
      (Return VNone, s)
    | inr (Some row, t) =>
      (Return (VBalance (balance_of_row row)), set_user_balances t s)
    end.

Definition balance_deduct_usdt (user_id : string) (amount : number) (s : state)
  : outcome value * state :=
  if negb (_db_enabled s) || float_le_0 amount then (Return VNone, s)
  else
    let amount := round amount 6 in
    match sql_update_deduct USDT (now s) user_id amount (user_balances s) with
    | inl e => (Raise e, s)
    | inr (None, t) => (Return VNone, set_user_balances t s)
    | inr (Some row, t) =>
      (Return (VBalance (balance_of_row row)), set_user_balances t s)
    end.

(** ** Sequences of balance operations *)

Inductive balance_op : Type :=
| AddRub (user_id : string) (amount : number)
| AddUsdt (user_id : string) (amount : number)
| DeductRub (user_id : string) (amount : number)
| DeductUsdt (user_id : string) (amount : number)
| ClockTick (t : Z).

Definition run_op (op : balance_op) (s : state) : state :=
  match op with
  | AddRub u a => snd (balance_add_rub u a s)
  | AddUsdt u a => snd (balance_add_usdt u a s)
  | DeductRub u a => snd (balance_deduct_rub u a s)
  | DeductUsdt u a => snd (balance_deduct_usdt u a s)
  | ClockTick t => set_now t s
  end.

Definition run_ops (ops : list balance_op) (s : state) : state :=
  fold_left (fun s op => run_op op s) ops s.

(** ** Concurrent calls of [balance_deduct_rub]

    A coroutine runs from one [await] to the next; the event loop resumes
    the coroutines in any order.  The position of a call: *)
Inductive position : Type :=
| AtCall                      (* created, not yet run *)
| AtAcquire                   (* awaiting [_pool.acquire()] *)
| AtUpdate                    (* awaiting the [UPDATE ... RETURNING] *)
| AtSelect                    (* awaiting the [SELECT] that follows a miss *)
| AtRelease (result : outcome value)
                              (* leaving [async with]: awaiting the release *)
| Done (result : outcome value).

Record task : Type := Task {
  task_user : string;
  task_amount : number;
  task_at : position
}.

(** Run one coroutine up to its next [await]. *)
Definition resume (t : task) (s : state) : task * state :=
  let at_ := Task (task_user t) (task_amount t) in
  match task_at t with
  | AtCall =>
    if negb (_db_enabled s) || float_le_0 (task_amount t)
    then (at_ (Done (Return VNone)), s)
    else (at_ AtAcquire, s)
  | AtAcquire => (at_ AtUpdate, s)
  | AtUpdate =>
    let amount := round (task_amount t) 2 in
    match sql_update_deduct RUB (now s) (task_user t) amount (user_balances s) with
    | inl e => (at_ (AtRelease (Raise e)), s)
    | inr (None, tbl) => (at_ AtSelect, set_user_balances tbl s)
    | inr (Some row, tbl) =>
      (at_ (AtRelease (Return (VBalance (balance_of_row row)))), set_user_balances tbl s)
    end
  | AtSelect =>
    let row := sql_select_balance (task_user t) (user_balances s) in
    (at_ (AtRelease (Return VNone)), s)
  | AtRelease result => (at_ (Done result), s)
  | Done _ => (t, s)
  end.

Inductive event : Type :=
| Resume (i : nat)
| Tick (t : Z).

Definition step (e : event) (sys : list task * state) : list task * state :=
  match e with
  | Resume i =>
    match fst sys !! i with
    | Some t => let (t', s') := resume t (snd sys) in (<[i := t']> (fst sys), s')
    | None => sys
    end
  | Tick t => (fst sys, set_now t (snd sys))
  end.

Definition run (events : list event) (sys : list task * state) : list task * state :=
  fold_left (fun sys e => step e sys) events sys.

Definition spawn (user_id : string) (amounts : list number) : list task :=
  map (fun a => Task user_id a AtCall) amounts.

(** The statement of the call took the amount from the balance. *)
Definition succeeded (t : task) : bool :=
  match task_at t with
  | AtRelease (Return (VBalance _)) | Done (Return (VBalance _)) => true
  | _ => false
  end.

Definition insufficient (t : task) : bool :=
  match task_at t with
  | Done (Return VNone) => true
  | _ => false
  end.

Definition returned_balance (t : task) : bool :=
  match task_at t with
  | Done (Return (VBalance _)) => true
  | _ => false
  end.

Definition finished (t : task) : bool :=
  match task_at t with
  | Done _ => true
  | _ => false
  end.

(** The decimal a finite amount is rounded to, in units of
    [10^-ndigits]. *)
Definition rounded (ndigits : nat) (x : number) : Z :=
  match x with
  | Fin q => py_round q ndigits
  | _ => 0
  end.

(** The amounts debited by the calls that succeeded, in hundredths. *)
Definition debited (tasks : list task) : Z :=
  fold_right (fun t acc => (if succeeded t then rounded 2 (task_amount t) else 0) + acc)
             0 tasks.

(** The same amounts as they were passed to the calls. *)
Definition requested (tasks : list task) : Q :=
  fold_right (fun t acc =>
                ((if succeeded t
                  then match task_amount t with Fin q => q | _ => 0 end
                  else 0) + acc)%Q)
             0%Q tasks.

Definition finite (v : numeric) : bool :=
  match v with
  | Units _ => true
  | NNaN => false
  end.

(** The units of a cell that is not NaN. *)
Definition units_of (v : numeric) : Z :=
  match v with
  | Units u => u
  | NNaN => 0
  end.

Definition rub_of (user_id : string) (s : state) : Z :=
  match user_balances s !! user_id with
  | Some row => units_of (col_balance_rub row)
  | None => 0
  end.

(** ** Dispatch on the currency *)

Definition balance_add (c : currency) : string -> number -> state -> outcome value * state :=
  match c with RUB => balance_add_rub | USDT => balance_add_usdt end.

Definition balance_deduct (c : currency)
  : string -> number -> state -> outcome value * state :=
  match c with RUB => balance_deduct_rub | USDT => balance_deduct_usdt end.

(** ** Invariants of the table [user_balances] *)

(** Every row passes the column types and the CHECK constraints. *)
Definition balances_checked (s : state) : Prop :=
  forall u row, user_balances s !! u = Some row -> validate_balance_row row = None.

(** A row that passes them and holds no NaN. *)
Definition row_valid (row : user_balances_row) : Prop :=
  validate_balance_row row = None /\
  finite (col_balance_rub row) = true /\ finite (col_balance_usdt row) = true.

Definition balances_valid (s : state) : Prop :=
  forall u row, user_balances s !! u = Some row -> row_valid row.

(** Both balances of every row are numbers, and not negative. *)
Definition balances_nonneg (s : state) : Prop :=
  forall u row, user_balances s !! u = Some row ->
    exists r d, col_balance_rub row = Units r /\ col_balance_usdt row = Units d /\
                0 <= r /\ 0 <= d.

(** The row a successful debit leaves behind. *)
Definition debited_row (c : currency) (a now_ : Z) (row : user_balances_row)
  : user_balances_row :=
  set_col_balance c (Units (units_of (col_balance c row) - a)) now_ row.

(** The row a successful credit leaves behind: the updated row, or the
    inserted one with the other currency at 0. *)
Definition credited_row (c : currency) (a now_ : Z) (old : option user_balances_row)
  : user_balances_row :=
  match old with
  | Some row => set_col_balance c (Units (units_of (col_balance c row) + a)) now_ row
  | None => set_col_balance c (Units a) now_ (BalanceRow (Units 0) (Units 0) now_)
  end.

Definition stored_balance (c : currency) (old : option user_balances_row) : Z :=
  match old with
  | Some row => units_of (col_balance c row)
  | None => 0
  end.

(** ** Documents that survive the journey through a [JSONB] column *)

(** A character that a document carries unchanged: a code point that
    is not a surrogate. *)
Definition scalar_char (c : N) : bool :=
  ((c <? 55296) || ((57344 <=? c) && (c <? 1114112)))%N.

(** A value without floats, whose strings hold scalar characters and
    whose dicts have distinct keys. *)
Fixpoint plain (v : pyval) : bool :=
  match v with
  | PyNone | PyBool _ | PyInt _ => true
  | PyFloat _ => false
  | PyStr s => forallb scalar_char s
  | PyList l => forallb plain l
  | PyDict items =>
    forallb (fun kv => forallb scalar_char (fst kv) && plain (snd kv)) items
    && bool_decide (NoDup (map fst items))
  end.

(** The fuel that is enough to read a value back. *)
Fixpoint weight (v : pyval) : nat :=
  match v with
  | PyList l => S (fold_right (fun x acc => S (weight x + acc)) O l)
  | PyDict items => S (fold_right (fun kv acc => S (weight (snd kv) + acc)) O items)
  | _ => 1
  end.

(** A character that can follow a value in a document. *)
Definition delimited (rest : text) : Prop :=
  match rest with
  | [] => True
  | c :: _ => c = 44%N \/ c = 93%N \/ c = 125%N
  end.

(** The text does not go on with a digit. *)
Definition no_digit_ahead (r : text) : Prop :=
  match r with
  | [] => True
  | c :: _ => is_digit c = false
  end.

Definition items_weight (l : list pyval) : nat :=
  fold_right (fun x acc => S (weight x + acc)) O l.

Definition pairs_weight (items : list (text * pyval)) : nat :=
  fold_right (fun kv acc => S (weight (snd kv) + acc)) O items.

(** [json.loads] finds the value again in what was printed with [esc]. *)
Definition reads_back (esc : N -> text) (v : pyval) : Prop :=
  forall fuel r, (weight v <= fuel)%nat -> delimited r ->
    Json.scan_once fuel (Json.print esc v ++ r) = Some (v, r).

(** What is printed for one item of a dict. *)
Definition print_item (esc : N -> text) (kv : text * pyval) : text :=
  Json.encode_with esc (fst kv) ++ Json.key_separator ++ Json.print esc (snd kv).

(** A value [ref_save] can store and [ref_get_or_create] reads back. *)
Definition storable (v : pyval) : bool := plain v && jsonb_representable v.




(** ** Schedules *)

(** How often a schedule resumes the call number [i]. *)
Fixpoint resumes (i : nat) (events : list event) : nat :=
  match events with
  | [] => O
  | Resume j :: events' =>
    if Nat.eqb i j then S (resumes i events') else resumes i events'
  | Tick _ :: events' => resumes i events'
  end.

(** The number of times a call can still be resumed before it has
    returned: once to start it and once after each [await]. *)
Definition steps_left (p : position) : nat :=
  match p with
  | AtCall => 5
  | AtAcquire => 4
  | AtUpdate => 3
  | AtSelect => 2
  | AtRelease _ => 1
  | Done _ => 0
  end.

(** What a call of a schedule can be at: its user is [u], it passed the
    amount check if it is past it, and it did not raise. *)
Definition task_ok (u : string) (t : task) : Prop :=
  task_user t = u /\
  match task_at t with
  | AtCall | AtSelect => True
  | AtAcquire | AtUpdate => float_le_0 (task_amount t) = false
  | AtRelease (Return VNone) | AtRelease (Return (VBalance _)) => True
  | Done (Return VNone) | Done (Return (VBalance _)) => True
  | AtRelease _ | Done _ => False
  end.

(** The amount a call took from the balance. *)
Definition debit_of (t : task) : Z :=
  if succeeded t then rounded 2 (task_amount t) else 0.

(** One call resumed until it has finished, with nothing in between. *)
Definition run_alone (t : task) (s : state) : task * state :=
  Nat.iter 5 (fun p => resume (fst p) (snd p)) (t, s).

(** ** Two debits of 60.00 against 100.00 *)

Definition early (p : position) : Prop :=
  p = AtCall \/ p = AtAcquire \/ p = AtUpdate.

Definition lost (p : position) : Prop :=
  p = AtSelect \/ p = AtRelease (Return VNone) \/ p = Done (Return VNone).

(** The balance of 40.00 RUB beside the USDT of the row. *)
Definition balance_40 (usdt : numeric) : balance :=
  Balance (double (of_units 4000 2)) (float_of_cell 6 usdt).

Definition won (usdt : numeric) (p : position) : Prop :=
  p = AtRelease (Return (VBalance (balance_40 usdt)))
  \/ p = Done (Return (VBalance (balance_40 usdt))).

(** The configurations the two calls can reach: nobody debited yet and
    the balance is 100.00, or one call debited, the balance is 40.00 and
    the other call has not debited. *)
Definition race_inv (u : string) (usdt : numeric) (sys : list task * state) : Prop :=
  exists p1 p2 row,
    fst sys = [Task u (Fin 60) p1; Task u (Fin 60) p2] /\
    _db_enabled (snd sys) = true /\
    user_balances (snd sys) !! u = Some row /\
    row_valid row /\
    col_balance_usdt row = usdt /\
    ((early p1 /\ early p2 /\ col_balance_rub row = Units 10000) \/
     (won usdt p1 /\ (early p2 \/ lost p2) /\ col_balance_rub row = Units 4000) \/
     (won usdt p2 /\ (early p1 \/ lost p1) /\ col_balance_rub row = Units 4000)).

(** ** Sequences of calls *)

Inductive call : Type :=
| CRefGetOrCreate (user_id : string)
| CRefSave (user_id : string) (data : ref)
| CRefLoadAll
| CRefAddEarned (user_id : string) (volume_delta earned_delta : Q)
| CRefSetEarned (user_id : string) (earned : Q)
| CBalanceGet (user_id : string)
| CBalanceAdd (c : currency) (user_id : string) (amount : number)
| CBalanceDeduct (c : currency) (user_id : string) (amount : number)
| CTick (t : Z).

Definition exec (c : call) (s : state) : outcome value * state :=
  match c with
  | CRefGetOrCreate u => ref_get_or_create u s
  | CRefSave u data => ref_save u data s
  | CRefLoadAll => ref_load_all s
  | CRefAddEarned u dv de => ref_add_earned u dv de s
  | CRefSetEarned u e => ref_set_earned u e s
  | CBalanceGet u => balance_get u s
  | CBalanceAdd c u a => balance_add c u a s
  | CBalanceDeduct c u a => balance_deduct c u a s
  | CTick t => (Return VNone, set_now t s)
  end.

Definition exec_all (calls : list call) (s : state) : state :=
  fold_left (fun s c => snd (exec c s)) calls s.

Definition is_save_of (user_id : string) (c : call) : bool :=
  match c with
  | CRefSave u _ => bool_decide (u = user_id)
  | _ => false
  end.

Definition parents_of (row : referrals_row) : option string * option string * option string :=
  (col_parent1 row, col_parent2 row, col_parent3 row).

(** The row an accrual leaves behind. *)
Definition accrued_row (volume earned now_ : Z) (old : referrals_row) : referrals_row :=
  ReferralRow (col_parent1 old) (col_parent2 old) (col_parent3 old)
              (col_referrals_l1 old) (col_referrals_l2 old) (col_referrals_l3 old)
              (Some earned) (Some volume) (col_username old) (col_first_name old)
              (Some now_).

(** ** States used in the examples *)

Definition st0 : state := State true 0 ∅ ∅.

(** A balance of 60.00 RUB. *)
Definition st_rub_60 : state :=
  State true 0 {[ "u"%string := BalanceRow (Units 6000) (Units 0) 0 ]} ∅.



(** The store disabled, with a row in each table. *)
Definition st_off : state :=
  State false 0 {[ "u"%string := BalanceRow (Units 6000) (Units 0) 0 ]}
        {[ "u"%string := ReferralRow (Some "a"%string) None None
                           (Some lit_empty_list) (Some lit_empty_list) (Some lit_empty_list)
                           (Some 100) (Some 1000) (Some "n"%string) (Some "f"%string) (Some 0) ]}.

(** A referral row with parent "a", 1.00 earned and 10.00 of volume. *)
Definition row_u : referrals_row :=
  ReferralRow (Some "a"%string) None None
              (Some lit_empty_list) (Some lit_empty_list) (Some lit_empty_list)
              (Some 100) (Some 1000) (Some "n"%string) (Some "f"%string) (Some 0).

Definition st_ref : state := State true 5 ∅ {[ "u"%string := row_u ]}.

Definition data_b : ref :=
  Ref (Some "b"%string) None None (PyList []) (PyList []) (PyList [])
      (Some 1%Q) (Some 10%Q) (Some "n"%string) (Some "f"%string).

(** A balance of 100.00 RUB and 2.5 USDT. *)
Definition st_rub_100 : state :=
  State true 0 {[ "u"%string := BalanceRow (Units 10000) (Units 2500000) 0 ]} ∅.

(** An interleaving of two calls. *)
Definition interleaved : list event :=
  [Resume 0; Resume 1; Resume 1; Tick 3; Resume 0; Resume 0; Resume 1; Resume 1; Resume 0;
   Resume 1; Resume 0]%nat.

(** Lists of user ids, the float 12.34 earned, and the float 0.004 of
    volume. *)
Definition data_fine : ref :=
  Ref (Some "a"%string) (Some "b"%string) None
      (PyList [PyStr (txt "u1"); PyStr (txt "u2")]) (PyList [PyInt 7]) (PyList [])
      (Some (binary64 (1234 # 100))) (Some (binary64 (4 # 1000))) (Some "n"%string) None.


(** A dict where a list of referrals is expected. *)
Definition data_dict : ref :=
  Ref None None None (PyDict [(txt "a", PyInt 1)]) (PyList []) (PyList [])
      None None None None.

(** A row whose [referrals_l1] holds the JSON number 5, whose
    [referrals_l2] is NULL and whose [referrals_l3] holds a list. *)
Definition row_number : referrals_row :=
  ReferralRow None None None (Some (txt "5")) None (Some (txt "[1, 2]"))
              (Some 0) (Some 0) (Some EmptyString) (Some EmptyString) (Some 0).

(** A credit of NaN. *)
Definition credits_nan (op : balance_op) : bool :=
  match op with
  | AddRub _ NaN | AddUsdt _ NaN => true
  | _ => false
  end.

(** The table after a credit of NaN RUB to a user without a row. *)
Definition st_nan : state := snd (balance_add_rub "u" NaN st0).

(** ** Reading a balance *)

Definition balance_field (c : currency) (b : balance) : number :=
  match c with RUB => balance_rub b | USDT => balance_usdt b end.

Definition other (c : currency) : currency :=
  match c with RUB => USDT | USDT => RUB end.

(** The balance [balance_get] reads in the table for a user: zero
    without a row. *)
Definition stored (user_id : string) (s : state) : balance :=
  match user_balances s !! user_id with
  | Some row => balance_of_row row
  | None => zero_balance
  end.

(** ** Reading a referral record *)

(** The record of a user whose row [ref_get_or_create] has just inserted. *)
Definition fresh_ref : ref :=
  Ref None None None (PyList []) (PyList []) (PyList [])
      (Some 0%Q) (Some 0%Q) (Some EmptyString) (Some EmptyString).

(** The row [ref_get_or_create] inserts. *)
Definition fresh_row (now_ : Z) : referrals_row :=
  ReferralRow None None None
              (Some lit_empty_list) (Some lit_empty_list) (Some lit_empty_list)
              (Some 0) (Some 0) (Some EmptyString) (Some EmptyString) (Some now_).


Definition is_list (v : pyval) : bool :=
  match v with
  | PyList _ => true
  | _ => false
  end.

(** The three lists of a record are lists. *)
Definition ref_has_lists (r : ref) : bool :=
  is_list (referrals_l1 r) && is_list (referrals_l2 r) && is_list (referrals_l3 r).

(** Every row of the table reads as a record with lists. *)
Definition rows_have_lists (s : state) : Prop :=
  forall u row, referrals s !! u = Some row ->
    ref_has_lists (_row_to_ref (fetch row)) = true.

(** The data of a [ref_save] has storable lists in its three list fields. *)
Definition saves_lists (c : call) : bool :=
  match c with
  | CRefSave _ data =>
    is_list (referrals_l1 data) && storable (referrals_l1 data)
    && (is_list (referrals_l2 data) && storable (referrals_l2 data))
    && (is_list (referrals_l3 data) && storable (referrals_l3 data))
  | _ => true
  end.

(** The states a sequence of calls goes through, after each call. *)
Fixpoint exec_trace (calls : list call) (s : state) : list (outcome value * state) :=
  match calls with
  | [] => []
  | c :: calls' => exec c s :: exec_trace calls' (snd (exec c s))
  end.

(** A returned value holds no referral record whose lists are not lists. *)
Definition value_has_lists (v : value) : Prop :=
  match v with
  | VRef r => ref_has_lists r = true
  | VRefs m => forall u r, m !! u = Some r -> ref_has_lists r = true
  | _ => True
  end.

(** ** Concurrent credits and debits

    Calls of the four balance functions, resumed in any order.  A credit
    awaits [_pool.acquire()], its [INSERT ... ON CONFLICT] and the release
    of the connection; a debit in RUB is followed by a [SELECT] when it
    missed, a debit in USDT is not. *)
Inductive job_kind : Type :=
| JCredit (c : currency)
| JDebit (c : currency).

Record job : Type := Job {
  job_kind_of : job_kind;
  job_user : string;
  job_amount : number;
  job_at : position
}.

(** Run one call up to its next [await]. *)
Definition resume_job (j : job) (s : state) : job * state :=
  let at_ := Job (job_kind_of j) (job_user j) (job_amount j) in
  match job_at j with
  | AtCall =>
    if negb (_db_enabled s) || float_le_0 (job_amount j)
    then (at_ (Done (Return (match job_kind_of j with
                             | JCredit _ => VBool false
                             | JDebit _ => VNone
                             end))), s)
    else (at_ AtAcquire, s)
  | AtAcquire => (at_ AtUpdate, s)
  | AtUpdate =>
    match job_kind_of j with
    | JCredit c =>
      let amount := round (job_amount j) (precision c) in
      match sql_upsert_add c (now s) (job_user j) amount (user_balances s) with
      | inl e => (at_ (AtRelease (Raise e)), s)
      | inr tbl => (at_ (AtRelease (Return (VBool true))), set_user_balances tbl s)
      end
    | JDebit c =>
      let amount := round (job_amount j) (precision c) in
      match sql_update_deduct c (now s) (job_user j) amount (user_balances s) with
      | inl e => (at_ (AtRelease (Raise e)), s)
      | inr (None, tbl) =>
        (at_ (match c with RUB => AtSelect | USDT => AtRelease (Return VNone) end),
         set_user_balances tbl s)
      | inr (Some row, tbl) =>
        (at_ (AtRelease (Return (VBalance (balance_of_row row)))), set_user_balances tbl s)
      end
    end
  | AtSelect =>
    let row := sql_select_balance (job_user j) (user_balances s) in
    (at_ (AtRelease (Return VNone)), s)
  | AtRelease result => (at_ (Done result), s)
  | Done _ => (j, s)
  end.

Definition step_jobs (e : event) (sys : list job * state) : list job * state :=
  match e with
  | Resume i =>
    match fst sys !! i with
    | Some j => let (j', s') := resume_job j (snd sys) in (<[i := j']> (fst sys), s')
    | None => sys
    end
  | Tick t => (fst sys, set_now t (snd sys))
  end.

Definition run_jobs (events : list event) (sys : list job * state) : list job * state :=
  fold_left (fun sys e => step_jobs e sys) events sys.

Definition same_currency (c c' : currency) : bool :=
  match c, c' with
  | RUB, RUB | USDT, USDT => true
  | _, _ => false
  end.

(** The statement of a credit stored the amount. *)
Definition credited (p : position) : bool :=
  match p with
  | AtRelease (Return (VBool true)) | Done (Return (VBool true)) => true
  | _ => false
  end.

(** The statement of a debit took the amount. *)
Definition took (p : position) : bool :=
  match p with
  | AtRelease (Return (VBalance _)) | Done (Return (VBalance _)) => true
  | _ => false
  end.

(** What a call has added to the balance of user [u] in currency [c]:
    the rounded amount of a credit that returns [True], minus the rounded
    amount of a debit that returns a balance, zero otherwise. *)
Definition effect (c : currency) (u : string) (j : job) : Z :=
  if bool_decide (job_user j = u) then
    match job_kind_of j with
    | JCredit cj =>
      if credited (job_at j) && same_currency cj c
      then rounded (precision cj) (job_amount j) else 0
    | JDebit cj =>
      if took (job_at j) && same_currency cj c
      then - rounded (precision cj) (job_amount j) else 0
    end
  else 0.

Definition ledger (c : currency) (u : string) (jobs : list job) : Z :=
  fold_right (fun j acc => effect c u j + acc) 0 jobs.

Definition not_started (j : job) : bool :=
  match job_at j with
  | AtCall => true
  | _ => false
  end.

Definition job_finished (j : job) : bool :=
  match job_at j with
  | Done _ => true
  | _ => false
  end.

(** A call that could store NaN: a credit of NaN. *)
Definition credits_nan_job (j : job) : bool :=
  match job_kind_of j, job_amount j with
  | JCredit _, NaN => true
  | _, _ => false
  end.

(** What a call that did not start as a credit of NaN can be at: past
    the check of the amount, the amount is not [<= 0]. *)
Definition job_ok (j : job) : Prop :=
  credits_nan_job j = false /\
  match job_at j with
  | AtAcquire | AtUpdate => float_le_0 (job_amount j) = false
  | _ => True
  end.

(** Four calls for one user and one for another. *)
Definition some_jobs : list job :=
  [Job (JCredit RUB) "u" (Fin 30) AtCall; Job (JDebit RUB) "u" (Fin 80) AtCall;
   Job (JCredit USDT) "u" (double (1 # 3)) AtCall; Job (JDebit RUB) "w" (Fin 1) AtCall;
   Job (JDebit USDT) "u" NaN AtCall].

Definition some_schedule : list event :=
  [Resume 1; Resume 0; Resume 1; Resume 3; Resume 0; Resume 2; Resume 1; Tick 4;
   Resume 0; Resume 2; Resume 3; Resume 2; Resume 1; Resume 3; Resume 3; Resume 0;
   Resume 2; Resume 4; Resume 4; Resume 1; Resume 0; Resume 4; Resume 2; Resume 3;
   Resume 4; Resume 4]%nat.

(** ** The tables [users], [rating_prefs] and [app_rates]

    A [TEXT] value is a [str] without the character 0, as for the
    tables above; a [BOOLEAN] parameter is a [bool].  A
    [NUMERIC(12,4)] column holds ten-thousandths. *)
Record users_row : Type := UserRow {
  col_user_username : option string;
  col_user_first_name : option string;
  col_user_last_name : option string;
  col_user_created_at : option Z
}.

Record rating_prefs_row : Type := RatingRow {
  col_show_in_rating : option bool;
  col_rating_updated_at : option Z
}.

(** [value] is [NOT NULL]. *)
Record app_rates_row : Type := RateRow {
  col_value : Z;
  col_rate_updated_at : option Z
}.

(** [NULLIF($n, '')] *)
Definition nullif_empty (s : string) : option string :=
  match s with
  | EmptyString => None
  | String _ _ => Some s
  end.

(** [COALESCE(a, b)] *)
Definition coalesce {A : Type} (a b : option A) : option A :=
  match a with
  | Some _ => a
  | None => b
  end.

(** [INSERT INTO users (id, username, first_name) VALUES ($1, $2, $3)
     ON CONFLICT (id) DO UPDATE SET
       username = COALESCE(NULLIF($2,''), users.username),
       first_name = COALESCE(NULLIF($3,''), users.first_name)];
    [last_name] and [created_at] take their defaults on insertion. *)
Definition sql_upsert_user (now_ : Z) (id uname fname : string) (t : gmap string users_row)
  : gmap string users_row :=
  match t !! id with
  | None => <[id := UserRow (Some uname) (Some fname) (Some EmptyString) (Some now_)]> t
  | Some old =>
    <[id := UserRow (coalesce (nullif_empty uname) (col_user_username old))
                    (coalesce (nullif_empty fname) (col_user_first_name old))
                    (col_user_last_name old) (col_user_created_at old)]> t
  end.

(** [INSERT INTO rating_prefs (user_id, show_in_rating) VALUES ($1, $2)
     ON CONFLICT (user_id) DO UPDATE SET show_in_rating = $2, updated_at = NOW()] *)
Definition sql_upsert_rating (now_ : Z) (user_id : string) (show : bool)
    (t : gmap string rating_prefs_row) : gmap string rating_prefs_row :=
  <[user_id := RatingRow (Some show) (Some now_)]> t.

(** Conversion of a numeric parameter to [NUMERIC(12,4)]. *)
Definition numeric_12_4_in (x : Q) : pg_error + Z :=
  let units := pg_round x 4 in
  if fits_numeric_12 units then inr units else inl NumericFieldOverflow.

(** [INSERT INTO app_rates (key, value) VALUES ($1, $2)
     ON CONFLICT (key) DO UPDATE SET value = $2, updated_at = NOW()] *)
Definition sql_upsert_rate (now_ : Z) (key : string) (x : Q) (t : gmap string app_rates_row)
  : pg_error + gmap string app_rates_row :=
  match numeric_12_4_in x with
  | inl e => inl e
  | inr units => inr (<[key := RateRow units (Some now_)]> t)
  end.

(** The module with all the tables the functions below reach. *)
Record db : Type := Db {
  db_state : state;
  users : gmap string users_row;
  rating_prefs : gmap string rating_prefs_row;
  app_rates : gmap string app_rates_row
}.

Definition set_db_state (s : state) (d : db) : db :=
  Db s (users d) (rating_prefs d) (app_rates d).

Definition set_users (t : gmap string users_row) (d : db) : db :=
  Db (db_state d) t (rating_prefs d) (app_rates d).

Definition set_rating_prefs (t : gmap string rating_prefs_row) (d : db) : db :=
  Db (db_state d) (users d) t (app_rates d).

Definition set_app_rates (t : gmap string app_rates_row) (d : db) : db :=
  Db (db_state d) (users d) (rating_prefs d) t.

(** What the functions of the whole module return: the dict of
    [rating_get_all] is kept as the map from a user to the value under
    ["show_in_rating"], the dict of [rates_get] as the map from a key to
    its [float], a finite number. *)
Inductive answer : Type :=
| ANone
| AValue (v : value)
| ABool (b : bool)
| ARatings (m : gmap string (option bool))
| ARates (m : gmap string Q).

Definition close_pool (d : db) : outcome answer * db :=
  let s := db_state d in
  (Return ANone, set_db_state (State false (now s) (user_balances s) (referrals s)) d).

Definition is_enabled (d : db) : bool := _db_enabled (db_state d).

(** [username or ""] is [str_or_empty]. *)
Definition user_upsert (user_id : string) (username first_name : option string) (d : db)
  : outcome answer * db :=
  if negb (_db_enabled (db_state d)) then (Return ANone, d)
  else
    (Return ANone,
     set_users (sql_upsert_user (now (db_state d)) user_id
                                (str_or_empty username) (str_or_empty first_name) (users d)) d).

Definition rating_get_all (d : db) : outcome answer * db :=
  if negb (_db_enabled (db_state d)) then (Return (ARatings ∅), d)
  else (Return (ARatings (col_show_in_rating <$> rating_prefs d)), d).

Definition rating_set (user_id : string) (show : bool) (d : db) : outcome answer * db :=
  if negb (_db_enabled (db_state d)) then (Return ANone, d)
  else
    (Return ANone,
     set_rating_prefs (sql_upsert_rating (now (db_state d)) user_id show (rating_prefs d)) d).

(** The [SELECT] raises nothing here, so the [except] branch is not
    taken; no [value] is NULL, so the comprehension keeps every row. *)
Definition rates_get (d : db) : outcome answer * db :=
  if negb (_db_enabled (db_state d)) then (Return (ARates ∅), d)
  else (Return (ARates ((fun row => binary64 (of_units (col_value row) 4)) <$> app_rates d)), d).

(** [value] is a finite float.  The [except] branch logs and raises the
    error again. *)
Definition rates_set (key : string) (value : Q) (d : db) : outcome answer * db :=
  if negb (_db_enabled (db_state d)) then (Return ANone, d)
  else
    match sql_upsert_rate (now (db_state d)) key value (app_rates d) with
    | inl e => (Raise e, d)
    | inr t => (Return ANone, set_app_rates t d)
    end.

(** ** Sequences of calls of the whole module *)

Inductive action : Type :=
| ACall (c : call)
| AUserUpsert (user_id : string) (username first_name : option string)
| ARatingGetAll
| ARatingSet (user_id : string) (show : bool)
| ARatesGet
| ARatesSet (key : string) (value : Q)
| AClosePool
| AIsEnabled.

Definition lift (r : outcome value * state) (d : db) : outcome answer * db :=
  (match fst r with
   | Return v => Return (AValue v)
   | Raise e => Raise e
   end,
   set_db_state (snd r) d).

Definition perform (a : action) (d : db) : outcome answer * db :=
  match a with
  | ACall c => lift (exec c (db_state d)) d
  | AUserUpsert u n f => user_upsert u n f d
  | ARatingGetAll => rating_get_all d
  | ARatingSet u b => rating_set u b d
  | ARatesGet => rates_get d
  | ARatesSet k v => rates_set k v d
  | AClosePool => close_pool d
  | AIsEnabled => (Return (ABool (is_enabled d)), d)
  end.

Definition perform_all (actions : list action) (d : db) : db :=
  fold_left (fun d a => snd (perform a d)) actions d.

(** A name that [NULLIF(..., '')] does not turn into NULL. *)
Definition named (cell : option string) : bool :=
  match cell with
  | Some (String _ _) => true
  | _ => false
  end.

(** The magnitude from which a value no longer fits [NUMERIC(12,4)]:
    99999999.99995, which rounds to [10^8]. *)
Definition rate_limit : Q := 9999999999995 # 100000.

Definition db0 : db := Db st_ref ∅ ∅ ∅.

Definition some_actions : list action :=
  [AUserUpsert "u" None (Some "Ann"%string); ACall (CTick 9); ARatingSet "u" true;
   AUserUpsert "u" (Some "ann"%string) (Some EmptyString); ARatesSet "k" (binary64 (1 # 3));
   AClosePool; AUserUpsert "u" (Some "x"%string) None].

(** The value of the last [rating_set] for a user among the actions. *)
Fixpoint last_rating (user_id : string) (actions : list action) : option bool :=
  match actions with
  | [] => None
  | a :: rest =>
    match last_rating user_id rest with
    | Some b => Some b
    | None =>
      match a with
      | ARatingSet u b => if bool_decide (u = user_id) then Some b else None
      | _ => None
      end
    end
  end.

Definition closes (a : action) : bool :=
  match a with
  | AClosePool => true
  | _ => false
  end.

(** The value [rating_get_all] has for a user; [None] without a row. *)
Definition rating_of (user_id : string) (d : db) : option (option bool) :=
  col_show_in_rating <$> rating_prefs d !! user_id.

(** What every call keeps of a row of [users]: the registration date and
    the last name, and a name that is not blank stays not blank. *)
Definition keeps_registration (row row' : users_row) : Prop :=
  col_user_created_at row' = col_user_created_at row /\
  col_user_last_name row' = col_user_last_name row /\
  (named (col_user_username row) = true -> named (col_user_username row') = true) /\
  (named (col_user_first_name row) = true -> named (col_user_first_name row') = true).

Definition open_actions : list action :=
  [AUserUpsert "u" None (Some "Ann"%string); ACall (CTick 9); ARatingSet "u" false;
   AUserUpsert "u" (Some "ann"%string) (Some EmptyString); ARatesSet "k" (binary64 (1 # 3));
   ARatingSet "w" false; ARatingSet "u" true; ARatingGetAll].

Definition row_ann : users_row :=
  UserRow (Some "ann"%string) None (Some EmptyString) (Some 1).

Definition db_ann : db := Db st_ref {[ "u"%string := row_ann ]} ∅ ∅.

(** * Properties *)

(** ** Rounding *)

Lemma round_half_even_nonneg (x : Q) : 0 <= Qnum x -> 0 <= round_half_even x.
Proof.
  intros Hn. unfold round_half_even.
  assert (Hf : 0 <= Qnum x / Z.pos (Qden x)) by (apply Z.div_pos; lia).
  destruct (2 * (Qnum x mod Z.pos (Qden x)) ?= Z.pos (Qden x)); try lia.
  destruct (Z.even _); lia.
Qed.

Lemma scale_of_pos (n : nat) : 0 < scale_of n.
Proof. unfold scale_of. apply Z.pow_pos_nonneg; lia. Qed.

Lemma py_round_nonneg (x : Q) (n : nat) : Qle_bool x 0 = false -> 0 <= py_round x n.
Proof.
  intros Hx. unfold py_round. apply round_half_even_nonneg.
  assert (Hpos : 0 < Qnum x).
  { destruct x as [xn xd]. unfold Qle_bool in Hx. simpl in *.
    apply Z.leb_gt in Hx. lia. }
  pose proof (scale_of_pos n). simpl. nia.
Qed.

(** [round_half_away] of an integer is that integer. *)
Lemma round_half_away_exact (x : Q) (m : Z) :
  (x == inject_Z m)%Q -> round_half_away x = m.
Proof.
  unfold Qeq, round_half_away. simpl. intros H.
  set (d := Z.pos (Qden x)) in *. assert (Hd : 0 < d) by (unfold d; lia).
  assert (Hn : Qnum x = m * d) by lia.
  rewrite Hn, Z.abs_mul, (Z.abs_eq d) by lia.
  rewrite Z.div_mul, Z.mod_mul by lia.
  replace (2 * 0 <? d) with true by (symmetry; apply Z.ltb_lt; lia).
  rewrite Z.sgn_mul, (Z.sgn_pos d) by lia.
  rewrite Z.mul_1_r. destruct m; simpl; lia.
Qed.

Lemma pg_round_exact (units delta : Z) :
  pg_round (of_units units 2 + of_units delta 2) 2 = units + delta.
Proof.
  apply round_half_away_exact. unfold of_units, scale_of.
  change (10 ^ Z.of_nat 2) with 100. rewrite inject_Z_plus. field.
Qed.

(** The magnitude of [round_half_away x] is [|x| + 1/2] rounded down. *)
Lemma round_half_away_abs (x : Q) :
  Z.abs (round_half_away x)
    = (2 * Z.abs (Qnum x) + Z.pos (Qden x)) / (2 * Z.pos (Qden x)).
Proof.
  unfold round_half_away. cbv zeta.
  set (a := Z.abs (Qnum x)). set (d := Z.pos (Qden x)).
  assert (Hd : 0 < d) by (unfold d; lia).
  assert (Ha : 0 <= a) by (unfold a; lia).
  pose proof (Z.div_mod a d ltac:(lia)) as Hdm.
  pose proof (Z.mod_pos_bound a d Hd) as Hm.
  assert (Hf : 0 <= a / d) by (apply Z.div_pos; lia).
  rewrite Z.abs_mul.
  destruct (Z.eq_dec (Qnum x) 0) as [Hz|Hz].
  - assert (a = 0) by (unfold a; lia).
    replace (Z.sgn (Qnum x)) with 0 by (rewrite Hz; reflexivity).
    replace (2 * a + d) with d by lia.
    rewrite (Z.div_small d (2 * d)) by lia. reflexivity.
  - replace (Z.abs (Z.sgn (Qnum x))) with 1 by (destruct (Qnum x); [contradiction|reflexivity..]).
    rewrite Z.mul_1_l.
    destruct (2 * (a mod d) <? d) eqn:E.
    + apply Z.ltb_lt in E. rewrite Z.abs_eq by lia.
      apply Z.div_unique with (r := 2 * (a mod d) + d); [left; lia|nia].
    + apply Z.ltb_ge in E. rewrite Z.abs_eq by lia.
      apply Z.div_unique with (r := 2 * (a mod d) - d); [left; lia|nia].
Qed.

(** [round_half_away x] is within one half of [x]. *)
Lemma round_half_away_near (x : Q) :
  2 * Z.abs (round_half_away x * Z.pos (Qden x) - Qnum x) <= Z.pos (Qden x).
Proof.
  unfold round_half_away. cbv zeta.
  set (d := Z.pos (Qden x)).
  assert (Hd : 0 < d) by (unfold d; lia).
  pose proof (Z.div_mod (Z.abs (Qnum x)) d ltac:(lia)) as Hdm.
  pose proof (Z.mod_pos_bound (Z.abs (Qnum x)) d Hd) as Hm.
  revert Hdm Hm.
  generalize (Z.abs (Qnum x) / d) (Z.abs (Qnum x) mod d). intros f m Hdm Hm.
  destruct (2 * m <? d) eqn:E; [apply Z.ltb_lt in E|apply Z.ltb_ge in E];
    destruct (Qnum x) as [|p|p]; simpl Z.sgn; simpl Z.abs in Hdm; nia.
Qed.

(** The integer within less than one half of [x] is [round_half_away x]. *)
Lemma round_half_away_nearest (x : Q) (k : Z) :
  2 * Z.abs (Qnum x - k * Z.pos (Qden x)) < Z.pos (Qden x) -> round_half_away x = k.
Proof.
  intros H. pose proof (round_half_away_near x) as Hr.
  revert Hr. generalize (round_half_away x). intros r Hr.
  assert (Hd : 0 < Z.pos (Qden x)) by lia.
  revert H Hr Hd. generalize (Z.pos (Qden x)) (Qnum x). intros d n H Hr Hd.
  destruct (Z.eq_dec r k) as [E|E]; [exact E|exfalso].
  assert (Hrk : d <= Z.abs ((r - k) * d)).
  { rewrite Z.abs_mul, (Z.abs_eq d) by lia. assert (1 <= Z.abs (r - k)) by lia. nia. }
  lia.
Qed.

Lemma of_units_parts (k : Z) (p : nat) :
  Qnum (of_units k p) = k /\ Z.pos (Qden (of_units k p)) = scale_of p.
Proof.
  unfold of_units. pose proof (scale_of_pos p) as Hs.
  destruct (scale_of p) as [|s|s] eqn:E; try lia.
  unfold Qdiv, Qmult, Qinv, inject_Z. cbn [Qnum Qden]. split; lia.
Qed.
(** ** Binary floating point *)

Lemma round_half_even_near (x : Q) :
  2 * Z.abs (round_half_even x * Z.pos (Qden x) - Qnum x) <= Z.pos (Qden x).
Proof.
  unfold round_half_even. cbv zeta.
  set (d := Z.pos (Qden x)). set (n := Qnum x).
  assert (Hd : 0 < d) by (unfold d; lia).
  pose proof (Z.div_mod n d ltac:(lia)) as Hdm.
  pose proof (Z.mod_pos_bound n d Hd) as Hm.
  revert Hdm Hm. generalize (n / d) (n mod d). intros f m Hdm Hm.
  destruct (Z.compare_spec (2 * m) d); try destruct (Z.even f); lia.
Qed.

Lemma round_half_even_opp (x : Q) : round_half_even (- x) = - round_half_even x.
Proof.
  unfold round_half_even. cbv zeta. destruct x as [n d]. cbn [Qopp Qnum Qden].
  set (D := Z.pos d). assert (Hd : 0 < D) by (unfold D; lia).
  pose proof (Z.div_mod n D ltac:(lia)) as Hdm.
  pose proof (Z.mod_pos_bound n D Hd) as Hm.
  destruct (Z.eq_dec (n mod D) 0) as [Hz|Hz].
  - assert (En : n = D * (n / D)) by lia.
    assert (E1 : (- n) mod D = 0).
    { apply Z.mod_divide; [lia|]. exists (- (n / D)). lia. }
    assert (E2 : (- n) / D = - (n / D)).
    { symmetry. apply Z.div_unique with (r := 0); lia. }
    rewrite E1, E2, Hz. destruct (Z.compare_spec (2 * 0) D); try lia.
  - assert (E2 : (- n) / D = - (n / D) - 1).
    { symmetry. apply Z.div_unique with (r := D - n mod D); lia. }
    assert (E1 : (- n) mod D = D - n mod D).
    { symmetry. apply Z.mod_unique with (q := - (n / D) - 1); lia. }
    rewrite E1, E2.
    replace (- (n / D) - 1) with (- (n / D + 1)) by lia.
    rewrite Z.even_opp, Z.even_add. change (Z.even 1) with false.
    destruct (Z.compare_spec (2 * (n mod D)) D);
      destruct (Z.compare_spec (2 * (D - n mod D)) D); try lia;
      destruct (Z.even (n / D)); simpl; lia.
Qed.

Lemma pow2_pos (k : Z) : 0 <= k -> 0 < 2 ^ k.
Proof. intros Hk. apply Z.pow_pos_nonneg; lia. Qed.

Lemma pow2_split (a b : Z) : 0 <= a -> 0 <= b -> 2 ^ (a + b) = 2 ^ a * 2 ^ b.
Proof. intros Ha Hb. apply Z.pow_add_r; assumption. Qed.

(** [leading_bit n d] is the [k] with [2^k <= n / d < 2^(k+1)]. *)
Lemma leading_bit_spec (n d : Z) :
  0 < n -> 0 < d ->
  pow2_le (leading_bit n d) n d = true /\ pow2_le (leading_bit n d + 1) n d = false.
Proof.
  intros Hn Hd. unfold leading_bit. cbv zeta.
  destruct (Z.log2_spec n Hn) as [Hn1 Hn2]. destruct (Z.log2_spec d Hd) as [Hd1 Hd2].
  pose proof (Z.log2_nonneg n) as La. pose proof (Z.log2_nonneg d) as Lb.
  revert Hn1 Hn2 Hd1 Hd2 La Lb. generalize (Z.log2 n) (Z.log2 d). intros a b.
  replace (Z.succ a) with (a + 1) by lia. replace (Z.succ b) with (b + 1) by lia.
  intros Hn1 Hn2 Hd1 Hd2 La Lb.
  rewrite pow2_split in Hn2, Hd2 by lia. change (2 ^ 1) with 2 in *.
  pose proof (pow2_pos a La) as Pa. pose proof (pow2_pos b Lb) as Pb.
  destruct (Z_le_gt_dec b a) as [Hab|Hab].
  - (* a = b + (a - b) *)
    assert (HA : 2 ^ a = 2 ^ b * 2 ^ (a - b))
      by (rewrite <- pow2_split by lia; f_equal; lia).
    pose proof (pow2_pos (a - b) ltac:(lia)) as PK.
    destruct (pow2_le (a - b) n d) eqn:E; (split; [try exact E|try exact E]).
    + unfold pow2_le in *. replace (0 <=? a - b) with true in E by (symmetry; apply Z.leb_le; lia).
      replace (0 <=? a - b + 1) with true by (symmetry; apply Z.leb_le; lia).
      apply Z.leb_le in E. apply Z.leb_gt. rewrite pow2_split by lia. change (2 ^ 1) with 2. nia.
    + unfold pow2_le in *. replace (0 <=? a - b) with true in E by (symmetry; apply Z.leb_le; lia).
      apply Z.leb_gt in E.
      destruct (Z.eq_dec a b) as [Heq|Hne].
      * replace (0 <=? a - b - 1) with false by (symmetry; apply Z.leb_gt; lia).
        apply Z.leb_le. replace (- (a - b - 1)) with 1 by lia. change (2 ^ 1) with 2.
        subst b. lia.
      * replace (0 <=? a - b - 1) with true by (symmetry; apply Z.leb_le; lia).
        apply Z.leb_le.
        assert (HK : 2 ^ (a - b) = 2 * 2 ^ (a - b - 1)).
        { replace (a - b) with (1 + (a - b - 1)) at 1 by lia.
          rewrite pow2_split by lia. reflexivity. }
        pose proof (pow2_pos (a - b - 1) ltac:(lia)). nia.
    + replace (a - b - 1 + 1) with (a - b) by lia. exact E.
  - (* b = a + (b - a) *)
    assert (HB : 2 ^ b = 2 ^ a * 2 ^ (b - a))
      by (rewrite <- pow2_split by lia; f_equal; lia).
    pose proof (pow2_pos (b - a) ltac:(lia)) as PK.
    destruct (pow2_le (a - b) n d) eqn:E; (split; [try exact E|try exact E]).
    + unfold pow2_le in *. replace (0 <=? a - b) with false in E by (symmetry; apply Z.leb_gt; lia).
      replace (- (a - b)) with (b - a) in E by lia. apply Z.leb_le in E.
      destruct (Z.eq_dec (a + 1) b) as [Heq|Hne].
      * replace (0 <=? a - b + 1) with true by (symmetry; apply Z.leb_le; lia).
        apply Z.leb_gt. replace (a - b + 1) with 0 by lia. change (2 ^ 0) with 1.
        replace (b - a) with 1 in HB by lia. change (2 ^ 1) with 2 in HB. lia.
      * replace (0 <=? a - b + 1) with false by (symmetry; apply Z.leb_gt; lia).
        apply Z.leb_gt. replace (- (a - b + 1)) with (b - a - 1) by lia.
        assert (HK : 2 ^ (b - a) = 2 * 2 ^ (b - a - 1)).
        { replace (b - a) with (1 + (b - a - 1)) at 1 by lia.
          rewrite pow2_split by lia. reflexivity. }
        pose proof (pow2_pos (b - a - 1) ltac:(lia)). nia.
    + unfold pow2_le in *. replace (0 <=? a - b - 1) with false by (symmetry; apply Z.leb_gt; lia).
      apply Z.leb_le. replace (- (a - b - 1)) with (1 + (b - a)) by lia.
      rewrite pow2_split by lia. change (2 ^ 1) with 2. nia.
    + replace (a - b - 1 + 1) with (a - b) by lia. exact E.
Qed.

Lemma scaled_opp (e : Z) (x : Q) : scaled e (- x) = (- scaled e x)%Q.
Proof.
  unfold scaled. destruct x as [n d]. cbn [Qopp Qnum Qden].
  destruct (0 <=? e); unfold Qopp; cbn [Qnum Qden]; f_equal; lia.
Qed.

Lemma unscaled_opp (e m : Z) : unscaled e (- m) = (- unscaled e m)%Q.
Proof.
  unfold unscaled. destruct (0 <=? e); unfold Qopp, inject_Z; cbn [Qnum Qden]; f_equal; lia.
Qed.

Lemma binary64_opp (x : Q) : binary64 (- x) = (- binary64 x)%Q.
Proof.
  unfold binary64. destruct x as [n d]. cbn [Qopp Qnum Qden].
  rewrite Z.abs_opp. destruct (Z.eqb_spec n 0) as [->|Hn]; [reflexivity|].
  replace (- n =? 0) with false by (symmetry; apply Z.eqb_neq; lia).
  cbv zeta. change (- n # d) with (- (n # d))%Q.
  rewrite scaled_opp, round_half_even_opp, unscaled_opp. reflexivity.
Qed.

(** The relative error of [binary64] is at most [2^-53] on the normal
    range: [|f - x| <= x / 2^53], with the fractions cleared. *)
Lemma binary64_near (x : Q) :
  (0 < x)%Q -> (1 # Z.to_pos (2 ^ 1022) <= x)%Q ->
  2 ^ 53 * Z.abs (Qnum (binary64 x) * Z.pos (Qden x) - Qnum x * Z.pos (Qden (binary64 x)))
    <= Qnum x * Z.pos (Qden (binary64 x)).
Proof.
  destruct x as [n d]. unfold Qlt, Qle. cbn [Qnum Qden]. intros Hpos Hnorm.
  assert (Hn : 0 < n) by lia.
  rewrite Z2Pos.id in Hnorm by (apply pow2_pos; lia).
  unfold binary64. cbn [Qnum Qden].
  replace (n =? 0) with false by (symmetry; apply Z.eqb_neq; lia).
  rewrite (Z.abs_eq n) by lia. cbv zeta.
  destruct (leading_bit_spec n (Z.pos d) Hn ltac:(lia)) as [HL HU].
  set (k := leading_bit n (Z.pos d)) in *.
  assert (Hk : - 1022 <= k).
  { destruct (Z_le_gt_dec (- 1022) k) as [H|H]; [exact H|exfalso].
    unfold pow2_le in HU. replace (0 <=? k + 1) with false in HU by (symmetry; apply Z.leb_gt; lia).
    apply Z.leb_gt in HU.
    assert (2 ^ 1022 <= 2 ^ (- (k + 1))) by (apply Z.pow_le_mono_r; lia).
    nia. }
  rewrite Z.max_l by lia.
  pose proof (round_half_even_near (scaled (k - 52) (n # d))) as Hr.
  revert Hr. generalize (round_half_even (scaled (k - 52) (n # d))). intros m Hr.
  unfold scaled, unscaled in *. cbn [Qnum Qden] in *.
  destruct (0 <=? k - 52) eqn:Ee.
  - apply Z.leb_le in Ee. cbn [Qnum Qden inject_Z] in *.
    pose proof (pow2_pos (k - 52) Ee) as Pe.
    rewrite Pos2Z.inj_mul, Z2Pos.id in Hr by exact Pe.
    unfold pow2_le in HL. replace (0 <=? k) with true in HL by (symmetry; apply Z.leb_le; lia).
    apply Z.leb_le in HL.
    replace k with (52 + (k - 52)) in HL at 1 by lia. rewrite pow2_split in HL by lia.
    change (2 ^ 52) with 4503599627370496 in HL. change (2 ^ 53) with 9007199254740992.
    revert HL Hr Pe. generalize (2 ^ (k - 52)). intros P HL Hr Pe.
    change (Z.pos 1) with 1. nia.
  - apply Z.leb_gt in Ee. cbn [Qnum Qden] in *.
    pose proof (pow2_pos (- (k - 52)) ltac:(lia)) as Pe.
    rewrite Z2Pos.id by exact Pe.
    assert (HN : Z.pos d * 2 ^ 52 <= n * 2 ^ (- (k - 52))).
    { unfold pow2_le in HL. destruct (0 <=? k) eqn:Ek.
      - apply Z.leb_le in Ek, HL.
        replace 52 with (k + - (k - 52)) at 1 by lia. rewrite pow2_split by lia.
        pose proof (pow2_pos k Ek). nia.
      - apply Z.leb_gt in Ek. apply Z.leb_le in HL.
        replace (- (k - 52)) with (- k + 52) by lia. rewrite pow2_split by lia.
        pose proof (pow2_pos (- k) ltac:(lia)). nia. }
    change (2 ^ 52) with 4503599627370496 in HN. change (2 ^ 53) with 9007199254740992.
    revert HN Hr Pe. generalize (2 ^ (- (k - 52))). intros P HN Hr Pe. nia.
Qed.

(** ** Decimals as floats *)

Lemma small_scale_precision (c : currency) : small_scale (precision c).
Proof. destruct c; unfold small_scale, scale_of; simpl; lia. Qed.

(** The float of a positive decimal [k / 10^p]: its relative error. *)
Lemma binary64_units (k : Z) (p : nat) :
  0 < k -> small_scale p ->
  let f := binary64 (of_units k p) in
  2 ^ 53 * Z.abs (Qnum f * scale_of p - k * Z.pos (Qden f)) <= k * Z.pos (Qden f).
Proof.
  intros Hk Hp f. destruct (of_units_parts k p) as [En Ed].
  pose proof (binary64_near (of_units k p)) as H.
  rewrite En, Ed in H. apply H.
  - unfold Qlt. rewrite En. simpl. lia.
  - unfold Qle. rewrite En, Ed. cbn [Qnum Qden].
    rewrite Z2Pos.id by (apply pow2_pos; lia).
    unfold small_scale in Hp.
    assert (10 ^ 300 <= 2 ^ 1022) by (vm_compute; discriminate).
    nia.
Qed.

Lemma binary64_units_0 (p : nat) : binary64 (of_units 0 p) = 0%Q.
Proof.
  unfold binary64. destruct (of_units_parts 0 p) as [-> _]. reflexivity.
Qed.

(** The float of a decimal that is not negative is not negative. *)
Lemma binary64_units_sign (k : Z) (p : nat) :
  0 <= k -> small_scale p -> 0 <= Qnum (binary64 (of_units k p)).
Proof.
  intros Hk Hp. destruct (Z.eq_dec k 0) as [->|Hne].
  - rewrite binary64_units_0. simpl. lia.
  - pose proof (binary64_units k p ltac:(lia) Hp) as H. cbv zeta in H.
    pose proof (scale_of_pos p) as Hs.
    revert H. generalize (binary64 (of_units k p)). intros [fn fd]. cbn [Qnum Qden].
    change (2 ^ 53) with 9007199254740992. intros H.
    destruct (Z_lt_le_dec fn 0) as [Hneg|]; [exfalso|assumption]. nia.
Qed.

(** Stored in a column of its own scale, the float of a decimal of less
    than [2^52] units is that decimal again. *)
Lemma pg_round_binary64 (k : Z) (p : nat) :
  0 <= k < 2 ^ 52 -> small_scale p -> pg_round (binary64 (of_units k p)) p = k.
Proof.
  intros Hk Hp. destruct (Z.eq_dec k 0) as [->|Hne].
  - rewrite binary64_units_0. unfold pg_round. apply round_half_away_exact.
    unfold Qeq. simpl. lia.
  - pose proof (binary64_units k p ltac:(lia) Hp) as H. cbv zeta in H.
    unfold pg_round. apply round_half_away_nearest.
    pose proof (scale_of_pos p) as Hs.
    revert H. generalize (binary64 (of_units k p)). intros [fn fd] H.
    unfold Qmult, inject_Z. cbn [Qnum Qden] in *. rewrite Pos.mul_1_r.
    change (2 ^ 53) with 9007199254740992 in H. change (2 ^ 52) with 4503599627370496 in Hk.
    assert (k * Z.pos fd < 4503599627370496 * Z.pos fd) by nia. lia.
Qed.

(** The float of a decimal of less than [2^1000] units is finite. *)
Lemma double_units (k : Z) (p : nat) :
  0 <= k < 2 ^ 1000 -> small_scale p ->
  double (of_units k p) = Fin (binary64 (of_units k p)).
Proof.
  intros Hk Hp. unfold double. cbv zeta.
  pose proof (binary64_units_sign k p ltac:(lia) Hp) as Hsign.
  assert (Hlt : Qle_bool (inject_Z (2 ^ 1024)) (binary64 (of_units k p)) = false).
  { destruct (Z.eq_dec k 0) as [->|Hne]; [rewrite binary64_units_0; reflexivity|].
    pose proof (binary64_units k p ltac:(lia) Hp) as H. cbv zeta in H.
    pose proof (scale_of_pos p) as Hs.
    revert H Hsign. generalize (binary64 (of_units k p)). intros [fn fd] H Hsign.
    unfold Qle_bool, inject_Z. cbn [Qnum Qden] in *. apply Z.leb_gt.
    assert (H2 : 2 ^ 1024 = 2 ^ 1000 * 2 ^ 24) by (rewrite <- Z.pow_add_r by lia; reflexivity).
    rewrite H2. change (2 ^ 24) with 16777216. change (2 ^ 53) with 9007199254740992 in H.
    revert Hk. generalize (2 ^ 1000). intros B Hk. nia. }
  rewrite Hlt.
  replace (Qle_bool (binary64 (of_units k p)) (inject_Z (- 2 ^ 1024))) with false; [reflexivity|].
  symmetry. revert Hsign. generalize (binary64 (of_units k p)). intros [fn fd] Hsign.
  unfold Qle_bool, inject_Z. cbn [Qnum Qden] in *. apply Z.leb_gt.
  assert (0 < 2 ^ 1024) by (apply pow2_pos; lia). nia.
Qed.

(** The amount a credit or a debit sends, stored in the column. *)
Lemma numeric_in_double (k : Z) (p : nat) :
  0 <= k -> small_scale p ->
  numeric_in p (double (of_units k p)) =
    if k <? numeric_12_limit then inr (Units k) else inl NumericFieldOverflow.
Proof.
  intros Hk Hp. change numeric_12_limit with 1000000000000.
  destruct (k <? 1000000000000) eqn:E.
  - apply Z.ltb_lt in E.
    rewrite double_units by (split; [lia|]; assert (2 ^ 52 <= 2 ^ 1000)
      by (apply Z.pow_le_mono_r; lia); change (2 ^ 52) with 4503599627370496 in *; lia) || exact Hp.
    unfold numeric_in. rewrite pg_round_binary64
      by (try exact Hp; change (2 ^ 52) with 4503599627370496; lia).
    unfold fits_numeric_12. change numeric_12_limit with 1000000000000.
    replace (Z.abs k <? 1000000000000) with true by (symmetry; apply Z.ltb_lt; lia).
    reflexivity.
  - apply Z.ltb_ge in E. unfold double. cbv zeta.
    destruct (Qle_bool (inject_Z (2 ^ 1024)) _); [reflexivity|].
    destruct (Qle_bool _ (inject_Z (- 2 ^ 1024))); [reflexivity|].
    unfold numeric_in.
    replace (fits_numeric_12 (pg_round (binary64 (of_units k p)) p)) with false; [reflexivity|].
    symmetry. unfold fits_numeric_12, pg_round. apply Z.ltb_ge.
    rewrite round_half_away_abs.
    pose proof (binary64_units k p ltac:(lia) Hp) as H. cbv zeta in H.
    pose proof (binary64_units_sign k p ltac:(lia) Hp) as Hsign.
    pose proof (scale_of_pos p) as Hs.
    revert H Hsign. generalize (binary64 (of_units k p)). intros [fn fd] H Hsign.
    unfold Qmult, inject_Z. cbn [Qnum Qden] in *. rewrite Pos.mul_1_r.
    change numeric_12_limit with 1000000000000.
    change (2 ^ 53) with 9007199254740992 in H.
    apply Z.div_le_lower_bound; [lia|].
    rewrite Z.abs_eq by nia. nia.
Qed.

(** The test [balance >= $2] of a debit, for a balance of less than
    [2^52] units: it holds when the balance is above the rounded amount,
    and fails when it is below. *)
Lemma numeric_ge_double (b k : Z) (p : nat) :
  0 <= b < 2 ^ 52 -> 0 <= k -> small_scale p ->
  (k < b -> numeric_ge p (Units b) (double (of_units k p)) = true) /\
  (b < k -> numeric_ge p (Units b) (double (of_units k p)) = false).
Proof.
  intros Hb Hk Hp. change (2 ^ 52) with 4503599627370496 in Hb.
  pose proof (scale_of_pos p) as Hs.
  destruct (of_units_parts b p) as [En Ed].
  split; intros Hkb.
  - rewrite double_units by (split; [lia|]; assert (2 ^ 52 <= 2 ^ 1000)
      by (apply Z.pow_le_mono_r; lia); change (2 ^ 52) with 4503599627370496 in *; lia) || exact Hp.
    unfold numeric_ge, Qle_bool. rewrite En, Ed. apply Z.leb_le.
    destruct (Z.eq_dec k 0) as [->|Hne]; [rewrite binary64_units_0; simpl; lia|].
    pose proof (binary64_units k p ltac:(lia) Hp) as H. cbv zeta in H.
    revert H. generalize (binary64 (of_units k p)). intros [fn fd] H. cbn [Qnum Qden] in *.
    change (2 ^ 53) with 9007199254740992 in H. nia.
  - unfold double. cbv zeta.
    destruct (Qle_bool (inject_Z (2 ^ 1024)) _); [reflexivity|].
    pose proof (binary64_units_sign k p Hk Hp) as Hsign.
    replace (Qle_bool (binary64 (of_units k p)) (inject_Z (- 2 ^ 1024))) with false.
    + unfold numeric_ge, Qle_bool. rewrite En, Ed. apply Z.leb_gt.
      pose proof (binary64_units k p ltac:(lia) Hp) as H. cbv zeta in H.
      revert H. generalize (binary64 (of_units k p)). intros [fn fd] H. cbn [Qnum Qden] in *.
      change (2 ^ 53) with 9007199254740992 in H. nia.
    + symmetry. revert Hsign. generalize (binary64 (of_units k p)). intros [fn fd] Hsign.
      unfold Qle_bool, inject_Z. cbn [Qnum Qden] in *. apply Z.leb_gt.
      assert (0 < 2 ^ 1024) by (apply pow2_pos; lia). nia.
Qed.

(** What a debit that passes the test stores. *)
Lemma numeric_sub_double (b k : Z) (p : nat) :
  0 <= k <= b -> b < numeric_12_limit -> small_scale p ->
  numeric_sub p (Units b) (double (of_units k p)) = inr (Units (b - k)).
Proof.
  intros Hk Hb Hp. change numeric_12_limit with 1000000000000 in Hb.
  pose proof (scale_of_pos p) as Hs.
  rewrite double_units by (split; [lia|]; assert (2 ^ 52 <= 2 ^ 1000)
      by (apply Z.pow_le_mono_r; lia); change (2 ^ 52) with 4503599627370496 in *; lia) || exact Hp.
  unfold numeric_sub, numeric_in.
  assert (E : pg_round (of_units b p - binary64 (of_units k p)) p = b - k).
  { unfold pg_round. apply round_half_away_nearest.
    destruct (of_units_parts b p) as [En Ed]. revert En Ed.
    generalize (of_units b p). intros [bn bd] En Ed. cbn [Qnum Qden] in *. subst bn.
    destruct (Z.eq_dec k 0) as [->|Hne].
    - rewrite binary64_units_0. unfold Qminus, Qplus, Qopp, Qmult, inject_Z.
      cbn [Qnum Qden]. rewrite ?Pos.mul_1_r, ?Pos2Z.inj_mul, ?Ed. nia.
    - pose proof (binary64_units k p ltac:(lia) Hp) as H. cbv zeta in H.
      revert H. generalize (binary64 (of_units k p)). intros [fn fd] H.
      unfold Qminus, Qplus, Qopp, Qmult, inject_Z. cbn [Qnum Qden] in *.
      rewrite !Pos.mul_1_r, !Pos2Z.inj_mul, Ed.
      change (2 ^ 53) with 9007199254740992 in H.
      replace ((b * Z.pos fd + - fn * scale_of p) * scale_of p
               - (b - k) * (scale_of p * Z.pos fd))
        with (scale_of p * (k * Z.pos fd - fn * scale_of p)) by ring.
      rewrite Z.abs_mul, (Z.abs_eq (scale_of p)) by lia.
      assert (Hkf : k * Z.pos fd < 4503599627370496 * Z.pos fd) by nia.
      assert (2 * Z.abs (k * Z.pos fd - fn * scale_of p) < Z.pos fd) by lia.
      nia. }
  rewrite E. unfold fits_numeric_12. change numeric_12_limit with 1000000000000.
  replace (Z.abs (b - k) <? 1000000000000) with true by (symmetry; apply Z.ltb_lt; lia).
  reflexivity.
Qed.

(** ** The storage boundary *)

Lemma row_valid_units (row : user_balances_row) :
  row_valid row ->
  exists r d, col_balance_rub row = Units r /\ col_balance_usdt row = Units d /\
              0 <= r < numeric_12_limit /\ 0 <= d < numeric_12_limit.
Proof.
  intros (Hv & Hr & Hd). unfold validate_balance_row in Hv.
  destruct (col_balance_rub row) as [|r]; [discriminate|].
  destruct (col_balance_usdt row) as [|d]; [discriminate|].
  exists r, d. unfold fits_column, check_nonneg, fits_numeric_12 in Hv.
  destruct (Z.abs r <? numeric_12_limit) eqn:E1; simpl in Hv; [|discriminate].
  destruct (Z.abs d <? numeric_12_limit) eqn:E2; simpl in Hv; [|discriminate].
  destruct (0 <=? r) eqn:E3; simpl in Hv; [|discriminate].
  destruct (0 <=? d) eqn:E4; simpl in Hv; [|discriminate].
  apply Z.ltb_lt in E1, E2. apply Z.leb_le in E3, E4. repeat split; lia.
Qed.

Lemma row_valid_intro (r d now_ : Z) :
  0 <= r < numeric_12_limit -> 0 <= d < numeric_12_limit ->
  row_valid (BalanceRow (Units r) (Units d) now_).
Proof.
  intros Hr Hd. unfold row_valid, validate_balance_row, fits_column, check_nonneg,
    fits_numeric_12. cbn [col_balance_rub col_balance_usdt finite].
  rewrite !Z.abs_eq by lia.
  replace (r <? numeric_12_limit) with true by (symmetry; apply Z.ltb_lt; lia).
  replace (d <? numeric_12_limit) with true by (symmetry; apply Z.ltb_lt; lia).
  replace (0 <=? r) with true by (symmetry; apply Z.leb_le; lia).
  replace (0 <=? d) with true by (symmetry; apply Z.leb_le; lia).
  repeat split.
Qed.

Lemma row_valid_cell (c : currency) (row : user_balances_row) :
  row_valid row ->
  col_balance c row = Units (units_of (col_balance c row)) /\
  0 <= units_of (col_balance c row) < numeric_12_limit.
Proof.
  intros H. destruct (row_valid_units row H) as (r & d & Hr & Hd & Br & Bd).
  destruct c; cbn [col_balance]; rewrite ?Hr, ?Hd; cbn [units_of]; split; auto.
Qed.

Lemma row_valid_set (c : currency) (u now_ : Z) (row : user_balances_row) :
  row_valid row -> 0 <= u < numeric_12_limit ->
  row_valid (set_col_balance c (Units u) now_ row).
Proof.
  intros H Hu. destruct (row_valid_units row H) as (r & d & Hr & Hd & Br & Bd).
  destruct c; cbn [set_col_balance]; rewrite ?Hr, ?Hd; apply row_valid_intro; assumption.
Qed.

(** What the constraints guarantee of a row: each balance is NaN, or a
    number that is not negative. *)
Lemma validate_balance_row_cells (row : user_balances_row) :
  validate_balance_row row = None ->
  forall c, col_balance c row = NNaN \/
            exists u, col_balance c row = Units u /\ 0 <= u < numeric_12_limit.
Proof.
  unfold validate_balance_row. intros Hv c.
  destruct (fits_column (col_balance_rub row)) eqn:F1; simpl in Hv; [|discriminate].
  destruct (fits_column (col_balance_usdt row)) eqn:F2; simpl in Hv; [|discriminate].
  destruct (check_nonneg (col_balance_rub row)) eqn:C1; simpl in Hv; [|discriminate].
  destruct (check_nonneg (col_balance_usdt row)) eqn:C2; simpl in Hv; [|discriminate].
  assert (H : forall v, fits_column v = true -> check_nonneg v = true ->
            v = NNaN \/ exists u, v = Units u /\ 0 <= u < numeric_12_limit).
  { intros [|u] Hf Hc; [left; reflexivity|right]. exists u. split; [reflexivity|].
    simpl in Hf, Hc. unfold fits_numeric_12 in Hf. apply Z.ltb_lt in Hf. apply Z.leb_le in Hc.
    lia. }
  destruct c; cbn [col_balance]; apply H; assumption.
Qed.

(** A statement writes a row only after [validate_balance_row] accepted it. *)
Lemma sql_upsert_add_written c now_ u a t t' :
  sql_upsert_add c now_ u a t = inr t' ->
  exists row, validate_balance_row row = None /\ t' = <[u := row]> t.
Proof.
  unfold sql_upsert_add. intros H.
  destruct (numeric_in (precision c) a) as [e|v]; [discriminate|].
  destruct (validate_balance_row (set_col_balance c v now_ _)) eqn:Hv; [discriminate|].
  destruct (t !! u) as [old|].
  - destruct (validate_balance_row (set_col_balance c _ now_ old)) eqn:Hv'; [discriminate|].
    inversion H; subst. eauto.
  - inversion H; subst. eauto.
Qed.

Lemma sql_update_deduct_written c now_ u a t r t' :
  sql_update_deduct c now_ u a t = inr (r, t') ->
  t' = t \/ exists row, validate_balance_row row = None /\ t' = <[u := row]> t.
Proof.
  unfold sql_update_deduct. intros H.
  destruct (t !! u) as [old|]; [|inversion H; auto].
  destruct (numeric_ge _ _ _); [|inversion H; auto].
  destruct (numeric_sub _ _ _) as [e|v]; [discriminate|].
  destruct (validate_balance_row _) eqn:Hv; [discriminate|].
  inversion H; subst. eauto.
Qed.

Lemma set_user_balances_same (s : state) : set_user_balances (user_balances s) s = s.
Proof. destruct s; reflexivity. Qed.

Lemma set_referrals_same (s : state) : set_referrals (referrals s) s = s.
Proof. destruct s; reflexivity. Qed.

Lemma positive_not_le_0 (amount : Q) : (0 < amount)%Q -> Qle_bool amount 0 = false.
Proof.
  intros Hpos. destruct (Qle_bool amount 0) eqn:E; [|reflexivity].
  apply Qle_bool_iff in E. exfalso. eapply Qlt_not_le; eassumption.
Qed.

(** A credit of a finite positive amount, on a table whose row for the
    user holds numbers: the rounded amount is added when the sum fits. *)
Lemma sql_upsert_add_round c now_ u (q : Q) (t : gmap string user_balances_row) :
  Qle_bool q 0 = false ->
  (forall row, t !! u = Some row -> row_valid row) ->
  let k := py_round q (precision c) in
  sql_upsert_add c now_ u (round (Fin q) (precision c)) t =
    if stored_balance c (t !! u) + k <? numeric_12_limit
    then inr (<[u := credited_row c k now_ (t !! u)]> t)
    else inl NumericFieldOverflow.
Proof.
  intros Hq Hrow k. pose proof (py_round_nonneg q (precision c) Hq) as Hk. fold k in Hk.
  unfold sql_upsert_add, round. fold k.
  rewrite numeric_in_double by (exact Hk || apply small_scale_precision).
  assert (Hst : 0 <= stored_balance c (t !! u) < numeric_12_limit).
  { unfold stored_balance. destruct (t !! u) as [row|]; [|unfold numeric_12_limit; lia].
    apply (row_valid_cell c row), Hrow. reflexivity. }
  destruct (k <? numeric_12_limit) eqn:Ek.
  - apply Z.ltb_lt in Ek.
    assert (Hex : row_valid (set_col_balance c (Units k) now_
                               (BalanceRow (Units 0) (Units 0) now_))).
    { apply row_valid_set; [apply row_valid_intro; unfold numeric_12_limit; lia|lia]. }
    destruct Hex as [Hex _]. rewrite Hex.
    destruct (t !! u) as [row|] eqn:El; cbn [stored_balance credited_row] in *.
    + destruct (row_valid_cell c row (Hrow row eq_refl)) as [Ec Hb].
      pose proof (Hrow row eq_refl) as Hvalid.
      revert Ec Hb Hst. generalize (units_of (col_balance c row)). intros b Ec Hb Hst.
      rewrite Ec. cbn [numeric_add].
      destruct (b + k <? numeric_12_limit) eqn:Es.
      * apply Z.ltb_lt in Es.
        assert (Hnew : row_valid (set_col_balance c (Units (b + k)) now_ row))
          by (apply row_valid_set; [exact Hvalid|lia]).
        destruct Hnew as [-> _]. reflexivity.
      * apply Z.ltb_ge in Es.
        assert (Hbad : validate_balance_row (set_col_balance c (Units (b + k)) now_ row)
                = Some NumericFieldOverflow).
        { destruct (row_valid_units row Hvalid) as (r & d & Hr & Hd & Br & Bd).
          unfold validate_balance_row.
          replace (fits_column _ && fits_column _) with false; [reflexivity|].
          symmetry. apply andb_false_iff.
          destruct c; cbn [set_col_balance col_balance_rub col_balance_usdt col_balance] in *;
            [left|right]; unfold fits_column, fits_numeric_12; apply Z.ltb_ge; lia. }
        rewrite Hbad. reflexivity.
    + replace (0 + k <? numeric_12_limit) with true by (symmetry; apply Z.ltb_lt; lia).
      reflexivity.
  - apply Z.ltb_ge in Ek.
    replace (stored_balance c (t !! u) + k <? numeric_12_limit) with false
      by (symmetry; apply Z.ltb_ge; lia).
    reflexivity.
Qed.

(** A debit of a finite positive amount from a row that holds numbers:
    the rounded amount is taken when the test [balance >= $2] holds, and
    the test holds above the rounded amount and fails below it. *)
Lemma sql_update_deduct_round c now_ u (q : Q) (t : gmap string user_balances_row)
    (row : user_balances_row) :
  Qle_bool q 0 = false -> t !! u = Some row -> row_valid row ->
  let k := py_round q (precision c) in
  let b := units_of (col_balance c row) in
  let test := numeric_ge (precision c) (Units b) (round (Fin q) (precision c)) in
  sql_update_deduct c now_ u (round (Fin q) (precision c)) t =
    (if test
     then inr (Some (debited_row c k now_ row), <[u := debited_row c k now_ row]> t)
     else inr (None, t)) /\
  (k < b -> test = true) /\ (b < k -> test = false) /\ (test = true -> k <= b).
Proof.
  intros Hq Hu Hrow k b test.
  pose proof (py_round_nonneg q (precision c) Hq) as Hk. fold k in Hk.
  destruct (row_valid_cell c row Hrow) as [Ec Hb]. fold b in Ec, Hb.
  assert (Hb52 : 0 <= b < 2 ^ 52)
    by (change (2 ^ 52) with 4503599627370496; unfold numeric_12_limit in Hb; lia).
  destruct (numeric_ge_double b k (precision c) Hb52 Hk (small_scale_precision c))
    as [Hlt Hgt].
  assert (Hle : test = true -> k <= b).
  { intros Ht. destruct (Z_lt_le_dec b k) as [Hbk|]; [|assumption].
    unfold test, round in Ht. fold k in Ht. rewrite (Hgt Hbk) in Ht. discriminate. }
  split; [|split; [exact Hlt|split; [exact Hgt|exact Hle]]].
  unfold sql_update_deduct. rewrite Hu, Ec. fold test.
  destruct test eqn:Et; [|reflexivity].
  specialize (Hle eq_refl). unfold round. fold k.
  rewrite numeric_sub_double by (lia || apply small_scale_precision).
  fold (debited_row c k now_ row). unfold debited_row at 1. fold b.
  assert (Hnew : row_valid (set_col_balance c (Units (b - k)) now_ row))
    by (apply row_valid_set; [exact Hrow|lia]).
  destruct Hnew as [Hnew _]. rewrite Hnew. reflexivity.
Qed.

(** ** Credit *)

Lemma balance_add_round (c : currency) (u : string) (q : Q) (s : state) :
  _db_enabled s = true -> (0 < q)%Q ->
  (forall row, user_balances s !! u = Some row -> row_valid row) ->
  let k := py_round q (precision c) in
  balance_add c u (Fin q) s =
    if stored_balance c (user_balances s !! u) + k <? numeric_12_limit
    then (Return (VBool true),
          set_user_balances
            (<[u := credited_row c k (now s) (user_balances s !! u)]> (user_balances s)) s)
    else (Raise NumericFieldOverflow, s).
Proof.
  intros Hen Hpos Hrow k. pose proof (positive_not_le_0 q Hpos) as Hle.
  pose proof (sql_upsert_add_round c (now s) u q (user_balances s) Hle Hrow) as H.
  cbv zeta in H. fold k in H.
  destruct c; cbn [balance_add]; unfold balance_add_rub, balance_add_usdt;
    cbn [float_le_0]; rewrite Hen, Hle; cbn [negb orb]; cbn [precision] in H;
    rewrite H; destruct (_ <? _); reflexivity.
Qed.

(** C4, with what the code returns: with the store enabled and
    [amount > 0], a credit adds the amount, rounded to the precision of
    the currency, to that currency of the row, inserts the row with the
    other currency at 0 when there is none, and returns [True], when the
    result fits the column; when it does not, and when the amount is
    infinite, the credit raises the overflow of the column and stores
    nothing. *)
Theorem credit_adds_rounded_amount
    (c : currency) (user_id : string) (amount : Q) (s : state) :
  _db_enabled s = true -> (0 < amount)%Q -> balances_valid s ->
  let a := py_round amount (precision c) in
  let old := user_balances s !! user_id in
  (stored_balance c old + a < numeric_12_limit ->
   balance_add c user_id (Fin amount) s =
     (Return (VBool true),
      set_user_balances (<[user_id := credited_row c a (now s) old]> (user_balances s)) s)) /\
  (numeric_12_limit <= stored_balance c old + a ->
   balance_add c user_id (Fin amount) s = (Raise NumericFieldOverflow, s)) /\
  balance_add c user_id (Inf false) s = (Raise NumericFieldOverflow, s).
Proof.
  intros Hen Hpos Hvalid a old.
  rewrite (balance_add_round c user_id amount s Hen Hpos (Hvalid user_id)).
  fold a old. split; [|split]; [intros H|intros H|].
  - replace (stored_balance c old + a <? numeric_12_limit) with true
      by (symmetry; apply Z.ltb_lt; exact H).
    reflexivity.
  - replace (stored_balance c old + a <? numeric_12_limit) with false
      by (symmetry; apply Z.ltb_ge; exact H).
    reflexivity.
  - destruct c; cbn [balance_add]; unfold balance_add_rub, balance_add_usdt;
      rewrite Hen; reflexivity.
Qed.

Lemma balances_valid_st0 : balances_valid st0.
Proof. intros u row. simpl. rewrite lookup_empty. discriminate. Qed.

Lemma balances_valid_st_rub_60 : balances_valid st_rub_60.
Proof.
  intros u row. unfold st_rub_60. simpl. rewrite lookup_singleton.
  case_decide; [|discriminate]. intros [= <-]. repeat split.
Qed.


Lemma credit_adds_rounded_amount_witness :
  balance_add RUB "u" (Fin 50) st0 =
    (Return (VBool true),
     set_user_balances (<["u"%string := BalanceRow (Units 5000) (Units 0) 0]>
                          (user_balances st0)) st0) /\
  balance_add RUB "u" (Fin (inject_Z (10 ^ 10))) st_rub_60
    = (Raise NumericFieldOverflow, st_rub_60) /\
  balance_add RUB "u" (Inf false) st0 = (Raise NumericFieldOverflow, st0).
Proof.
  destruct (credit_adds_rounded_amount RUB "u" 50 st0 eq_refl eq_refl balances_valid_st0)
    as (H1 & _ & H3).
  destruct (credit_adds_rounded_amount RUB "u" (inject_Z (10 ^ 10)) st_rub_60 eq_refl eq_refl
              balances_valid_st_rub_60) as (_ & H2 & _).
  split; [exact (H1 eq_refl)|]. split; [|exact H3].
  apply H2. vm_compute. discriminate.
Defined.

(** C4 as stated fails: the credit of 50.00 RUB to a user without a row
    stores 50.00 and 0 but returns [True], not the balance; and a credit
    that does not fit [NUMERIC(12,2)] raises and stores nothing. *)
Lemma credit_returns_true_counterexample :
  fst (balance_add_rub "u" (Fin 50) st0)
    <> Return (VBalance (balance_of_row (BalanceRow (Units 5000) (Units 0) 0))) /\
  fst (balance_get "u" (snd (balance_add_rub "u" (Fin 50) st0)))
    = Return (VBalance (balance_of_row (BalanceRow (Units 5000) (Units 0) 0))) /\
  balance_add_rub "u" (Fin (inject_Z (10 ^ 10))) st0 = (Raise NumericFieldOverflow, st0).
Proof.
  split; [|split].
  - vm_compute. discriminate.
  - vm_compute. reflexivity.
  - vm_compute. reflexivity.
Qed.

(** ** Debit *)

Lemma balance_deduct_round (c : currency) (u : string) (q : Q) (s : state)
    (row : user_balances_row) :
  _db_enabled s = true -> (0 < q)%Q -> user_balances s !! u = Some row -> row_valid row ->
  let k := py_round q (precision c) in
  let b := units_of (col_balance c row) in
  let test := numeric_ge (precision c) (Units b) (round (Fin q) (precision c)) in
  balance_deduct c u (Fin q) s =
    (if test
     then (Return (VBalance (balance_of_row (debited_row c k (now s) row))),
           set_user_balances (<[u := debited_row c k (now s) row]> (user_balances s)) s)
     else (Return VNone, s)) /\
  (k < b -> test = true) /\ (b < k -> test = false) /\ (test = true -> k <= b).
Proof.
  intros Hen Hpos Hu Hrow k b test. pose proof (positive_not_le_0 q Hpos) as Hle.
  destruct (sql_update_deduct_round c (now s) u q (user_balances s) row Hle Hu Hrow)
    as (H & H1 & H2 & H3).
  fold k b test in H, H1, H2, H3. split; [|auto].
  destruct c; cbn [balance_deduct]; unfold balance_deduct_rub, balance_deduct_usdt;
    cbn [float_le_0]; rewrite Hen, Hle; cbn [negb orb]; cbn [precision] in H;
    rewrite H; destruct test; cbv zeta; rewrite ?set_user_balances_same; reflexivity.
Qed.


(** The test [balance >= $2] when the balance is the rounded amount: it
    holds when the float of the amount is not above the decimal. *)
Lemma numeric_ge_same (k : Z) (p : nat) :
  0 <= k < 2 ^ 1000 -> small_scale p ->
  numeric_ge p (Units k) (double (of_units k p))
    = Qle_bool (binary64 (of_units k p)) (of_units k p).
Proof. intros Hk Hp. rewrite (double_units k p Hk Hp). reflexivity. Qed.




(** ** Amounts that are not positive *)

(** C7, for the operations that check the amount: with [amount <= 0], a
    finite amount that is not positive or minus infinity,
    [balance_add_rub] and [balance_add_usdt] return [False],
    [balance_deduct_rub] and [balance_deduct_usdt] return [None], and the
    state is the one before the call: no statement is run. *)
Theorem nonpositive_amount_rejected (user_id : string) (amount : number) (s : state) :
  float_le_0 amount = true ->
  balance_add_rub user_id amount s = (Return (VBool false), s) /\
  balance_add_usdt user_id amount s = (Return (VBool false), s) /\
  balance_deduct_rub user_id amount s = (Return VNone, s) /\
  balance_deduct_usdt user_id amount s = (Return VNone, s).
Proof.
  intros Hle.
  unfold balance_add_rub, balance_add_usdt, balance_deduct_rub, balance_deduct_usdt.
  rewrite Hle, orb_true_r. repeat split.
Qed.

Lemma nonpositive_amount_rejected_witness :
  balance_add_rub "u" (Fin (-5 # 1)) st_rub_60 = (Return (VBool false), st_rub_60) /\
  balance_add_usdt "u" (Fin (-5 # 1)) st_rub_60 = (Return (VBool false), st_rub_60) /\
  balance_deduct_rub "u" (Fin (-5 # 1)) st_rub_60 = (Return VNone, st_rub_60) /\
  balance_deduct_usdt "u" (Fin (-5 # 1)) st_rub_60 = (Return VNone, st_rub_60).
Proof.
  exact (nonpositive_amount_rejected "u" (Fin (-5 # 1)) st_rub_60 eq_refl).
Defined.

(** ** The store disabled *)

(** C8, with what the code returns: while [_db_enabled] is false,
    [balance_get] returns the zero balance, [ref_load_all] the empty
    mapping and [ref_get_or_create] [None]; [balance_add_rub] and
    [balance_add_usdt] return [False], the debits [None], and [ref_save],
    [ref_add_earned] and [ref_set_earned] return [None] as they always do;
    none of them changes the state. *)
Theorem disabled_store_defaults
    (user_id : string) (amount : number) (earned delta : Q) (data : ref) (s : state) :
  _db_enabled s = false ->
  balance_get user_id s = (Return (VBalance zero_balance), s) /\
  ref_load_all s = (Return (VRefs ∅), s) /\
  ref_get_or_create user_id s = (Return VNone, s) /\
  balance_add_rub user_id amount s = (Return (VBool false), s) /\
  balance_add_usdt user_id amount s = (Return (VBool false), s) /\
  balance_deduct_rub user_id amount s = (Return VNone, s) /\
  balance_deduct_usdt user_id amount s = (Return VNone, s) /\
  ref_save user_id data s = (Return VNone, s) /\
  ref_add_earned user_id earned delta s = (Return VNone, s) /\
  ref_set_earned user_id earned s = (Return VNone, s).
Proof.
  intros Hoff.
  unfold balance_get, ref_load_all, ref_get_or_create, balance_add_rub, balance_add_usdt,
    balance_deduct_rub, balance_deduct_usdt, ref_save, ref_add_earned, ref_set_earned.
  rewrite Hoff. simpl. repeat split.
Qed.

Lemma disabled_store_defaults_witness :
  balance_get "u" st_off = (Return (VBalance zero_balance), st_off) /\
  ref_load_all st_off = (Return (VRefs ∅), st_off) /\
  ref_get_or_create "u" st_off = (Return VNone, st_off) /\
  balance_add_rub "u" (Fin 5) st_off = (Return (VBool false), st_off) /\
  balance_add_usdt "u" (Fin 5) st_off = (Return (VBool false), st_off) /\
  balance_deduct_rub "u" (Fin 5) st_off = (Return VNone, st_off) /\
  balance_deduct_usdt "u" (Fin 5) st_off = (Return VNone, st_off) /\
  ref_save "u" default_ref st_off = (Return VNone, st_off) /\
  ref_add_earned "u" 5 1 st_off = (Return VNone, st_off) /\
  ref_set_earned "u" 5 st_off = (Return VNone, st_off).
Proof. exact (disabled_store_defaults "u" (Fin 5) 5 1 default_ref st_off eq_refl). Defined.

(** C8 as stated fails for [ref_get_or_create]: with the store disabled it
    returns [None], not a zero-valued record. *)
Lemma disabled_get_or_create_counterexample :
  fst (ref_get_or_create "u" st_off) = Return VNone /\
  fst (ref_get_or_create "u" st_off) <> Return (VRef default_ref).
Proof. split; [reflexivity|discriminate]. Qed.

(** C7 as stated fails for [ref_add_earned], which checks no amount: a
    delta of -5.00 is subtracted from the stored volume and earnings. *)
Lemma accrual_unchecked_counterexample :
  (-5 # 1 <= 0)%Q /\
  snd (ref_add_earned "u" (-5 # 1) (-5 # 1) st_ref) =
    set_referrals {[ "u"%string := accrued_row 500 (-400) 5 row_u ]} st_ref /\
  snd (ref_add_earned "u" (-5 # 1) (-5 # 1) st_ref) <> st_ref.
Proof.
  split; [discriminate|]. split.
  - vm_compute. reflexivity.
  - vm_compute. discriminate.
Qed.

(** ** What the two constraints keep *)

Lemma checked_insert (s : state) u row :
  balances_checked s -> validate_balance_row row = None ->
  balances_checked (set_user_balances (<[u := row]> (user_balances s)) s).
Proof.
  intros Hs Hrow u' row'. simpl. rewrite lookup_insert.
  case_decide; [|apply Hs]. intros [= <-]. exact Hrow.
Qed.

Lemma balances_valid_insert (s : state) u row :
  balances_valid s -> row_valid row ->
  balances_valid (set_user_balances (<[u := row]> (user_balances s)) s).
Proof.
  intros Hs Hrow u' row'. simpl. rewrite lookup_insert.
  case_decide; [|apply Hs]. intros [= <-]. exact Hrow.
Qed.

Lemma balance_add_keeps_checked (c : currency) (u : string) (x : number) (s : state) :
  balances_checked s -> balances_checked (snd (balance_add c u x s)).
Proof.
  intros Hs.
  destruct c; cbn [balance_add]; unfold balance_add_rub, balance_add_usdt;
    (destruct (_ || _); [exact Hs|]);
    (destruct (sql_upsert_add _ _ _ _ _) as [e|t'] eqn:E; [exact Hs|]);
    apply sql_upsert_add_written in E as (row & Hrow & ->);
    apply checked_insert; assumption.
Qed.

Lemma balance_deduct_keeps_checked (c : currency) (u : string) (x : number) (s : state) :
  balances_checked s -> balances_checked (snd (balance_deduct c u x s)).
Proof.
  intros Hs.
  destruct c; cbn [balance_deduct]; unfold balance_deduct_rub, balance_deduct_usdt;
    (destruct (_ || _); [exact Hs|]);
    (destruct (sql_update_deduct _ _ _ _ _) as [e|[[row|] t']] eqn:E; [exact Hs| |]);
    apply sql_update_deduct_written in E as [->|(row' & Hrow & ->)]; cbn [snd];
    rewrite ?set_user_balances_same; try exact Hs; apply checked_insert; assumption.
Qed.

Lemma credited_row_valid (c : currency) (k now_ : Z) (old : option user_balances_row) :
  (forall row, old = Some row -> row_valid row) ->
  0 <= k -> stored_balance c old + k < numeric_12_limit ->
  row_valid (credited_row c k now_ old).
Proof.
  intros Hold Hk Hfit. destruct old as [row|]; cbn [credited_row stored_balance] in *.
  - pose proof (Hold row eq_refl) as Hrow.
    destruct (row_valid_cell c row Hrow) as [_ Hb].
    apply row_valid_set; [exact Hrow|lia].
  - apply row_valid_set; [apply row_valid_intro; unfold numeric_12_limit; lia|lia].
Qed.

Lemma balance_add_keeps_valid (c : currency) (u : string) (x : number) (s : state) :
  x <> NaN -> balances_valid s -> balances_valid (snd (balance_add c u x s)).
Proof.
  intros Hx Hs.
  assert (H : forall p, p = precision c ->
            balances_valid
              (snd (if negb (_db_enabled s) || float_le_0 x then (Return (VBool false), s)
                    else match sql_upsert_add c (now s) u (round x p) (user_balances s) with
                         | inl e => (Raise e, s)
                         | inr t => (Return (VBool true), set_user_balances t s)
                         end))).
  { intros p ->. destruct (negb (_db_enabled s)); [exact Hs|]. cbn [orb].
    destruct x as [|negative|q]; [congruence| |].
    - destruct negative; [exact Hs|]. cbn [float_le_0 round].
      unfold sql_upsert_add. cbn [numeric_in]. exact Hs.
    - cbn [float_le_0]. destruct (Qle_bool q 0) eqn:Hq; [exact Hs|].
      rewrite (sql_upsert_add_round c (now s) u q (user_balances s) Hq (Hs u)).
      destruct (_ <? _) eqn:Ef; [|exact Hs]. apply Z.ltb_lt in Ef. cbn [snd].
      apply balances_valid_insert; [exact Hs|].
      apply credited_row_valid; [apply Hs|apply py_round_nonneg, Hq|exact Ef]. }
  destruct c; cbn [balance_add]; unfold balance_add_rub, balance_add_usdt;
    apply (H _ eq_refl).
Qed.

Lemma sql_update_deduct_keeps_valid c now_ u (x : number) (s : state) :
  float_le_0 x = false -> balances_valid s ->
  match sql_update_deduct c now_ u (round x (precision c)) (user_balances s) with
  | inl _ => True
  | inr (_, t) => balances_valid (set_user_balances t s)
  end.
Proof.
  intros Hx Hs.
  destruct (user_balances s !! u) as [row|] eqn:Hu.
  - pose proof (Hs u row Hu) as Hrow. destruct (row_valid_cell c row Hrow) as [Ec Hb].
    destruct x as [|negative|q].
    + unfold sql_update_deduct. rewrite Hu, Ec. cbn [round numeric_ge].
      rewrite set_user_balances_same. exact Hs.
    + destruct negative; [discriminate|].
      unfold sql_update_deduct. rewrite Hu, Ec. cbn [round numeric_ge].
      rewrite set_user_balances_same. exact Hs.
    + cbn [float_le_0] in Hx.
      destruct (sql_update_deduct_round c now_ u q (user_balances s) row Hx Hu Hrow)
        as (H & _ & _ & Hle).
      rewrite H. destruct (numeric_ge _ _ _).
      * apply balances_valid_insert; [exact Hs|]. apply row_valid_set; [exact Hrow|].
        specialize (Hle eq_refl). pose proof (py_round_nonneg q (precision c) Hx). lia.
      * rewrite set_user_balances_same. exact Hs.
  - unfold sql_update_deduct. rewrite Hu, set_user_balances_same. exact Hs.
Qed.

Lemma balance_deduct_keeps_valid (c : currency) (u : string) (x : number) (s : state) :
  balances_valid s -> balances_valid (snd (balance_deduct c u x s)).
Proof.
  intros Hs.
  destruct c; cbn [balance_deduct]; unfold balance_deduct_rub, balance_deduct_usdt;
    (destruct (negb (_db_enabled s)); [exact Hs|]); cbn [orb];
    (destruct (float_le_0 x) eqn:Hx; [exact Hs|]).
  - pose proof (sql_update_deduct_keeps_valid RUB (now s) u x s Hx Hs) as H.
    cbn [precision] in H.
    destruct (sql_update_deduct _ _ _ _ _) as [e|[[row|] t]]; [exact Hs|exact H|exact H].
  - pose proof (sql_update_deduct_keeps_valid USDT (now s) u x s Hx Hs) as H.
    cbn [precision] in H.
    destruct (sql_update_deduct _ _ _ _ _) as [e|[[row|] t]]; [exact Hs|exact H|exact H].
Qed.

Lemma balances_valid_nonneg (s : state) : balances_valid s -> balances_nonneg s.
Proof.
  intros Hs u row Hu. destruct (row_valid_units row (Hs u row Hu)) as (r & d & Hr & Hd & Br & Bd).
  exists r, d. repeat split; (assumption || lia).
Qed.

Lemma run_op_checked (op : balance_op) (s : state) :
  balances_checked s -> balances_checked (run_op op s).
Proof.
  intros Hs. destruct op as [u a|u a|u a|u a|t]; cbn [run_op].
  - apply (balance_add_keeps_checked RUB), Hs.
  - apply (balance_add_keeps_checked USDT), Hs.
  - apply (balance_deduct_keeps_checked RUB), Hs.
  - apply (balance_deduct_keeps_checked USDT), Hs.
  - exact Hs.
Qed.

Lemma run_op_valid (op : balance_op) (s : state) :
  credits_nan op = false -> balances_valid s -> balances_valid (run_op op s).
Proof.
  intros Hop Hs. destruct op as [u a|u a|u a|u a|t]; cbn [run_op].
  - apply (balance_add_keeps_valid RUB); [destruct a; [discriminate|discriminate..]|exact Hs].
  - apply (balance_add_keeps_valid USDT); [destruct a; [discriminate|discriminate..]|exact Hs].
  - apply (balance_deduct_keeps_valid RUB), Hs.
  - apply (balance_deduct_keeps_valid USDT), Hs.
  - exact Hs.
Qed.

(** Once [balance_rub] is NaN, every debit that passes the check of the
    amount succeeds and leaves NaN. *)
Lemma balance_deduct_rub_nan (u : string) (x : number) (s : state) (usdt : numeric) (t : Z) :
  _db_enabled s = true -> float_le_0 x = false ->
  user_balances s !! u = Some (BalanceRow NNaN usdt t) ->
  validate_balance_row (BalanceRow NNaN usdt t) = None ->
  balance_deduct_rub u x s =
    (Return (VBalance (balance_of_row (BalanceRow NNaN usdt (now s)))),
     set_user_balances (<[u := BalanceRow NNaN usdt (now s)]> (user_balances s)) s).
Proof.
  intros Hen Hx Hu Hv. unfold balance_deduct_rub, sql_update_deduct.
  rewrite Hen, Hx, Hu. cbn [negb orb col_balance col_balance_rub numeric_ge numeric_sub
                            set_col_balance col_balance_usdt].
  assert (Hv' : validate_balance_row (BalanceRow NNaN usdt (now s)) = None) by exact Hv.
  rewrite Hv'. reflexivity.
Qed.

(** C1 fails by a missed case of the amount check: NaN is not [<= 0], so
    a credit of NaN is run; it returns [True] and stores NaN, which
    passes [CHECK (balance_rub >= 0)].  [balance_get] then returns nan,
    which is not [>= 0], and every debit of a positive amount, finite or
    not, succeeds and leaves NaN: a thousand million roubles, and
    [n / d] for all positive [n] and [d]. *)
Theorem nan_credit_is_stored :
  float_le_0 NaN = false /\
  balance_add_rub "u" NaN st0 = (Return (VBool true), st_nan) /\
  user_balances st_nan !! "u"%string = Some (BalanceRow NNaN (Units 0) 0) /\
  validate_balance_row (BalanceRow NNaN (Units 0) 0) = None /\
  fst (balance_get "u" st_nan) = Return (VBalance (Balance NaN (Fin 0))) /\
  fst (balance_deduct_rub "u" (Fin (inject_Z (10 ^ 9))) st_nan)
    = Return (VBalance (Balance NaN (Fin 0))) /\
  (forall n d : positive,
     fst (balance_deduct_rub "u" (Fin (Z.pos n # d)) st_nan)
       = Return (VBalance (Balance NaN (Fin 0))) /\
     user_balances (snd (balance_deduct_rub "u" (Fin (Z.pos n # d)) st_nan)) !! "u"%string
       = Some (BalanceRow NNaN (Units 0) 0)) /\
  fst (balance_deduct_rub "u" (Inf false) st_nan) = Return (VBalance (Balance NaN (Fin 0))).
Proof.
  assert (Hrow : user_balances st_nan !! "u"%string = Some (BalanceRow NNaN (Units 0) 0))
    by (vm_compute; reflexivity).
  assert (Hany : forall x, float_le_0 x = false ->
            balance_deduct_rub "u" x st_nan =
              (Return (VBalance (Balance NaN (Fin 0))),
               set_user_balances (<["u"%string := BalanceRow NNaN (Units 0) 0]>
                                    (user_balances st_nan)) st_nan)).
  { intros x Hx.
    apply (balance_deduct_rub_nan "u" x st_nan (Units 0) 0 eq_refl Hx Hrow eq_refl). }
  split; [reflexivity|]. split; [vm_compute; reflexivity|]. split; [exact Hrow|].
  split; [reflexivity|]. split; [vm_compute; reflexivity|].
  split; [rewrite Hany by reflexivity; reflexivity|]. split.
  - intros n d. rewrite Hany by reflexivity. cbn [fst snd user_balances set_user_balances].
    split; [reflexivity|apply lookup_insert_eq].
  - rewrite Hany by reflexivity. reflexivity.
Qed.

(** X20: whatever credits and debits are run, with whatever amounts, every
    row passes the column types and the two CHECK constraints; and when
    no row holds NaN at the start and no credit is given NaN, no row
    holds NaN afterwards and no [balance_rub] or [balance_usdt] is
    negative. *)
Theorem balances_never_negative (ops : list balance_op) (s : state) :
  (balances_checked s -> balances_checked (run_ops ops s)) /\
  (balances_valid s -> existsb credits_nan ops = false ->
   balances_valid (run_ops ops s) /\ balances_nonneg (run_ops ops s)).
Proof.
  split.
  - revert s. induction ops as [|op ops IH]; intros s Hs; simpl; [exact Hs|].
    apply IH, run_op_checked, Hs.
  - intros Hs Hops.
    enough (H : balances_valid (run_ops ops s)) by (split; [exact H|apply balances_valid_nonneg, H]).
    revert s Hs. induction ops as [|op ops IH]; intros s Hs; simpl; [exact Hs|].
    cbn [existsb] in Hops. apply orb_false_iff in Hops as [Hop Hrest].
    apply IH; [exact Hrest|]. apply run_op_valid; assumption.
Qed.

Lemma balances_never_negative_witness :
  let ops := [AddRub "u" (Fin 50); DeductRub "u" (Fin 20); DeductRub "u" NaN;
              DeductRub "u" (Fin 40); AddUsdt "u" (Inf false); AddUsdt "u" (Fin (1 # 2));
              ClockTick 7; DeductUsdt "u" (Fin (1 # 4))] in
  balances_checked (run_ops (AddRub "w" NaN :: ops) st0) /\
  balances_valid (run_ops ops st0) /\ balances_nonneg (run_ops ops st0).
Proof.
  intros ops. split.
  - apply (balances_never_negative (AddRub "w" NaN :: ops) st0).
    intros u row. simpl. rewrite lookup_empty. discriminate.
  - apply (balances_never_negative ops st0); [exact balances_valid_st0|reflexivity].
Defined.

(** ** Accrual *)

Lemma pg_round_hundredths (units delta : Z) (x : Q) :
  (x == of_units delta 2)%Q -> pg_round (of_units units 2 + x) 2 = units + delta.
Proof.
  intros Hx. rewrite <- (pg_round_exact units delta).
  unfold pg_round. rewrite !round_half_away_exact with (m := units + delta); try reflexivity.
  - unfold of_units, scale_of. change (10 ^ Z.of_nat 2) with 100.
    rewrite inject_Z_plus. field.
  - rewrite Hx. unfold of_units, scale_of. change (10 ^ Z.of_nat 2) with 100.
    rewrite inject_Z_plus. field.
Qed.

Lemma pg_round_whole (x : Q) (k : Z) : (x == of_units k 2)%Q -> pg_round x 2 = k.
Proof.
  intros Hx. unfold pg_round. apply round_half_away_exact. rewrite Hx.
  unfold of_units, scale_of. change (10 ^ Z.of_nat 2) with 100. field.
Qed.

Lemma numeric_12_2_in_ok (x : Q) :
  Z.abs (pg_round x 2) < numeric_12_limit -> numeric_12_2_in x = inr (pg_round x 2).
Proof.
  intros H. unfold numeric_12_2_in, fits_numeric_12.
  replace (_ <? _) with true by (symmetry; apply Z.ltb_lt; exact H). reflexivity.
Qed.

(** C5, with the scale of the columns: with the store enabled,
    [ref_add_earned] on a user without a referral row changes nothing and
    inserts nothing; on a row whose [volume_rub] and [earned_rub] are not
    NULL it stores, in one statement, each value plus its delta rounded to
    2 fractional digits, when the results fit [NUMERIC(12,2)]; the sums
    are exact when the deltas are whole hundredths. *)
Theorem accrual_adds_deltas
    (user_id : string) (volume_delta earned_delta : Q) (s : state) :
  _db_enabled s = true ->
  match referrals s !! user_id with
  | None => ref_add_earned user_id volume_delta earned_delta s = (Return VNone, s)
  | Some row =>
    forall v e, col_volume_rub row = Some v -> col_earned_rub row = Some e ->
    let v' := pg_round (of_units v 2 + volume_delta) 2 in
    let e' := pg_round (of_units e 2 + earned_delta) 2 in
    Z.abs v' < numeric_12_limit -> Z.abs e' < numeric_12_limit ->
    ref_add_earned user_id volume_delta earned_delta s =
      (Return VNone,
       set_referrals (<[user_id := accrued_row v' e' (now s) row]> (referrals s)) s) /\
    (forall kv ke, (volume_delta == of_units kv 2)%Q -> (earned_delta == of_units ke 2)%Q ->
                   v' = v + kv /\ e' = e + ke)
  end.
Proof.
  intros Hen. destruct (referrals s !! user_id) as [row|] eqn:Hrow.
  - intros v e Hv He v' e' Hfv Hfe. split.
    + unfold ref_add_earned, sql_update_accrual. rewrite Hen, Hrow, Hv, He. simpl.
      fold v' e'. rewrite !numeric_12_2_in_ok by assumption. reflexivity.
    + intros kv ke Hkv Hke. split; apply pg_round_hundredths; assumption.
  - unfold ref_add_earned, sql_update_accrual. rewrite Hen, Hrow. simpl.
    rewrite set_referrals_same. reflexivity.
Qed.

Lemma accrual_adds_deltas_witness :
  ref_add_earned "u" (250 # 1) (25 # 1) st_ref =
    (Return VNone, set_referrals (<["u"%string := accrued_row 26000 2600 5 row_u]> (referrals st_ref)) st_ref)
  /\ ref_add_earned "v" (250 # 1) (25 # 1) st_ref = (Return VNone, st_ref).
Proof.
  split.
  - exact (proj1 (accrual_adds_deltas "u" (250 # 1) (25 # 1) st_ref eq_refl
                    1000 100 eq_refl eq_refl eq_refl eq_refl)).
  - exact (accrual_adds_deltas "v" (250 # 1) (25 # 1) st_ref eq_refl).
Defined.

(** C5 as stated fails: a delta of 0.004 is not added, the stored volume
    and earnings stay what they were. *)
Lemma accrual_rounds_counterexample :
  (0 <= 4 # 1000)%Q /\
  snd (ref_add_earned "u" (4 # 1000) (4 # 1000) st_ref) =
    set_referrals {[ "u"%string := accrued_row 1000 100 5 row_u ]} st_ref /\
  ~ (of_units 1000 2 == of_units 1000 2 + (4 # 1000))%Q.
Proof.
  split; [discriminate|]. split.
  - vm_compute. reflexivity.
  - vm_compute. discriminate.
Qed.

(** ** Parent links *)

Lemma sql_upsert_referral_written now_ u p1 p2 p3 l1 l2 l3 e v un fn t t' :
  sql_upsert_referral now_ u p1 p2 p3 l1 l2 l3 e v un fn t = inr t' ->
  exists row, t' = <[u := row]> t /\ parents_of row = (p1, p2, p3).
Proof.
  unfold sql_upsert_referral. intros H.
  destruct (jsonb_in l1), (jsonb_in l2), (jsonb_in l3),
    (numeric_12_2_in e), (numeric_12_2_in v); try discriminate.
  inversion H; subst. eexists; split; reflexivity.
Qed.

Lemma sql_update_accrual_written now_ u dv de t t' :
  sql_update_accrual now_ u dv de t = inr t' ->
  t' = t \/ exists old row, t !! u = Some old /\ t' = <[u := row]> t
                            /\ parents_of row = parents_of old.
Proof.
  unfold sql_update_accrual. intros H.
  destruct (t !! u) as [old|] eqn:E; [|inversion H; auto].
  destruct (numeric_12_2_add (col_volume_rub old) dv); [discriminate|].
  destruct (numeric_12_2_add (col_earned_rub old) de); [discriminate|].
  inversion H; subst. right. eexists _, _. repeat split.
Qed.

Lemma sql_update_earned_written now_ u e t t' :
  sql_update_earned now_ u e t = inr t' ->
  t' = t \/ exists old row, t !! u = Some old /\ t' = <[u := row]> t
                            /\ parents_of row = parents_of old.
Proof.
  unfold sql_update_earned. intros H.
  destruct (t !! u) as [old|] eqn:E; [|inversion H; auto].
  destruct (numeric_12_2_in e); try discriminate.
  inversion H; subst. right. eexists _, _. repeat split.
Qed.

Lemma balance_add_referrals c u a s : referrals (snd (balance_add c u a s)) = referrals s.
Proof.
  destruct c; simpl; unfold balance_add_rub, balance_add_usdt;
    destruct (_ || _); try reflexivity;
    destruct (sql_upsert_add _ _ _ _ _); reflexivity.
Qed.

Lemma balance_deduct_referrals c u a s :
  referrals (snd (balance_deduct c u a s)) = referrals s.
Proof.
  destruct c; simpl; unfold balance_deduct_rub, balance_deduct_usdt;
    destruct (_ || _); try reflexivity;
    destruct (sql_update_deduct _ _ _ _ _) as [e|[[row|] t]]; reflexivity.
Qed.

Lemma kept_after_update (t : gmap string referrals_row) u u' old row row0 :
  t !! u = Some row0 -> t !! u' = Some old -> parents_of row = parents_of old ->
  exists row', <[u' := row]> t !! u = Some row' /\ parents_of row' = parents_of row0.
Proof.
  intros Hu Hu' Hp. rewrite lookup_insert. case_decide as Heq.
  - subst u'. rewrite Hu in Hu'. inversion Hu'; subst. eauto.
  - eauto.
Qed.

Lemma exec_keeps_parents (c : call) (s : state) (u : string) (row : referrals_row) :
  is_save_of u c = false -> referrals s !! u = Some row ->
  exists row', referrals (snd (exec c s)) !! u = Some row'
               /\ parents_of row' = parents_of row.
Proof.
  intros Hc Hrow. destruct c as [u'|u' data| |u' dv de|u' e|u'|c u' a|c u' a|t]; simpl.
  - unfold ref_get_or_create. destruct (negb _); [simpl; eauto|].
    destruct (referrals s !! u') as [row'|] eqn:Hu'; [simpl; eauto|].
    assert (Hne : u' <> u) by (intros ->; congruence).
    unfold sql_insert_referral_default. rewrite Hu'. simpl. rewrite lookup_insert_eq.
    simpl. rewrite lookup_insert_ne by exact Hne. eauto.
  - simpl in Hc. apply bool_decide_eq_false in Hc.
    unfold ref_save. destruct (negb _); [simpl; eauto|].
    destruct (sql_upsert_referral _ _ _ _ _ _ _ _ _ _ _ _ _) as [err|t'] eqn:E;
      [simpl; eauto|].
    apply sql_upsert_referral_written in E as (row' & -> & _). simpl.
    rewrite lookup_insert_ne by exact Hc. eauto.
  - unfold ref_load_all. destruct (negb _); simpl; eauto.
  - unfold ref_add_earned. destruct (negb _); [simpl; eauto|].
    destruct (sql_update_accrual _ _ _ _ _) as [err|t'] eqn:E; [simpl; eauto|].
    apply sql_update_accrual_written in E as [->|(old & new & Hold & -> & Hp)]; simpl.
    + eauto.
    + eapply kept_after_update; eassumption.
  - unfold ref_set_earned. destruct (negb _); [simpl; eauto|].
    destruct (sql_update_earned _ _ _ _) as [err|t'] eqn:E; [simpl; eauto|].
    apply sql_update_earned_written in E as [->|(old & new & Hold & -> & Hp)]; simpl.
    + eauto.
    + eapply kept_after_update; eassumption.
  - unfold balance_get. destruct (negb _); [simpl; eauto|].
    destruct (sql_select_balance _ _); simpl; eauto.
  - rewrite balance_add_referrals. eauto.
  - rewrite balance_deduct_referrals. eauto.
  - eauto.
Qed.

(** C6, as the code has it: [ref_save] replaces the parent links of the
    row by those of the data it is given; every other operation, and any
    sequence of them, leaves the parent links of an existing row as they
    are. *)
Theorem parent_links_change_only_by_save
    (calls : list call) (user_id : string) (data : ref) (s : state) (row : referrals_row) :
  referrals s !! user_id = Some row ->
  (forallb (fun c => negb (is_save_of user_id c)) calls = true ->
   exists row', referrals (exec_all calls s) !! user_id = Some row'
                /\ parents_of row' = parents_of row) /\
  (_db_enabled s = true -> fst (ref_save user_id data s) = Return VNone ->
   exists row', referrals (snd (ref_save user_id data s)) !! user_id = Some row'
                /\ parents_of row' = (parent1 data, parent2 data, parent3 data)).
Proof.
  intros Hrow. split.
  - revert s row Hrow. induction calls as [|c calls IH]; intros s row Hrow Hall; simpl.
    + eauto.
    + simpl in Hall. apply andb_true_iff in Hall as [Hc Hall].
      apply negb_true_iff in Hc.
      destruct (exec_keeps_parents c s user_id row Hc Hrow) as (row1 & Hrow1 & Hp1).
      destruct (IH _ _ Hrow1 Hall) as (row2 & Hrow2 & Hp2).
      exists row2. split; [exact Hrow2|congruence].
  - intros Hen. unfold ref_save. rewrite Hen. simpl.
    destruct (sql_upsert_referral _ _ _ _ _ _ _ _ _ _ _ _ _) as [err|t'] eqn:E;
      [discriminate|].
    intros _. apply sql_upsert_referral_written in E as (row' & -> & Hp). simpl.
    rewrite lookup_insert_eq. eauto.
Qed.

Lemma parent_links_change_only_by_save_witness :
  (exists row', referrals (exec_all [CRefAddEarned "u" 5 1; CRefGetOrCreate "u";
                                     CRefSave "w" data_b; CRefSetEarned "u" 0;
                                     CBalanceAdd RUB "u" (Fin 5); CTick 9] st_ref)
                  !! "u"%string = Some row'
                /\ parents_of row' = (Some "a"%string, None, None)) /\
  (exists row', referrals (snd (ref_save "u" data_b st_ref)) !! "u"%string = Some row'
                /\ parents_of row' = (Some "b"%string, None, None)).
Proof.
  pose proof (parent_links_change_only_by_save
                [CRefAddEarned "u" 5 1; CRefGetOrCreate "u"; CRefSave "w" data_b;
                 CRefSetEarned "u" 0; CBalanceAdd RUB "u" (Fin 5); CTick 9]
                "u" data_b st_ref row_u eq_refl) as [H1 H2].
  split; [exact (H1 eq_refl)|exact (H2 eq_refl eq_refl)].
Defined.

(** C6 as stated fails: a second [ref_save] for a user whose parent is
    "a" stores the parent "b" of the new data. *)
Lemma save_overwrites_parents_counterexample :
  col_parent1 <$> (referrals st_ref !! "u"%string) = Some (Some "a"%string) /\
  col_parent1 <$> (referrals (snd (ref_save "u" data_b st_ref)) !! "u"%string)
    = Some (Some "b"%string).
Proof. split; vm_compute; reflexivity. Qed.


(** ** Concurrent debits *)

Lemma debited_cons (t : task) (tasks : list task) :
  debited (t :: tasks) = debit_of t + debited tasks.
Proof. reflexivity. Qed.

Lemma debited_insert (tasks : list task) (i : nat) (t t' : task) :
  tasks !! i = Some t ->
  debited (<[i := t']> tasks) = debited tasks - debit_of t + debit_of t'.
Proof.
  revert i. induction tasks as [|t0 tasks IH]; intros i Hi; [discriminate|].
  destruct i as [|i]; simpl in Hi.
  - inversion Hi; subst. change (<[0%nat := t']> (t :: tasks)) with (t' :: tasks).
    rewrite !debited_cons. lia.
  - change (<[S i := t']> (t0 :: tasks)) with (t0 :: <[i := t']> tasks).
    rewrite !debited_cons, (IH i Hi). lia.
Qed.

Lemma rub_of_nonneg (s : state) (u : string) : balances_valid s -> 0 <= rub_of u s.
Proof.
  intros Hs. unfold rub_of. destruct (user_balances s !! u) as [row|] eqn:E; [|lia].
  apply (row_valid_cell RUB row (Hs u row E)).
Qed.

(** What the [UPDATE] of a debit does on a table without NaN: nothing,
    or it takes the rounded amount, which the balance covers. *)
Lemma sql_update_deduct_outcome c now_ u (x : number) (s : state) :
  float_le_0 x = false -> balances_valid s ->
  sql_update_deduct c now_ u (round x (precision c)) (user_balances s)
    = inr (None, user_balances s) \/
  exists row,
    user_balances s !! u = Some row /\
    0 <= rounded (precision c) x <= units_of (col_balance c row) /\
    sql_update_deduct c now_ u (round x (precision c)) (user_balances s)
      = inr (Some (debited_row c (rounded (precision c) x) now_ row),
             <[u := debited_row c (rounded (precision c) x) now_ row]> (user_balances s)).
Proof.
  intros Hx Hs.
  destruct (user_balances s !! u) as [row|] eqn:Hu.
  - pose proof (Hs u row Hu) as Hrow. destruct (row_valid_cell c row Hrow) as [Ec Hb].
    destruct x as [|negative|q].
    + left. unfold sql_update_deduct. rewrite Hu, Ec. reflexivity.
    + destruct negative; [discriminate|].
      left. unfold sql_update_deduct. rewrite Hu, Ec. reflexivity.
    + cbn [float_le_0] in Hx.
      destruct (sql_update_deduct_round c now_ u q (user_balances s) row Hx Hu Hrow)
        as (H & _ & _ & Hle).
      rewrite H. destruct (numeric_ge _ _ _); [right|left; reflexivity].
      exists row. cbn [rounded]. split; [reflexivity|]. split; [|reflexivity].
      pose proof (py_round_nonneg q (precision c) Hx). specialize (Hle eq_refl). lia.
  - left. unfold sql_update_deduct. rewrite Hu. reflexivity.
Qed.

Lemma debited_row_valid (c : currency) (k now_ : Z) (row : user_balances_row) :
  row_valid row -> 0 <= k <= units_of (col_balance c row) ->
  row_valid (debited_row c k now_ row).
Proof.
  intros Hrow Hk. destruct (row_valid_cell c row Hrow) as [_ Hb].
  apply row_valid_set; [exact Hrow|lia].
Qed.

Lemma rub_of_debited (s : state) (u : string) (k now_ : Z) (row : user_balances_row) :
  user_balances s !! u = Some row ->
  rub_of u (set_user_balances (<[u := debited_row RUB k now_ row]> (user_balances s)) s)
    = rub_of u s - k.
Proof.
  intros Hu. unfold rub_of. cbn [user_balances set_user_balances].
  rewrite lookup_insert_eq, Hu. reflexivity.
Qed.

(** One resumption keeps the books: what leaves the balance is what the
    call is recorded to have debited. *)
Lemma resume_keeps_books (u : string) (t : task) (s : state) :
  task_ok u t -> balances_valid s ->
  let (t', s') := resume t s in
  task_ok u t' /\ balances_valid s' /\
  rub_of u s' + debit_of t' = rub_of u s + debit_of t.
Proof.
  intros [Hu Hat] Hs. unfold resume.
  destruct t as [tu amount p]. cbn [task_user task_amount task_at] in *. subst tu.
  assert (Hsame : forall p', match p' with
                    | AtCall | AtSelect => True
                    | AtAcquire | AtUpdate => float_le_0 amount = false
                    | AtRelease (Return VNone) | AtRelease (Return (VBalance _)) => True
                    | Done (Return VNone) | Done (Return (VBalance _)) => True
                    | AtRelease _ | Done _ => False
                    end ->
                  succeeded (Task u amount p') = succeeded (Task u amount p) ->
                  task_ok u (Task u amount p') /\ balances_valid s /\
                  rub_of u s + debit_of (Task u amount p')
                    = rub_of u s + debit_of (Task u amount p)).
  { intros p' Hp' Hsucc. split; [split; [reflexivity|exact Hp']|]. split; [exact Hs|].
    unfold debit_of. rewrite Hsucc. reflexivity. }
  destruct p as [| | | |r|r].
  - destruct (negb (_db_enabled s) || float_le_0 amount) eqn:E.
    + apply Hsame; [exact I|reflexivity].
    + apply orb_false_iff in E as [_ E]. apply Hsame; [exact E|reflexivity].
  - apply Hsame; [exact Hat|reflexivity].
  - cbv zeta.
    destruct (sql_update_deduct_outcome RUB (now s) u amount s Hat Hs)
      as [E|(row & Hrow & Hk & E)]; cbn [precision] in E; rewrite E.
    + rewrite set_user_balances_same. apply Hsame; [exact I|reflexivity].
    + cbn [precision] in Hk. split; [split; [reflexivity|exact I]|]. split.
      * apply balances_valid_insert; [exact Hs|].
        apply debited_row_valid; [apply (Hs u row Hrow)|exact Hk].
      * rewrite (rub_of_debited s u _ _ row Hrow). unfold debit_of, succeeded.
        cbn [task_at task_amount]. lia.
  - apply Hsame; [exact I|reflexivity].
  - apply Hsame.
    + destruct r as [[| | | |]|]; cbn in Hat |- *; exact Hat.
    + unfold succeeded. cbn [task_at]. destruct r as [[| | | |]|]; reflexivity.
  - apply Hsame; [exact Hat|reflexivity].
Qed.

Lemma step_keeps_books (u : string) (e : event) (sys : list task * state) :
  Forall (task_ok u) (fst sys) -> balances_valid (snd sys) ->
  Forall (task_ok u) (fst (step e sys)) /\ balances_valid (snd (step e sys)) /\
  rub_of u (snd (step e sys)) + debited (fst (step e sys))
    = rub_of u (snd sys) + debited (fst sys).
Proof.
  intros Hok Hs. destruct sys as [tasks s]. simpl in *.
  destruct e as [i|t]; simpl.
  - destruct (tasks !! i) as [t|] eqn:Hi; simpl; [|auto].
    assert (Ht : task_ok u t) by (eapply Forall_lookup_1; eassumption).
    pose proof (resume_keeps_books u t s Ht Hs) as H.
    destruct (resume t s) as [t' s']. destruct H as (Hok' & Hs' & Hsum). simpl.
    split; [apply Forall_insert; assumption|]. split; [exact Hs'|].
    rewrite (debited_insert tasks i t t' Hi). lia.
  - auto.
Qed.

Lemma run_keeps_books (u : string) (events : list event) (sys : list task * state) :
  Forall (task_ok u) (fst sys) -> balances_valid (snd sys) ->
  Forall (task_ok u) (fst (run events sys)) /\ balances_valid (snd (run events sys)) /\
  rub_of u (snd (run events sys)) + debited (fst (run events sys))
    = rub_of u (snd sys) + debited (fst sys).
Proof.
  revert sys. induction events as [|e events IH]; intros sys Hok Hs; simpl; [auto|].
  destruct (step_keeps_books u e sys Hok Hs) as (Hok' & Hs' & Hsum).
  destruct (IH (step e sys) Hok' Hs') as (Hok'' & Hs'' & Hsum').
  split; [exact Hok''|]. split; [exact Hs''|]. unfold run in *. lia.
Qed.

Lemma spawn_ok (u : string) (amounts : list number) : Forall (task_ok u) (spawn u amounts).
Proof.
  unfold spawn. apply Forall_forall. intros t Ht.
  apply list_elem_of_fmap in Ht as (a & -> & _). split; simpl; auto.
Qed.

Lemma debited_spawn (u : string) (amounts : list number) : debited (spawn u amounts) = 0.
Proof. induction amounts as [|a amounts IH]; simpl; [reflexivity|]. apply IH. Qed.

Lemma task_ok_outcome (u : string) (t : task) :
  task_ok u t -> finished t = true -> returned_balance t = true \/ insufficient t = true.
Proof.
  intros [_ H]. unfold finished, returned_balance, insufficient.
  destruct (task_at t) as [| | | |r|[v|e]]; try discriminate; [|contradiction].
  destruct v; try contradiction; auto.
Qed.

(** Every resumption brings a call one [await] closer to its end. *)
Lemma resume_progress (t : task) (s : state) :
  (steps_left (task_at (fst (resume t s))) <= pred (steps_left (task_at t)))%nat.
Proof.
  unfold resume. destruct (task_at t) eqn:E; simpl.
  - destruct (_ || _); simpl; lia.
  - lia.
  - destruct (sql_update_deduct _ _ _ _ _) as [e|[[row|] tbl]]; simpl; lia.
  - lia.
  - lia.
  - rewrite E. simpl. lia.
Qed.

Lemma run_progress (events : list event) (tasks : list task) (s : state) (i : nat) (t : task) :
  tasks !! i = Some t ->
  exists t', fst (run events (tasks, s)) !! i = Some t' /\
             (steps_left (task_at t') <= steps_left (task_at t) - resumes i events)%nat.
Proof.
  revert tasks s t. induction events as [|e events IH]; intros tasks s t Hi; simpl.
  - exists t. split; [exact Hi|lia].
  - destruct e as [j|tm]; simpl.
    + destruct (tasks !! j) as [tj|] eqn:Hj; simpl.
      * pose proof (resume_progress tj s) as Hp.
        destruct (resume tj s) as [tj' s'] eqn:Er. simpl in Hp.
        destruct (Nat.eqb_spec i j) as [->|Hne].
        -- assert (tj = t) by congruence. subst tj.
           assert (Hi' : <[j := tj']> tasks !! j = Some tj').
           { apply list_lookup_insert_eq. eapply lookup_lt_Some; eassumption. }
           destruct (IH _ s' _ Hi') as (t' & Ht' & Hle).
           exists t'. split; [exact Ht'|lia].
        -- assert (Hi' : <[j := tj']> tasks !! i = Some t)
             by (rewrite list_lookup_insert_ne by congruence; exact Hi).
           apply (IH _ s' _ Hi').
      * destruct (Nat.eqb_spec i j) as [->|Hne]; [congruence|].
        apply (IH _ s _ Hi).
    + apply (IH _ _ _ Hi).
Qed.

Lemma run_length (events : list event) (sys : list task * state) :
  length (fst (run events sys)) = length (fst sys).
Proof.
  revert sys. induction events as [|e events IH]; intros sys; simpl; [reflexivity|].
  unfold run in IH. rewrite IH. destruct sys as [tasks s], e as [i|t]; simpl; [|reflexivity].
  destruct (tasks !! i); simpl; [|reflexivity].
  destruct (resume _ _). simpl. apply length_insert.
Qed.

Lemma run_finishes (u : string) (amounts : list number) (events : list event) (s : state) :
  (forall i, (i < length amounts)%nat -> (5 <= resumes i events)%nat) ->
  Forall (fun t => finished t = true) (fst (run events (spawn u amounts, s))).
Proof.
  intros Hfair. apply Forall_lookup. intros i t Hi.
  assert (Hlen : (i < length amounts)%nat).
  { apply lookup_lt_Some in Hi. rewrite run_length in Hi. simpl in Hi.
    unfold spawn in Hi. rewrite length_map in Hi. exact Hi. }
  destruct (lookup_lt_is_Some_2 (spawn u amounts) i) as [t0 Ht0].
  { unfold spawn. rewrite length_map. exact Hlen. }
  destruct (run_progress events _ s i t0 Ht0) as (t' & Ht' & Hle).
  rewrite Hi in Ht'. inversion Ht'; subst t'.
  assert (task_at t0 = AtCall).
  { unfold spawn in Ht0. rewrite list_lookup_fmap in Ht0.
    destruct (amounts !! i); inversion Ht0; reflexivity. }
  specialize (Hfair i Hlen). unfold finished.
  destruct (task_at t); simpl in Hle; try reflexivity; rewrite H in Hle; simpl in Hle; lia.
Qed.

(** A call that is resumed without interruption is the function
    [balance_deduct_rub]. *)
Lemma run_alone_is_call (u : string) (a : number) (s : state) :
  task_at (fst (run_alone (Task u a AtCall) s)) = Done (fst (balance_deduct_rub u a s)) /\
  snd (run_alone (Task u a AtCall) s) = snd (balance_deduct_rub u a s).
Proof.
  unfold run_alone, balance_deduct_rub, Nat.iter. cbn [nat_rect fst snd].
  destruct (negb (_db_enabled s) || float_le_0 a) eqn:G.
  - assert (E : resume (Task u a AtCall) s = (Task u a (Done (Return VNone)), s))
      by (unfold resume; simpl; rewrite G; reflexivity).
    rewrite E. split; reflexivity.
  - assert (E : resume (Task u a AtCall) s = (Task u a AtAcquire, s))
      by (unfold resume; simpl; rewrite G; reflexivity).
    rewrite E. cbn [fst snd].
    change (resume (Task u a AtAcquire) s) with (Task u a AtUpdate, s). cbn [fst snd].
    assert (E2 : resume (Task u a AtUpdate) s =
                 match sql_update_deduct RUB (now s) u (round a 2) (user_balances s) with
                 | inl e => (Task u a (AtRelease (Raise e)), s)
                 | inr (None, tbl) => (Task u a AtSelect, set_user_balances tbl s)
                 | inr (Some row, tbl) =>
                   (Task u a (AtRelease (Return (VBalance (balance_of_row row)))),
                    set_user_balances tbl s)
                 end) by reflexivity.
    rewrite E2.
    destruct (sql_update_deduct RUB (now s) u (round a 2) (user_balances s))
      as [e|[[row|] tbl]]; split; reflexivity.
Qed.

Lemma py_round_60 : py_round 60 2 = 6000.
Proof. reflexivity. Qed.

(** A resumption while the balance is still 100.00. *)
Lemma resume_first (u : string) (p : position) (s : state) (row : user_balances_row) :
  _db_enabled s = true -> user_balances s !! u = Some row ->
  row_valid row -> col_balance_rub row = Units 10000 -> early p ->
  (exists p', resume (Task u (Fin 60) p) s = (Task u (Fin 60) p', s) /\ early p') \/
  resume (Task u (Fin 60) p) s =
    (Task u (Fin 60) (AtRelease (Return (VBalance (balance_40 (col_balance_usdt row))))),
     set_user_balances (<[u := debited_row RUB 6000 (now s) row]> (user_balances s)) s).
Proof.
  intros Hen Hrow Hv Hbal [-> | [-> | ->]]; unfold resume;
    cbn [task_at task_user task_amount].
  - left. rewrite Hen. simpl. exists AtAcquire. unfold early. auto.
  - left. exists AtUpdate. unfold early. auto.
  - right. cbv zeta.
    destruct (sql_update_deduct_round RUB (now s) u 60 (user_balances s) row eq_refl Hrow Hv)
      as (H & Hlt & _ & _).
    cbn [precision col_balance] in H, Hlt. rewrite py_round_60, Hbal in *.
    cbn [units_of] in *. rewrite Hlt in H by lia. rewrite H.
    unfold debited_row, balance_of_row, balance_40. cbn [col_balance set_col_balance
      col_balance_rub col_balance_usdt]. rewrite Hbal. reflexivity.
Qed.

(** A resumption once the balance is 40.00. *)
Lemma resume_second (u : string) (p : position) (s : state) (row : user_balances_row) :
  _db_enabled s = true -> user_balances s !! u = Some row ->
  row_valid row -> col_balance_rub row = Units 4000 -> early p \/ lost p ->
  exists p', resume (Task u (Fin 60) p) s = (Task u (Fin 60) p', s) /\ (early p' \/ lost p').
Proof.
  intros Hen Hrow Hv Hbal [[-> | [-> | ->]]|[-> | [-> | ->]]]; unfold resume;
    cbn [task_at task_user task_amount].
  - rewrite Hen. simpl. exists AtAcquire. unfold early. auto.
  - exists AtUpdate. unfold early. auto.
  - cbv zeta.
    destruct (sql_update_deduct_round RUB (now s) u 60 (user_balances s) row eq_refl Hrow Hv)
      as (H & _ & Hgt & _).
    cbn [precision col_balance] in H, Hgt. rewrite py_round_60, Hbal in *.
    cbn [units_of] in *. rewrite Hgt in H by lia. rewrite H.
    rewrite set_user_balances_same. exists AtSelect. unfold lost. auto.
  - exists (AtRelease (Return VNone)). unfold lost. auto.
  - exists (Done (Return VNone)). unfold lost. auto.
  - exists (Done (Return VNone)). unfold lost. auto.
Qed.

Lemma resume_won (u : string) (usdt : numeric) (p : position) (s : state) :
  won usdt p ->
  exists p', resume (Task u (Fin 60) p) s = (Task u (Fin 60) p', s) /\ won usdt p'.
Proof.
  intros [-> | ->]; eexists; (split; [reflexivity|]); unfold won; auto.
Qed.

Lemma race_inv_step (u : string) (usdt : numeric) (e : event) (sys : list task * state) :
  race_inv u usdt sys -> race_inv u usdt (step e sys).
Proof.
  intros (p1 & p2 & row & Htasks & Hen & Hrow & Hv & Husdt & Hcases).
  destruct sys as [tasks s]. simpl in *. subst tasks.
  assert (Hv' : col_balance_rub row = Units 10000 ->
                row_valid (debited_row RUB 6000 (now s) row)).
  { intros Hb. apply debited_row_valid; [exact Hv|]. cbn [col_balance]. rewrite Hb.
    cbn [units_of]. lia. }
  assert (Hkeep : forall q1 q2,
            (early q1 /\ early q2 /\ col_balance_rub row = Units 10000) \/
            (won usdt q1 /\ (early q2 \/ lost q2) /\ col_balance_rub row = Units 4000) \/
            (won usdt q2 /\ (early q1 \/ lost q1) /\ col_balance_rub row = Units 4000) ->
            race_inv u usdt ([Task u (Fin 60) q1; Task u (Fin 60) q2], s)).
  { intros q1 q2 H. exists q1, q2, row. cbn [fst snd].
    split; [reflexivity|]. split; [exact Hen|]. split; [exact Hrow|].
    split; [exact Hv|]. split; [exact Husdt|exact H]. }
  assert (Hdebit : forall q1 q2,
            col_balance_rub row = Units 10000 ->
            (won usdt q1 /\ (early q2 \/ lost q2)) \/ (won usdt q2 /\ (early q1 \/ lost q1)) ->
            race_inv u usdt
              ([Task u (Fin 60) q1; Task u (Fin 60) q2],
               set_user_balances (<[u := debited_row RUB 6000 (now s) row]> (user_balances s)) s)).
  { intros q1 q2 Hb H. exists q1, q2, (debited_row RUB 6000 (now s) row). cbn [fst snd].
    split; [reflexivity|]. split; [exact Hen|].
    split; [cbn [user_balances set_user_balances]; apply lookup_insert_eq|].
    split; [exact (Hv' Hb)|]. split; [exact Husdt|].
    assert (Hrub : col_balance_rub (debited_row RUB 6000 (now s) row) = Units 4000).
    { unfold debited_row. cbn [col_balance set_col_balance col_balance_rub].
      rewrite Hb. reflexivity. }
    right. destruct H as [[H1 H2]|[H1 H2]]; [left|right]; auto. }
  destruct e as [i|t]; simpl; [|apply Hkeep, Hcases].
  destruct i as [|[|i]]; simpl; [| |apply Hkeep, Hcases].
  - destruct Hcases as [(H1 & H2 & Hb)|[(H1 & H2 & Hb)|(H1 & H2 & Hb)]].
    + destruct (resume_first u p1 s row Hen Hrow Hv Hb H1) as [(p' & -> & Hp')| ->]; simpl.
      * apply Hkeep. left. auto.
      * apply Hdebit; [exact Hb|]. left. subst usdt. split; [left; reflexivity|auto].
    + destruct (resume_won u usdt p1 s H1) as (p' & -> & Hp'). simpl.
      apply Hkeep. right. left. auto.
    + destruct (resume_second u p1 s row Hen Hrow Hv Hb H2) as (p' & -> & Hp'). simpl.
      apply Hkeep. right. right. auto.
  - destruct Hcases as [(H1 & H2 & Hb)|[(H1 & H2 & Hb)|(H1 & H2 & Hb)]].
    + destruct (resume_first u p2 s row Hen Hrow Hv Hb H2) as [(p' & -> & Hp')| ->]; simpl.
      * apply Hkeep. left. auto.
      * apply Hdebit; [exact Hb|]. right. subst usdt. split; [left; reflexivity|auto].
    + destruct (resume_second u p2 s row Hen Hrow Hv Hb H2) as (p' & -> & Hp'). simpl.
      apply Hkeep. right. left. auto.
    + destruct (resume_won u usdt p2 s H1) as (p' & -> & Hp'). simpl.
      apply Hkeep. right. right. auto.
Qed.

Lemma race_inv_run (u : string) (usdt : numeric) (events : list event)
    (sys : list task * state) :
  race_inv u usdt sys -> race_inv u usdt (run events sys).
Proof.
  revert sys. induction events as [|e events IH]; intros sys H; simpl; [exact H|].
  apply IH, race_inv_step, H.
Qed.

Lemma race_inv_finished (u : string) (usdt : numeric) (sys : list task * state) :
  race_inv u usdt sys -> Forall (fun t => finished t = true) (fst sys) ->
  (task_at <$> fst sys
     = [Done (Return (VBalance (balance_40 usdt))); Done (Return VNone)]
   \/ task_at <$> fst sys
     = [Done (Return VNone); Done (Return (VBalance (balance_40 usdt)))])
  /\ rub_of u (snd sys) = 4000.
Proof.
  intros (p1 & p2 & row & Htasks & Hen & Hrow & Hv & Husdt & Hcases) Hfin.
  rewrite Htasks in *. unfold rub_of. rewrite Hrow.
  inversion Hfin as [|t1 l1 Hf1 Hfin1]; subst.
  inversion Hfin1 as [|t2 l2 Hf2 _]; subst.
  unfold finished in Hf1, Hf2. cbn [task_at] in Hf1, Hf2.
  assert (Hearly : forall p, early p ->
            match p with Done _ => true | _ => false end = true -> False).
  { intros p [-> | [-> | ->]]; discriminate. }
  assert (Hwon : forall p, won (col_balance_usdt row) p ->
            match p with Done _ => true | _ => false end = true ->
            p = Done (Return (VBalance (balance_40 (col_balance_usdt row))))).
  { intros p [-> | ->]; [discriminate|reflexivity]. }
  assert (Hlost : forall p, early p \/ lost p ->
            match p with Done _ => true | _ => false end = true ->
            p = Done (Return VNone)).
  { intros p [H|[-> | [-> | ->]]] Hf; [exfalso; eapply Hearly; eassumption|discriminate..|reflexivity]. }
  destruct Hcases as [(H1 & H2 & Hb)|[(H1 & H2 & Hb)|(H1 & H2 & Hb)]].
  - exfalso. eapply Hearly; eassumption.
  - split; [|rewrite Hb; reflexivity]. left. cbn [fmap list_fmap task_at].
    rewrite (Hwon p1 H1 Hf1), (Hlost p2 H2 Hf2). reflexivity.
  - split; [|rewrite Hb; reflexivity]. right. cbn [fmap list_fmap task_at].
    rewrite (Hwon p2 H1 Hf2), (Hlost p1 H2 Hf1). reflexivity.
Qed.

(** C3, with the amounts the code debits: for any number of calls of
    [balance_deduct_rub] for one user, with whatever amounts and resumed
    in any order, on a table without NaN, the amounts, each rounded to 2
    fractional digits, of the calls whose [UPDATE] succeeded never exceed
    the balance the calls started with, and are exactly what left the
    balance; every call that finished returned a balance or [None], none
    raised; every call has finished once it was resumed five times.  Two
    calls of 60.00 against 100.00: once both finished, one returned the
    balance 40.00, the other [None], and 40.00 is stored. *)
Theorem concurrent_debits_never_overdraw
    (user_id : string) (amounts : list number) (events : list event) (s : state) :
  balances_valid s ->
  let sys' := run events (spawn user_id amounts, s) in
  debited (fst sys') <= rub_of user_id s /\
  rub_of user_id (snd sys') = rub_of user_id s - debited (fst sys') /\
  balances_valid (snd sys') /\
  Forall (fun t => finished t = true -> returned_balance t = true \/ insufficient t = true)
         (fst sys') /\
  ((forall i, (i < length amounts)%nat -> (5 <= resumes i events)%nat) ->
   Forall (fun t => finished t = true) (fst sys')) /\
  (forall row,
     _db_enabled s = true -> user_balances s !! user_id = Some row ->
     col_balance_rub row = Units 10000 -> amounts = [Fin 60; Fin 60] ->
     Forall (fun t => finished t = true) (fst sys') ->
     (task_at <$> fst sys' =
        [Done (Return (VBalance (balance_40 (col_balance_usdt row)))); Done (Return VNone)]
      \/ task_at <$> fst sys' =
        [Done (Return VNone); Done (Return (VBalance (balance_40 (col_balance_usdt row))))])
     /\ rub_of user_id (snd sys') = 4000).
Proof.
  intros Hvalid sys'.
  destruct (run_keeps_books user_id events (spawn user_id amounts, s)
              (spawn_ok user_id amounts) Hvalid) as (Hok & Hvalid' & Hsum).
  fold sys' in Hok, Hvalid', Hsum. simpl in Hsum. rewrite debited_spawn in Hsum.
  pose proof (rub_of_nonneg (snd sys') user_id Hvalid') as Hnn.
  split; [lia|]. split; [lia|]. split; [exact Hvalid'|]. split.
  - eapply Forall_impl; [exact Hok|]. intros t Ht. apply (task_ok_outcome user_id t Ht).
  - split; [apply run_finishes|].
    intros row Hen Hrow Hbal -> Hfin.
    apply (race_inv_finished user_id (col_balance_usdt row) sys'); [|exact Hfin].
    apply race_inv_run. exists AtCall, AtCall, row. simpl.
    repeat split; auto; try apply (Hvalid _ _ Hrow). left. unfold early. auto.
Qed.

Lemma balances_valid_st_rub_100 : balances_valid st_rub_100.
Proof.
  intros u row. unfold st_rub_100. simpl. rewrite lookup_singleton.
  case_decide; [|discriminate]. intros [= <-]. repeat split.
Qed.

Lemma interleaved_is_fair :
  forall i, (i < 2)%nat -> (5 <= resumes i interleaved)%nat.
Proof. intros [|[|i]] Hi; [vm_compute; lia..|lia]. Qed.

Lemma concurrent_debits_never_overdraw_witness :
  let sys' := run interleaved (spawn "u" [Fin 60; Fin 60], st_rub_100) in
  debited (fst sys') <= 10000 /\
  (task_at <$> fst sys' =
     [Done (Return (VBalance (balance_40 (Units 2500000)))); Done (Return VNone)]
   \/ task_at <$> fst sys' =
     [Done (Return VNone); Done (Return (VBalance (balance_40 (Units 2500000))))])
  /\ rub_of "u" (snd sys') = 4000.
Proof.
  destruct (concurrent_debits_never_overdraw "u" [Fin 60; Fin 60] interleaved st_rub_100
              balances_valid_st_rub_100) as (H1 & _ & _ & _ & H4 & H5).
  split; [exact H1|].
  apply (H5 (BalanceRow (Units 10000) (Units 2500000) 0) eq_refl eq_refl eq_refl eq_refl).
  apply H4. exact interleaved_is_fair.
Defined.

(** C3 as stated fails for the amounts as they are passed: against a
    balance of 60.00 a single call with 60.004 succeeds. *)
Lemma concurrent_debits_counterexample :
  let sys' := run [Resume 0; Resume 0; Resume 0; Resume 0]%nat
                  (spawn "u" [Fin (60004 # 1000)], st_rub_60) in
  task_at <$> fst sys'
    = [Done (Return (VBalance (balance_of_row (BalanceRow (Units 0) (Units 0) 0))))] /\
  (of_units (rub_of "u" st_rub_60) 2 < requested (fst sys'))%Q.
Proof. split; vm_compute; reflexivity. Qed.

(** ** [json.loads] after [json.dumps] *)

Section JsonRoundTrip.

Import Json.
Local Open Scope N_scope.

(** The function that writes the characters of a string, and what the
    reader makes of what it writes. *)
Variable esc : N -> text.
Hypothesis esc_ok : forall (c : N) (r : text),
  scalar_char c = true -> scanstring (esc c ++ r) = prepend c (scanstring r).

Lemma hex_val_hex_digit (d : N) : d < 16 -> hex_val (hex_digit d) = Some d.
Proof.
  intros Hd. destruct d as [|p]; [reflexivity|].
  do 4 (destruct p as [p|p|]; try reflexivity; try lia).
Qed.

Lemma decode_hex4 (x : N) :
  x < 65536 ->
  decode_uXXXX (hex_digit (x / 4096 mod 16)) (hex_digit (x / 256 mod 16))
               (hex_digit (x / 16 mod 16)) (hex_digit (x mod 16)) = Some x.
Proof.
  intros Hx. unfold decode_uXXXX.
  rewrite !hex_val_hex_digit by (apply N.mod_lt; discriminate).
  f_equal.
  assert (E1 : x / 16 / 16 = x / 256) by (rewrite N.Div0.div_div; reflexivity).
  assert (E2 : x / 256 / 16 = x / 4096) by (rewrite N.Div0.div_div; reflexivity).
  pose proof (N.div_mod x 16 ltac:(discriminate)) as H0.
  pose proof (N.div_mod (x / 16) 16 ltac:(discriminate)) as H1.
  pose proof (N.div_mod (x / 256) 16 ltac:(discriminate)) as H2.
  rewrite E1 in H1. rewrite E2 in H2.
  assert (H3 : x / 4096 < 16) by (apply N.Div0.div_lt_upper_bound; lia).
  rewrite (N.mod_small (x / 4096) 16) by assumption.
  lia.
Qed.


Local Arguments decode_uXXXX : simpl never.
Local Arguments is_high_surrogate : simpl never.
Local Arguments is_low_surrogate : simpl never.
Local Arguments join_surrogates : simpl never.
Local Arguments unescape : simpl never.
Local Arguments hex_digit : simpl never.

Lemma scanstring_plain (c : N) (r : text) :
  (c =? QUOTE) = false -> (c =? BACKSLASH) = false -> (c <? 32) = false ->
  scanstring (c :: r) = prepend c (scanstring r).
Proof. intros H1 H2 H3. simpl. rewrite H1, H2, H3. reflexivity. Qed.

Lemma scanstring_short (e c' : N) (r : text) :
  (e =? 117) = false -> unescape e = Some c' ->
  scanstring (BACKSLASH :: e :: r) = prepend c' (scanstring r).
Proof. intros H1 H2. simpl. rewrite H1, H2. reflexivity. Qed.

Lemma scanstring_u (h1 h2 h3 h4 uni : N) (r : text) :
  decode_uXXXX h1 h2 h3 h4 = Some uni -> is_high_surrogate uni = false ->
  scanstring (BACKSLASH :: 117 :: h1 :: h2 :: h3 :: h4 :: r) = prepend uni (scanstring r).
Proof. intros H1 H2. simpl. rewrite H1, H2. reflexivity. Qed.

Lemma scanstring_pair (h1 h2 h3 h4 l1 l2 l3 l4 hi lo : N) (r : text) :
  decode_uXXXX h1 h2 h3 h4 = Some hi -> is_high_surrogate hi = true ->
  decode_uXXXX l1 l2 l3 l4 = Some lo -> is_low_surrogate lo = true ->
  scanstring (BACKSLASH :: 117 :: h1 :: h2 :: h3 :: h4
              :: BACKSLASH :: 117 :: l1 :: l2 :: l3 :: l4 :: r)
  = prepend (join_surrogates hi lo) (scanstring r).
Proof. intros H1 H2 H3 H4. simpl. rewrite H1, H2, H3, H4. reflexivity. Qed.

Lemma u_escape_app (x : N) (r : text) :
  u_escape x ++ r =
  BACKSLASH :: 117 :: hex_digit (x / 4096 mod 16) :: hex_digit (x / 256 mod 16)
            :: hex_digit (x / 16 mod 16) :: hex_digit (x mod 16) :: r.
Proof. reflexivity. Qed.

Lemma surrogate_pair (c : N) :
  65536 <= c < 1114112 ->
  let n := c - 65536 in
  let hi := 55296 + (n / 1024) mod 1024 in
  let lo := 56320 + n mod 1024 in
  hi < 65536 /\ lo < 65536 /\ is_high_surrogate hi = true /\ is_low_surrogate lo = true
  /\ join_surrogates hi lo = c.
Proof.
  intros Hc n hi lo.
  assert (Hn : n < 1048576) by (unfold n; lia).
  assert (Hq : n / 1024 < 1024) by (apply N.Div0.div_lt_upper_bound; lia).
  pose proof (N.mod_lt n 1024 ltac:(discriminate)) as Hr.
  pose proof (N.div_mod n 1024 ltac:(discriminate)) as Hdm.
  assert (Hc' : c = 65536 + n) by (unfold n; lia).
  unfold hi, lo. rewrite (N.mod_small (n / 1024) 1024) by exact Hq.
  clearbody n. clear hi lo.
  generalize dependent (n / 1024). generalize dependent (n mod 1024).
  intros m Hm q Hq Hdm.
  unfold is_high_surrogate, is_low_surrogate, join_surrogates.
  repeat split.
  - lia.
  - lia.
  - apply andb_true_iff. split; apply N.leb_le; lia.
  - apply andb_true_iff. split; apply N.leb_le; lia.
  - lia.
Qed.

(** What [scanstring] makes of the escape of one character. *)
Lemma scanstring_escape_char (c : N) (r : text) :
  scalar_char c = true ->
  scanstring (escape_char c ++ r) = prepend c (scanstring r).
Proof.
  intros Hc. unfold escape_char.
  destruct (c =? QUOTE) eqn:E1; [apply N.eqb_eq in E1; subst; reflexivity|].
  destruct (c =? BACKSLASH) eqn:E2; [apply N.eqb_eq in E2; subst; reflexivity|].
  destruct (c =? 10) eqn:E3; [apply N.eqb_eq in E3; subst; reflexivity|].
  destruct (c =? 13) eqn:E4; [apply N.eqb_eq in E4; subst; reflexivity|].
  destruct (c =? 9) eqn:E5; [apply N.eqb_eq in E5; subst; reflexivity|].
  destruct (c =? 12) eqn:E6; [apply N.eqb_eq in E6; subst; reflexivity|].
  destruct (c =? 8) eqn:E7; [apply N.eqb_eq in E7; subst; reflexivity|].
  destruct ((32 <=? c) && (c <=? 126)) eqn:E8.
  - apply andb_true_iff in E8 as [Hlo _]. apply N.leb_le in Hlo.
    apply scanstring_plain; [exact E1|exact E2|apply N.ltb_ge; exact Hlo].
  - unfold scalar_char in Hc.
    destruct (c <? 65536) eqn:E9.
    + apply N.ltb_lt in E9. rewrite u_escape_app.
      apply scanstring_u; [apply decode_hex4; exact E9|].
      unfold is_high_surrogate.
      apply orb_true_iff in Hc as [Hc|Hc].
      * apply N.ltb_lt in Hc. apply andb_false_iff. left. apply N.leb_gt. exact Hc.
      * apply andb_true_iff in Hc as [Hc _]. apply N.leb_le in Hc.
        apply andb_false_iff. right. apply N.leb_gt. lia.
    + apply N.ltb_ge in E9.
      assert (Hrange : 65536 <= c < 1114112).
      { split; [exact E9|]. apply orb_true_iff in Hc as [Hc|Hc].
        - apply N.ltb_lt in Hc. lia.
        - apply andb_true_iff in Hc as [_ Hc]. apply N.ltb_lt in Hc. exact Hc. }
      destruct (surrogate_pair c Hrange) as (Hhi & Hlo & Hh & Hl & Hj).
      cbv zeta in *.
      set (hi := 55296 + (c - 65536) / 1024 mod 1024) in *.
      set (lo := 56320 + (c - 65536) mod 1024) in *.
      rewrite <- app_assoc, u_escape_app, u_escape_app.
      rewrite (scanstring_pair _ _ _ _ _ _ _ _ hi lo) by auto using decode_hex4.
      rewrite Hj. reflexivity.
Qed.

(** What [scanstring] makes of what PostgreSQL writes for one character. *)
Lemma scanstring_escape_json (c : N) (r : text) :
  scalar_char c = true ->
  scanstring (escape_json c ++ r) = prepend c (scanstring r).
Proof.
  intros Hc. unfold escape_json.
  destruct (c =? QUOTE) eqn:E1; [apply N.eqb_eq in E1; subst; reflexivity|].
  destruct (c =? BACKSLASH) eqn:E2; [apply N.eqb_eq in E2; subst; reflexivity|].
  destruct (c =? 10) eqn:E3; [apply N.eqb_eq in E3; subst; reflexivity|].
  destruct (c =? 13) eqn:E4; [apply N.eqb_eq in E4; subst; reflexivity|].
  destruct (c =? 9) eqn:E5; [apply N.eqb_eq in E5; subst; reflexivity|].
  destruct (c =? 12) eqn:E6; [apply N.eqb_eq in E6; subst; reflexivity|].
  destruct (c =? 8) eqn:E7; [apply N.eqb_eq in E7; subst; reflexivity|].
  destruct (c <? 32) eqn:E8.
  - apply N.ltb_lt in E8. rewrite u_escape_app.
    apply scanstring_u; [apply decode_hex4; lia|].
    unfold is_high_surrogate. apply andb_false_iff. left. apply N.leb_gt. lia.
  - apply scanstring_plain; assumption.
Qed.

Lemma scanstring_flat_map (s r : text) :
  forallb scalar_char s = true ->
  scanstring (flat_map esc s ++ QUOTE :: r) = Some (s, r).
Proof.
  induction s as [|c s IH]; intros Hs; simpl in Hs.
  - reflexivity.
  - apply andb_true_iff in Hs as [Hc Hs].
    change (flat_map esc (c :: s)) with (esc c ++ flat_map esc s).
    rewrite <- app_assoc, esc_ok by exact Hc.
    rewrite (IH Hs). reflexivity.
Qed.

Lemma scanstring_encode_with (s r : text) :
  forallb scalar_char s = true ->
  exists body, (encode_with esc) s ++ r = QUOTE :: body /\ scanstring body = Some (s, r).
Proof.
  intros Hs. exists (flat_map esc s ++ QUOTE :: r). split.
  - unfold encode_with. simpl. rewrite <- app_assoc. reflexivity.
  - apply scanstring_flat_map, Hs.
Qed.


(** *** Integers *)

Local Arguments is_digit : simpl never.

Lemma text_of_uint_all_digits (d : Decimal.uint) :
  forallb is_digit (text_of_uint d) = true.
Proof. induction d; simpl; try rewrite IHd; reflexivity. Qed.

Lemma uint_of_text_of_uint (d : Decimal.uint) : uint_of_text (text_of_uint d) = d.
Proof. induction d; simpl; try rewrite IHd; reflexivity. Qed.

Lemma span_digits_app (ds r : text) :
  forallb is_digit ds = true -> no_digit_ahead r -> span_digits (ds ++ r) = (ds, r).
Proof.
  intros Hds Hr. induction ds as [|c ds IH]; simpl in *.
  - destruct r as [|c r]; [reflexivity|]. simpl in *. rewrite Hr. reflexivity.
  - apply andb_true_iff in Hds as [Hc Hds]. rewrite Hc, (IH Hds). reflexivity.
Qed.

Lemma to_uint_normal (n : N) : Decimal.unorm (N.to_uint n) = N.to_uint n.
Proof. rewrite <- DecimalN.Unsigned.to_of, DecimalN.Unsigned.of_to. reflexivity. Qed.

Lemma normal_uint_head (d : Decimal.uint) :
  Decimal.unorm d = d ->
  d = Decimal.D0 Decimal.Nil \/
  exists c t, text_of_uint d = c :: t /\ is_digit c = true /\ (c =? 48) = false.
Proof.
  intros H. destruct d; try (right; eexists _, _; repeat split; reflexivity).
  - discriminate.
  - left. rewrite DecimalFacts.unorm_D0 in H. unfold Decimal.unorm in H.
    destruct (Decimal.nzhead d) eqn:E; try discriminate.
    + inversion H. reflexivity.
    + exfalso. inversion H; subst. apply (DecimalFacts.nzhead_nonzero _ _ E).
Qed.

Lemma scan_integer_digits (neg : bool) (d : Decimal.uint) (r : text) :
  Decimal.unorm d = d -> no_digit_ahead r ->
  scan_integer ((if neg then [45] else []) ++ text_of_uint d ++ r)
  = Some (neg, text_of_uint d, r).
Proof.
  intros Hd Hr.
  assert (Hbody : forall s1, s1 = text_of_uint d ++ r ->
            match s1 with
            | c :: r0 =>
              if c =? 48 then Some (neg, [48], r0)
              else if is_digit c then let (ds, rest) := span_digits s1 in Some (neg, ds, rest)
              else None
            | [] => None
            end = Some (neg, text_of_uint d, r)).
  { intros s1 ->. destruct (normal_uint_head d Hd) as [->|(c & t & Ht & Hc & Hz)].
    - reflexivity.
    - pose proof (span_digits_app (text_of_uint d) r (text_of_uint_all_digits d) Hr) as Hs.
      rewrite Ht in *. simpl app in *. cbv iota beta. rewrite Hz, Hc, Hs. reflexivity. }
  unfold scan_integer. destruct neg.
  - simpl app. cbv iota beta. change (45 =? 45) with true. cbv iota. apply Hbody. reflexivity.
  - simpl app.
    destruct (normal_uint_head d Hd) as [->|(c & t & Ht & Hc & Hz)].
    + reflexivity.
    + specialize (Hbody _ eq_refl). rewrite Ht in *. simpl app in *. cbv iota beta.
      assert (Hm : (c =? 45) = false).
      { unfold is_digit in Hc. apply andb_true_iff in Hc as [Hc _].
        apply N.leb_le in Hc. apply N.eqb_neq. lia. }
      rewrite Hm. exact Hbody.
Qed.

Lemma delimited_no_digit (r : text) : delimited r -> no_digit_ahead r.
Proof.
  destruct r as [|c r]; simpl; [auto|]. intros [->|[->| ->]]; reflexivity.
Qed.

Lemma scan_frac_delimited (r : text) : delimited r -> scan_frac r = ([], r).
Proof.
  destruct r as [|c r]; simpl; [auto|]. intros [->|[->| ->]]; reflexivity.
Qed.

Lemma scan_exp_delimited (r : text) : delimited r -> scan_exp r = ([], r).
Proof.
  destruct r as [|c r]; simpl; [auto|]. intros [->|[->| ->]]; reflexivity.
Qed.

Lemma scan_number_encode_int (z : Z) (r : text) :
  delimited r -> scan_number (encode_int z ++ r) = Some (PyInt z, r).
Proof.
  intros Hr.
  pose proof (scan_integer_digits (z <? 0)%Z (N.to_uint (Z.abs_N z)) r
                (to_uint_normal _) (delimited_no_digit r Hr)) as Hi.
  assert (E : encode_int z ++ r =
              (if (z <? 0)%Z then [45] else []) ++ text_of_uint (N.to_uint (Z.abs_N z)) ++ r)
    by (unfold encode_int; destruct (z <? 0)%Z; reflexivity).
  unfold scan_number. rewrite E.
  rewrite Hi, (scan_frac_delimited r Hr), (scan_exp_delimited r Hr).
  rewrite uint_of_text_of_uint, DecimalN.Unsigned.of_to.
  rewrite N2Z.inj_abs_N. destruct (z <? 0)%Z eqn:Hz.
  - apply Z.ltb_lt in Hz. do 3 f_equal. lia.
  - apply Z.ltb_ge in Hz. do 3 f_equal. lia.
Qed.


(** *** Values *)

(** Induction on a value, with the property known for the members of a
    list and the values of a dict. *)
Lemma pyval_induction (P : pyval -> Prop) :
  P PyNone -> (forall b, P (PyBool b)) -> (forall z, P (PyInt z)) ->
  (forall lit, P (PyFloat lit)) -> (forall s, P (PyStr s)) ->
  (forall l, Forall P l -> P (PyList l)) ->
  (forall items, Forall (fun kv => P (snd kv)) items -> P (PyDict items)) ->
  forall v, P v.
Proof.
  intros HNone HBool HInt HFloat HStr HList HDict.
  fix IH 1. intros [ |b|z|lit|s|l|items].
  - exact HNone.
  - apply HBool.
  - apply HInt.
  - apply HFloat.
  - apply HStr.
  - apply HList. induction l as [|x l IHl]; constructor; [apply IH|exact IHl].
  - apply HDict. induction items as [|[k x] items IHl]; constructor; [apply IH|exact IHl].
Qed.

Lemma encode_int_head (z : Z) :
  exists c t, encode_int z = c :: t /\ (c = 45 \/ is_digit c = true).
Proof.
  unfold encode_int. destruct (z <? 0)%Z; [eexists _, _; split; [reflexivity|auto]|].
  pose proof (text_of_uint_all_digits (N.to_uint (Z.abs_N z))) as Hd.
  pose proof (to_uint_normal (Z.abs_N z)) as Hn.
  destruct (N.to_uint (Z.abs_N z)) eqn:E; simpl in *;
    try (eexists _, _; split; [reflexivity|right; reflexivity]).
  discriminate.
Qed.

(** The first character of a printed value: not a blank, and not one
    that closes an array or an object. *)
Lemma print_head (v : pyval) :
  plain v = true ->
  exists c t, (print esc) v = c :: t /\ is_ws c = false /\ (c =? 93) = false /\ (c =? 125) = false.
Proof.
  destruct v as [ |[|]|z|lit|s|l|items]; simpl; intros Hp;
    try (eexists _, _; repeat split; reflexivity); try discriminate.
  destruct (encode_int_head z) as (c & t & -> & [->|Hc]);
    [eexists _, _; repeat split; reflexivity|].
  exists c, t. unfold is_digit in Hc. apply andb_true_iff in Hc as [H1 H2].
  apply N.leb_le in H1, H2. unfold is_ws.
  repeat split; repeat (apply orb_false_iff; split); apply N.eqb_neq; lia.
Qed.

Lemma skip_ws_head (c : N) (t : text) : is_ws c = false -> skip_ws (c :: t) = c :: t.
Proof. intros H. simpl. rewrite H. reflexivity. Qed.

Lemma skip_ws_print (v : pyval) (r : text) :
  plain v = true -> skip_ws ((print esc) v ++ r) = (print esc) v ++ r.
Proof.
  intros Hp. destruct (print_head v Hp) as (c & t & -> & Hc & _).
  apply skip_ws_head, Hc.
Qed.


Local Arguments scan_atom : simpl never.
Local Arguments scan_number : simpl never.
Local Arguments scanstring : simpl never.
Local Arguments skip_ws : simpl never.

Lemma scan_once_string (f : nat) (body : text) :
  scan_once (S f) (QUOTE :: body) =
  match scanstring body with
  | Some (str, rest) => Some (PyStr str, rest)
  | None => None
  end.
Proof. reflexivity. Qed.

Lemma scan_once_atom (f : nat) (c : N) (t : text) :
  (c =? QUOTE) = false -> (c =? 123) = false -> (c =? 91) = false ->
  scan_once (S f) (c :: t) = scan_atom (c :: t).
Proof. intros H1 H2 H3. simpl. rewrite H1, H2, H3. reflexivity. Qed.

Lemma scan_once_empty_list (f : nat) (r : text) :
  scan_once (S f) (91 :: 93 :: r) = Some (PyList [], r).
Proof. reflexivity. Qed.

Lemma scan_once_list (f : nat) (c : N) (t r : text) (l : list pyval) :
  is_ws c = false -> (c =? 93) = false -> array_items f (c :: t) = Some (l, r) ->
  scan_once (S f) (91 :: c :: t) = Some (PyList l, r).
Proof.
  intros Hw Hc Hi. simpl. rewrite (skip_ws_head c t Hw), Hc. simpl in Hi. rewrite Hi.
  reflexivity.
Qed.

Lemma scan_once_empty_dict (f : nat) (r : text) :
  scan_once (S f) (123 :: 125 :: r) = Some (PyDict [], r).
Proof. reflexivity. Qed.

Lemma scan_once_dict (f : nat) (c : N) (t r : text) (pairs : list (text * pyval)) :
  is_ws c = false -> (c =? 125) = false -> object_items f (c :: t) = Some (pairs, r) ->
  scan_once (S f) (123 :: c :: t) = Some (PyDict (dict_of_pairs pairs), r).
Proof.
  intros Hw Hc Hi. simpl. rewrite (skip_ws_head c t Hw), Hc. simpl in Hi. rewrite Hi.
  reflexivity.
Qed.

Lemma array_items_last (f : nat) (s r : text) (v : pyval) :
  scan_once f s = Some (v, 93 :: r) -> array_items (S f) s = Some ([v], r).
Proof. intros H. simpl. rewrite H. reflexivity. Qed.

Lemma array_items_more (f : nat) (s x r : text) (v : pyval) (vs : list pyval) :
  scan_once f s = Some (v, 44 :: 32 :: x) -> skip_ws x = x ->
  array_items f x = Some (vs, r) -> array_items (S f) s = Some (v :: vs, r).
Proof.
  intros H Hx Hi. simpl. rewrite H.
  change (skip_ws (44 :: 32 :: x)) with (44 :: 32 :: x). cbv iota beta.
  change (44 =? 93) with false. change (44 =? 44) with true. cbv iota.
  change (skip_ws (32 :: x)) with (skip_ws x). rewrite Hx, Hi. reflexivity.
Qed.

Lemma object_items_last (f : nat) (body y r : text) (k : text) (v : pyval) :
  scanstring body = Some (k, 58 :: 32 :: y) -> skip_ws y = y ->
  scan_once f y = Some (v, 125 :: r) ->
  object_items (S f) (QUOTE :: body) = Some ([(k, v)], r).
Proof.
  intros Hk Hy Hv. simpl. rewrite Hk.
  change (skip_ws (58 :: 32 :: y)) with (58 :: 32 :: y). cbv iota beta.
  change (58 =? 58) with true. cbv iota.
  change (skip_ws (32 :: y)) with (skip_ws y). rewrite Hy, Hv. reflexivity.
Qed.

Lemma object_items_more (f : nat) (body y x r : text) (k : text) (v : pyval)
    (pairs : list (text * pyval)) :
  scanstring body = Some (k, 58 :: 32 :: y) -> skip_ws y = y ->
  scan_once f y = Some (v, 44 :: 32 :: x) -> skip_ws x = x ->
  object_items f x = Some (pairs, r) ->
  object_items (S f) (QUOTE :: body) = Some ((k, v) :: pairs, r).
Proof.
  intros Hk Hy Hv Hx Hi. simpl. rewrite Hk.
  change (skip_ws (58 :: 32 :: y)) with (58 :: 32 :: y). cbv iota beta.
  change (58 =? 58) with true. cbv iota.
  change (skip_ws (32 :: y)) with (skip_ws y). rewrite Hy, Hv.
  change (skip_ws (44 :: 32 :: x)) with (44 :: 32 :: x). cbv iota beta.
  change (44 =? 125) with false. change (44 =? 44) with true. cbv iota.
  change (skip_ws (32 :: x)) with (skip_ws x). rewrite Hx, Hi. reflexivity.
Qed.

Lemma strip_prefix_mismatch (w c : N) (word t : text) :
  (w =? c) = false -> strip_prefix (w :: word) (c :: t) = None.
Proof. intros H. simpl. rewrite H. reflexivity. Qed.

Lemma scan_atom_number (c : N) (t : text) (res : pyval * text) :
  c = 45 \/ is_digit c = true -> scan_number (c :: t) = Some res ->
  scan_atom (c :: t) = Some res.
Proof.
  intros Hc Hn.
  assert (H : (110 =? c) = false /\ (116 =? c) = false /\ (102 =? c) = false).
  { destruct Hc as [->|Hc]; [repeat split|].
    unfold is_digit in Hc. apply andb_true_iff in Hc as [H1 H2].
    apply N.leb_le in H1, H2. repeat split; apply N.eqb_neq; lia. }
  destruct H as (H1 & H2 & H3).
  unfold scan_atom, lit_null, lit_true, lit_false.
  rewrite !strip_prefix_mismatch by assumption. rewrite Hn. reflexivity.
Qed.


Lemma join_two (sep p q : text) (ps : list text) :
  join sep (p :: q :: ps) = p ++ sep ++ join sep (q :: ps).
Proof. reflexivity. Qed.

Lemma array_items_join (l : list pyval) (f : nat) (r : text) :
  l <> [] -> Forall (fun v => plain v = true -> reads_back esc v) l ->
  forallb plain l = true -> (items_weight l <= f)%nat ->
  array_items f (join item_separator (map (print esc) l) ++ 93 :: r) = Some (l, r).
Proof.
  revert f. induction l as [|v l IH]; intros f Hne Hall Hp Hf; [congruence|].
  inversion Hall as [|? ? Hv Hall']; subst.
  simpl in Hp. apply andb_true_iff in Hp as [Hpv Hpl].
  unfold items_weight in Hf. simpl in Hf. fold (items_weight l) in Hf.
  destruct f as [|f]; [lia|].
  destruct l as [|v2 l].
  - apply array_items_last. apply (Hv Hpv); [lia|simpl; auto].
  - change (map (print esc) (v :: v2 :: l)) with ((print esc) v :: (print esc) v2 :: map (print esc) l).
    rewrite join_two, <- !app_assoc.
    change (item_separator ++ join item_separator ((print esc) v2 :: map (print esc) l) ++ 93 :: r)
      with (44 :: 32 :: (join item_separator (map (print esc) (v2 :: l)) ++ 93 :: r)).
    eapply array_items_more.
    + apply (Hv Hpv); [lia|simpl; auto].
    + simpl in Hpl. apply andb_true_iff in Hpl as [Hp2 _].
      destruct l; [apply skip_ws_print; exact Hp2|].
      change (map (print esc) (v2 :: p :: l)) with ((print esc) v2 :: (print esc) p :: map (print esc) l).
      rewrite join_two, <- !app_assoc. apply skip_ws_print. exact Hp2.
    + apply IH; [discriminate|exact Hall'|exact Hpl|lia].
Qed.

Lemma skip_ws_encode_with (k r : text) : skip_ws ((encode_with esc) k ++ r) = (encode_with esc) k ++ r.
Proof. reflexivity. Qed.

Lemma object_items_join (items : list (text * pyval)) (f : nat) (r : text) :
  items <> [] -> Forall (fun kv => plain (snd kv) = true -> reads_back esc (snd kv)) items ->
  forallb (fun kv => forallb scalar_char (fst kv) && plain (snd kv)) items = true ->
  (pairs_weight items <= f)%nat ->
  object_items f (join item_separator (map (print_item esc) items) ++ 125 :: r) = Some (items, r).
Proof.
  revert f. induction items as [|[k v] items IH]; intros f Hne Hall Hp Hf; [congruence|].
  inversion Hall as [|? ? Hv Hall']; subst. simpl in Hv.
  simpl in Hp. apply andb_true_iff in Hp as [Hpkv Hpl].
  apply andb_true_iff in Hpkv as [Hpk Hpv].
  unfold pairs_weight in Hf. simpl in Hf. fold (pairs_weight items) in Hf.
  destruct f as [|f]; [lia|].
  destruct items as [|kv2 items].
  - change (join item_separator (map (print_item esc) [(k, v)]) ++ 125 :: r)
      with (((encode_with esc) k ++ key_separator ++ (print esc) v) ++ 125 :: r).
    rewrite <- !app_assoc.
    destruct (scanstring_encode_with k (key_separator ++ (print esc) v ++ 125 :: r) Hpk)
      as (body & -> & Hbody).
    eapply object_items_last.
    + exact Hbody.
    + apply skip_ws_print, Hpv.
    + apply (Hv Hpv); [lia|simpl; auto].
  - change (map (print_item esc) ((k, v) :: kv2 :: items))
      with (((encode_with esc) k ++ key_separator ++ (print esc) v)
              :: (print_item esc) kv2 :: map (print_item esc) items).
    rewrite join_two, <- !app_assoc.
    destruct (scanstring_encode_with k
                (key_separator ++ (print esc) v ++ item_separator
                   ++ join item_separator ((print_item esc) kv2 :: map (print_item esc) items)
                   ++ 125 :: r) Hpk) as (body & -> & Hbody).
    eapply object_items_more.
    + exact Hbody.
    + apply skip_ws_print, Hpv.
    + apply (Hv Hpv); [lia|simpl; auto].
    + destruct items; cbn [map join]; unfold print_item; rewrite <- !app_assoc;
        apply skip_ws_encode_with.
    + apply (IH f); [discriminate|exact Hall'|exact Hpl|lia].
Qed.

Lemma dict_set_fresh (k : text) (v : pyval) (d : list (text * pyval)) :
  k ∉ map fst d -> dict_set k v d = d ++ [(k, v)].
Proof.
  induction d as [|[k' v'] d IH]; intros Hk; simpl; [reflexivity|].
  simpl in Hk. apply not_elem_of_cons in Hk as [Hne Hk].
  destruct (decide (k' = k)); [congruence|]. rewrite (IH Hk). reflexivity.
Qed.

Lemma dict_of_pairs_distinct (items : list (text * pyval)) :
  NoDup (map fst items) -> dict_of_pairs items = items.
Proof.
  intros Hnd. unfold dict_of_pairs.
  enough (H : forall acc, NoDup (map fst (acc ++ items)) ->
            fold_left (fun d kv => dict_set (fst kv) (snd kv) d) items acc = acc ++ items)
    by (apply (H []); exact Hnd).
  clear Hnd. induction items as [|[k v] items IH]; intros acc Hnd; simpl.
  - rewrite app_nil_r. reflexivity.
  - rewrite dict_set_fresh.
    + rewrite IH; rewrite <- app_assoc; [reflexivity|exact Hnd].
    + rewrite map_app in Hnd. simpl in Hnd.
      apply NoDup_app in Hnd as (_ & Hdisj & _).
      intros Hin. apply (Hdisj k Hin). left.
Qed.


Lemma join_head (v : pyval) (l : list pyval) (r : text) :
  plain v = true ->
  exists c t, join item_separator (map (print esc) (v :: l)) ++ r = c :: t
              /\ is_ws c = false /\ (c =? 93) = false.
Proof.
  intros Hp. destruct (print_head v Hp) as (c & t & E & Hw & Hc & _).
  destruct l; cbn [map join]; rewrite E; eexists _, _; (split; [reflexivity|auto]).
Qed.

Lemma join_items_head (kv : text * pyval) (items : list (text * pyval)) (r : text) :
  exists t, join item_separator (map (print_item esc) (kv :: items)) ++ r = QUOTE :: t.
Proof.
  destruct items; cbn [map join]; unfold print_item, encode_with;
    eexists; reflexivity.
Qed.

(** [scan_once] reads a plain value back from what was printed, and
    stops where the value ends. *)
Lemma plain_reads_back (v : pyval) : plain v = true -> reads_back esc v.
Proof.
  induction v as [ |b|z|lit|s|l IH|items IH] using pyval_induction;
    intros Hp fuel r Hf Hr; (destruct fuel as [|f]; [simpl in Hf; lia|]).
  - reflexivity.
  - destruct b; reflexivity.
  - destruct (encode_int_head z) as (c & t & E & Hc).
    pose proof (scan_number_encode_int z r Hr) as Hn.
    change ((print esc) (PyInt z)) with (encode_int z). rewrite E in *.
    change ((c :: t) ++ r) with (c :: t ++ r) in *.
    rewrite scan_once_atom.
    + apply scan_atom_number; assumption.
    + destruct Hc as [->|Hc]; [reflexivity|]. unfold is_digit in Hc.
      apply andb_true_iff in Hc as [H1 H2]. apply N.leb_le in H1, H2. apply N.eqb_neq.
      unfold QUOTE. lia.
    + destruct Hc as [->|Hc]; [reflexivity|]. unfold is_digit in Hc.
      apply andb_true_iff in Hc as [H1 H2]. apply N.leb_le in H1, H2. apply N.eqb_neq. lia.
    + destruct Hc as [->|Hc]; [reflexivity|]. unfold is_digit in Hc.
      apply andb_true_iff in Hc as [H1 H2]. apply N.leb_le in H1, H2. apply N.eqb_neq. lia.
  - discriminate.
  - change ((print esc) (PyStr s)) with ((encode_with esc) s).
    destruct (scanstring_encode_with s r Hp) as (body & -> & Hb).
    rewrite scan_once_string, Hb. reflexivity.
  - change ((print esc) (PyList l) ++ r)
      with (91 :: (join item_separator (map (print esc) l) ++ [93]) ++ r).
    rewrite <- app_assoc. change ([93] ++ r) with (93 :: r).
    destruct l as [|v l]; [apply scan_once_empty_list|].
    simpl in Hp. pose proof Hp as Hp'. apply andb_true_iff in Hp' as [Hpv _].
    assert (Hi : array_items f (join item_separator (map (print esc) (v :: l)) ++ 93 :: r)
                 = Some (v :: l, r)).
    { apply array_items_join; [discriminate|exact IH|exact Hp|].
      simpl in Hf. unfold items_weight. simpl. lia. }
    destruct (join_head v l (93 :: r) Hpv) as (c & t & E & Hw & Hc).
    rewrite E in *. apply scan_once_list; assumption.
  - change ((print esc) (PyDict items) ++ r)
      with (123 :: (join item_separator (map (print_item esc) items) ++ [125]) ++ r).
    rewrite <- app_assoc. change ([125] ++ r) with (125 :: r).
    destruct items as [|kv items]; [apply scan_once_empty_dict|].
    cbn [plain] in Hp. apply andb_true_iff in Hp as [Hp Hnd].
    apply bool_decide_eq_true in Hnd.
    assert (Hi : object_items f (join item_separator (map (print_item esc) (kv :: items)) ++ 125 :: r)
                 = Some (kv :: items, r)).
    { apply object_items_join; [discriminate|exact IH|exact Hp|].
      simpl in Hf. unfold pairs_weight. simpl. lia. }
    destruct (join_items_head kv items (125 :: r)) as (t & E).
    rewrite E in *.
    rewrite (scan_once_dict f QUOTE t r (kv :: items)); [|reflexivity|reflexivity|exact Hi].
    rewrite dict_of_pairs_distinct by exact Hnd. reflexivity.
Qed.

Lemma items_weight_le_length (l : list pyval) :
  Forall (fun v => weight v <= length ((print esc) v))%nat l ->
  (items_weight l <= length (join item_separator (map (print esc) l)) + 1)%nat.
Proof.
  induction 1 as [|v l Hv Hl IHl]; [simpl; lia|].
  unfold items_weight. cbn [fold_right]. fold (items_weight l).
  destruct l as [|v2 l].
  - cbn [map join]. unfold items_weight. simpl. lia.
  - change (map (print esc) (v :: v2 :: l)) with ((print esc) v :: (print esc) v2 :: map (print esc) l).
    rewrite join_two, !length_app.
    change (length item_separator) with 2%nat.
    change ((print esc) v2 :: map (print esc) l) with (map (print esc) (v2 :: l)). lia.
Qed.

Lemma pairs_weight_le_length (items : list (text * pyval)) :
  Forall (fun kv => weight (snd kv) <= length ((print esc) (snd kv)))%nat items ->
  (pairs_weight items <= length (join item_separator (map (print_item esc) items)) + 1)%nat.
Proof.
  induction 1 as [|[k v] items Hv Hl IHl]; [simpl; lia|].
  unfold pairs_weight. cbn [fold_right]. fold (pairs_weight items). simpl in Hv.
  destruct items as [|kv2 items].
  - cbn [map join]. unfold print_item, pairs_weight. cbn [fst snd fold_right].
    rewrite !length_app. lia.
  - change (map (print_item esc) ((k, v) :: kv2 :: items))
      with ((print_item esc) (k, v) :: (print_item esc) kv2 :: map (print_item esc) items).
    rewrite join_two, !length_app.
    change ((print_item esc) kv2 :: map (print_item esc) items) with (map (print_item esc) (kv2 :: items)).
    unfold print_item at 1. cbn [fst snd]. rewrite !length_app.
    change (length item_separator) with 2%nat. lia.
Qed.

Lemma weight_le_length (v : pyval) : plain v = true -> (weight v <= length ((print esc) v))%nat.
Proof.
  induction v as [ |b|z|lit|s|l IH|items IH] using pyval_induction; intros Hp.
  - simpl. lia.
  - destruct b; simpl; lia.
  - destruct (encode_int_head z) as (c & t & E & _).
    change ((print esc) (PyInt z)) with (encode_int z). rewrite E. simpl. lia.
  - discriminate.
  - change ((print esc) (PyStr s)) with ((encode_with esc) s). unfold encode_with. simpl. lia.
  - change ((print esc) (PyList l)) with (91 :: join item_separator (map (print esc) l) ++ [93]).
    change (weight (PyList l)) with (S (items_weight l)).
    cbn [length]. rewrite length_app. cbn [length].
    enough (items_weight l <= length (join item_separator (map (print esc) l)) + 1)%nat by lia.
    apply items_weight_le_length. simpl in Hp. rewrite forallb_forall in Hp.
    rewrite Forall_forall in IH |- *. intros x Hx. apply IH; [exact Hx|].
    apply Hp. apply list_elem_of_In. exact Hx.
  - change ((print esc) (PyDict items))
      with (123 :: join item_separator (map (print_item esc) items) ++ [125]).
    change (weight (PyDict items)) with (S (pairs_weight items)).
    cbn [length]. rewrite length_app. cbn [length].
    enough (pairs_weight items <= length (join item_separator (map (print_item esc) items)) + 1)%nat
      by lia.
    apply pairs_weight_le_length. cbn [plain] in Hp.
    apply andb_true_iff in Hp as [Hp _]. rewrite forallb_forall in Hp.
    rewrite Forall_forall in IH |- *. intros x Hx. apply IH; [exact Hx|].
    apply list_elem_of_In in Hx. apply Hp in Hx. apply andb_true_iff in Hx as [_ Hx].
    exact Hx.
Qed.

(** [json.loads] finds a plain value again in what was printed. *)
Lemma loads_print (v : pyval) : plain v = true -> loads ((print esc) v) = Some v.
Proof.
  intros Hp. unfold loads.
  pose proof (skip_ws_print v [] Hp) as Hs. rewrite app_nil_r in Hs. rewrite Hs.
  pose proof (plain_reads_back v Hp (S (length ((print esc) v))) [] ) as Hr.
  rewrite app_nil_r in Hr. rewrite Hr; [reflexivity| |exact I].
  pose proof (weight_le_length v Hp). lia.
Qed.

Lemma print_nonempty (v : pyval) : plain v = true -> (print esc) v <> [].
Proof. intros Hp. destruct (print_head v Hp) as (c & t & -> & _). discriminate. Qed.

End JsonRoundTrip.

(** [json.loads(json.dumps(v))] is [v] for a plain value. *)
Lemma loads_dumps (v : pyval) : plain v = true -> Json.loads (Json.dumps v) = Some v.
Proof. apply (loads_print Json.escape_char scanstring_escape_char). Qed.

Lemma dumps_nonempty (v : pyval) : plain v = true -> Json.dumps v <> [].
Proof. apply (print_nonempty Json.escape_char). Qed.

(** [json.loads] reads a plain value back from the text of a [JSONB]
    value. *)
Lemma loads_jsonb_text (v : pyval) : plain v = true -> Json.loads (jsonb_text v) = Some v.
Proof. apply (loads_print escape_json scanstring_escape_json). Qed.

Lemma jsonb_text_nonempty (v : pyval) : plain v = true -> jsonb_text v <> [].
Proof. apply (print_nonempty escape_json). Qed.

(** ** The order of the keys of a [JSONB] object *)

Lemma text_compare_eq (a b : text) : text_compare a b = Eq -> a = b.
Proof.
  revert b. induction a as [|x a IH]; intros [|y b] H; simpl in H; try discriminate.
  - reflexivity.
  - destruct (N.compare_spec x y) as [->|?|?]; try discriminate.
    rewrite (IH b H). reflexivity.
Qed.



Lemma key_compare_eq (a b : text) : key_compare a b = Eq -> a = b.
Proof.
  unfold key_compare. destruct (utf8_length a ?= utf8_length b)%N; try discriminate.
  apply text_compare_eq.
Qed.



(** A pair with a new key is put among the others. *)
Lemma insert_item_fresh (k : text) (v : pyval) (items : list (text * pyval)) :
  k ∉ map fst items -> insert_item k v items ≡ₚ (k, v) :: items.
Proof.
  induction items as [|[k' v'] items IH]; intros Hk; simpl; [reflexivity|].
  simpl in Hk. apply not_elem_of_cons in Hk as [Hne Hk].
  destruct (key_compare k k') eqn:E.
  - apply key_compare_eq in E. congruence.
  - reflexivity.
  - rewrite (IH Hk). apply Permutation_swap.
Qed.

Lemma sort_items_fresh (items acc : list (text * pyval)) :
  NoDup (map fst (acc ++ items)) ->
  fold_left (fun acc kv => insert_item (fst kv) (snd kv) acc) items acc ≡ₚ acc ++ items.
Proof.
  revert acc. induction items as [|[k v] items IH]; intros acc Hnd; simpl.
  - rewrite app_nil_r. reflexivity.
  - assert (Hk : k ∉ map fst acc).
    { rewrite map_app in Hnd. simpl in Hnd. apply NoDup_app in Hnd as (_ & Hdisj & _).
      intros Hin. apply (Hdisj k Hin). left. }
    pose proof (insert_item_fresh k v acc Hk) as Hp.
    assert (Hmid : acc ++ (k, v) :: items ≡ₚ insert_item k v acc ++ items).
    { rewrite Hp. symmetry. apply (Permutation_middle acc items (k, v)). }
    cbn [fst snd]. rewrite IH.
    + symmetry. exact Hmid.
    + pose proof (fmap_Permutation fst _ _ Hmid) as Hm.
      change (NoDup (fst <$> insert_item k v acc ++ items)). rewrite <- Hm. exact Hnd.
Qed.

(** Distinct keys are only put in order. *)
Lemma sort_items_distinct (items : list (text * pyval)) :
  NoDup (map fst items) -> sort_items items ≡ₚ items.
Proof. intros H. apply (sort_items_fresh items [] H). Qed.






(** ** The value [JSONB] keeps *)

Lemma map_fst_jsonb_value (items : list (text * pyval)) :
  map fst (map (fun kv => (fst kv, jsonb_value (snd kv))) items) = map fst items.
Proof. induction items as [|[k v] items IH]; simpl; [reflexivity|]. rewrite IH. reflexivity. Qed.

(** A plain value is kept as a plain value. *)
Lemma plain_jsonb_value (v : pyval) : plain v = true -> plain (jsonb_value v) = true.
Proof.
  induction v as [ |b|z|lit|s|l IH|items IH] using pyval_induction; intros Hp;
    try exact Hp; try discriminate.
  - cbn [jsonb_value plain] in *. rewrite forallb_forall in Hp |- *.
    intros y Hy. apply in_map_iff in Hy as (x & <- & Hx).
    rewrite Forall_forall in IH. apply IH; [apply list_elem_of_In; exact Hx|apply Hp, Hx].
  - cbn [jsonb_value plain] in *. apply andb_true_iff in Hp as [Hp Hnd].
    apply bool_decide_eq_true in Hnd.
    set (mapped := map (fun kv => (fst kv, jsonb_value (snd kv))) items).
    assert (Hkeys : NoDup (map fst mapped))
      by (unfold mapped; rewrite map_fst_jsonb_value; exact Hnd).
    pose proof (sort_items_distinct mapped Hkeys) as Hperm.
    apply andb_true_iff. split.
    + apply forallb_forall. intros kv Hin. apply list_elem_of_In in Hin.
      rewrite Hperm in Hin. apply list_elem_of_In in Hin.
      unfold mapped in Hin. apply in_map_iff in Hin as ([k x] & <- & Hx). cbn [fst snd].
      rewrite forallb_forall in Hp. specialize (Hp _ Hx). cbn [fst snd] in Hp.
      apply andb_true_iff in Hp as [Hk Hv]. rewrite Hk. cbn [andb].
      rewrite Forall_forall in IH. apply (IH (k, x)); [apply list_elem_of_In; exact Hx|exact Hv].
    + apply bool_decide_eq_true. pose proof (fmap_Permutation fst _ _ Hperm) as Hm.
      change (NoDup (fst <$> sort_items mapped)). rewrite Hm. exact Hkeys.
Qed.



(** ** Saving and reading a referral record *)

Lemma py_or_idem (a b : pyval) : truthy b = false -> py_or (py_or a b) b = py_or a b.
Proof.
  intros Hb. unfold py_or. destruct (truthy a) eqn:Ha.
  - rewrite Ha. reflexivity.
  - rewrite Hb. reflexivity.
Qed.

Lemma storable_or_empty (v : pyval) :
  storable v = true -> storable (py_or v (PyList [])) = true.
Proof. intros H. unfold py_or. destruct (truthy v); [exact H|reflexivity]. Qed.

(** What the [JSONB] column holds of a document [json.dumps] printed. *)
Lemma jsonb_in_dumps (v : pyval) :
  storable v = true -> jsonb_in (Json.dumps v) = inr (jsonb_text (jsonb_value v)).
Proof.
  intros H. apply andb_true_iff in H as [Hp Hj]. unfold jsonb_in.
  rewrite (loads_dumps v Hp), Hj. reflexivity.
Qed.

(** What [_row_to_ref] reads in the text of a [JSONB] value. *)
Lemma coerce_referrals_jsonb (v : pyval) :
  plain v = true -> coerce_referrals (PyStr (jsonb_text (jsonb_value v))) = jsonb_value v.
Proof.
  intros Hp. pose proof (plain_jsonb_value v Hp) as Hp'. unfold coerce_referrals.
  pose proof (jsonb_text_nonempty _ Hp') as Hne. rewrite (loads_jsonb_text _ Hp').
  destruct (jsonb_text (jsonb_value v)); [congruence|reflexivity].
Qed.


(** ** A float stored in a [NUMERIC] column and read again *)

Lemma round_half_away_sign (x : Q) :
  round_half_away x
    = Z.sgn (Qnum x) * ((2 * Z.abs (Qnum x) + Z.pos (Qden x)) / (2 * Z.pos (Qden x))).
Proof.
  rewrite <- round_half_away_abs. unfold round_half_away. cbv zeta.
  set (t := if _ <? _ then _ else _).
  assert (Ht : 0 <= t).
  { unfold t. pose proof (Z.div_pos (Z.abs (Qnum x)) (Z.pos (Qden x))
                            (Z.abs_nonneg _) ltac:(lia)).
    destruct (_ <? _); lia. }
  destruct (Z.lt_trichotomy (Qnum x) 0) as [H|[H|H]].
  - rewrite (Z.sgn_neg _ H). lia.
  - rewrite H. reflexivity.
  - rewrite (Z.sgn_pos _ H). lia.
Qed.

(** Rounding depends on the number only, not on the fraction that
    writes it. *)
Lemma round_half_away_Qeq (x y : Q) : (x == y)%Q -> round_half_away x = round_half_away y.
Proof.
  intros H. rewrite !round_half_away_sign. unfold Qeq in H.
  destruct x as [nx dx], y as [ny dy]. cbn [Qnum Qden] in *.
  assert (Hs : Z.sgn nx = Z.sgn ny).
  { destruct (Z.lt_trichotomy nx 0) as [Hx|[Hx|Hx]];
      destruct (Z.lt_trichotomy ny 0) as [Hy|[Hy|Hy]];
      try (rewrite ?(Z.sgn_neg _ Hx), ?(Z.sgn_pos _ Hx), ?(Z.sgn_neg _ Hy), ?(Z.sgn_pos _ Hy);
           subst; reflexivity); exfalso; subst; nia. }
  rewrite Hs. f_equal.
  assert (Ha : Z.abs nx * Z.pos dy = Z.abs ny * Z.pos dx).
  { rewrite <- (Z.abs_eq (Z.pos dy)), <- (Z.abs_eq (Z.pos dx)) by lia.
    rewrite <- !Z.abs_mul, H. reflexivity. }
  rewrite <- (Z.div_mul_cancel_r (2 * Z.abs nx + Z.pos dx) (2 * Z.pos dx) (Z.pos dy)) by lia.
  rewrite <- (Z.div_mul_cancel_r (2 * Z.abs ny + Z.pos dy) (2 * Z.pos dy) (Z.pos dx)) by lia.
  f_equal; nia.
Qed.

Lemma pg_round_Qeq (x y : Q) (p : nat) : (x == y)%Q -> pg_round x p = pg_round y p.
Proof.
  intros H. unfold pg_round. apply round_half_away_Qeq. rewrite H. reflexivity.
Qed.

Lemma round_half_away_opp (x : Q) : round_half_away (- x) = - round_half_away x.
Proof.
  rewrite !round_half_away_sign. destruct x as [n d]. cbn [Qopp Qnum Qden].
  rewrite Z.sgn_opp, Z.abs_opp. lia.
Qed.

Lemma of_units_opp (k : Z) (p : nat) : of_units (- k) p = (- of_units k p)%Q.
Proof.
  destruct (of_units_parts k p) as [En Ed]. destruct (of_units_parts (- k) p) as [En' Ed'].
  destruct (of_units k p) as [n d], (of_units (- k) p) as [n' d'].
  cbn [Qnum Qden Qopp] in *.
  assert (Hd : d' = d) by (rewrite <- Ed in Ed'; injection Ed'; auto).
  rewrite Hd, En', En. reflexivity.
Qed.

(** Stored in a column of its own scale, the float of a decimal of less
    than [2^52] units, whatever its sign, is that decimal again. *)
Lemma pg_round_binary64_abs (k : Z) (p : nat) :
  Z.abs k < 2 ^ 52 -> small_scale p -> pg_round (binary64 (of_units k p)) p = k.
Proof.
  intros Hk Hp. destruct (Z_lt_le_dec k 0) as [Hneg|Hpos].
  - replace k with (- - k) at 1 by lia.
    rewrite of_units_opp, binary64_opp.
    rewrite (pg_round_Qeq _ (- (binary64 (of_units (- k) p) * inject_Z (scale_of p) / inject_Z (scale_of p)))%Q).
    + unfold pg_round.
      rewrite (round_half_away_Qeq _ (- (binary64 (of_units (- k) p) * inject_Z (scale_of p)))%Q).
      * rewrite round_half_away_opp. fold (pg_round (binary64 (of_units (- k) p)) p).
        rewrite pg_round_binary64 by (assumption || lia). lia.
      * pose proof (scale_of_pos p). field. unfold Qeq. simpl. lia.
    + pose proof (scale_of_pos p). field. unfold Qeq. simpl. lia.
  - apply pg_round_binary64; [lia|exact Hp].
Qed.







(** ** Reading the lists of a row *)

(** C10 fails on a stored document that is valid JSON but not a list.
    For the row [row_number], [_row_to_ref] returns the number 5 as
    [referrals_l1] (and the empty list for the NULL [referrals_l2], the
    list for [referrals_l3]); and after [ref_save] of a dict,
    [ref_get_or_create] returns the dict. *)
Theorem row_to_ref_returns_non_list :
  referrals_l1 (_row_to_ref (fetch row_number)) = PyInt 5 /\
  referrals_l2 (_row_to_ref (fetch row_number)) = PyList [] /\
  referrals_l3 (_row_to_ref (fetch row_number)) = PyList [PyInt 1; PyInt 2] /\
  (referrals_l1 <$> match fst (ref_get_or_create "u" (snd (ref_save "u" data_dict st0))) with
                    | Return (VRef r) => Some r
                    | _ => None
                    end) = Some (PyDict [(txt "a", PyInt 1)]).
Proof. repeat split; vm_compute; reflexivity. Qed.

(** What [_row_to_ref] does make a list: a NULL, a text that is not a
    JSON document, an empty text, and the text of a JSON list. *)
Lemma coerce_referrals_lists (cell : option text) :
  match cell with
  | None => py_or (coerce_referrals (jsonb_out cell)) (PyList []) = PyList []
  | Some doc =>
    match Json.loads doc with
    | None => py_or (coerce_referrals (jsonb_out cell)) (PyList []) = PyList []
    | Some (PyList l) => py_or (coerce_referrals (jsonb_out cell)) (PyList []) = PyList l
    | Some v =>
      py_or (coerce_referrals (jsonb_out cell)) (PyList []) = py_or v (PyList [])
    end
  end.
Proof.
  destruct cell as [doc|]; [|reflexivity]. simpl.
  destruct doc as [|c doc]; [reflexivity|].
  destruct (Json.loads (c :: doc)) as [v|]; [|reflexivity].
  destruct v as [ | | | | |[|x l]| ]; reflexivity.
Qed.

(** * Further properties *)

(** ** Credits and debits, one after the other *)

Lemma balance_add_ok (c : currency) (u : string) (q : Q) (s : state) :
  _db_enabled s = true -> (0 < q)%Q -> balances_valid s ->
  stored_balance c (user_balances s !! u) + py_round q (precision c) < numeric_12_limit ->
  balance_add c u (Fin q) s =
    (Return (VBool true),
     set_user_balances
       (<[u := credited_row c (py_round q (precision c)) (now s) (user_balances s !! u)]>
          (user_balances s)) s).
Proof.
  intros Hen Hpos Hvalid Hfit.
  pose proof (balance_add_round c u q s Hen Hpos (Hvalid u)) as H. cbv zeta in H.
  rewrite H. apply Z.ltb_lt in Hfit. rewrite Hfit. reflexivity.
Qed.

(** A debit whose rounded amount the balance covers, and whose float
    does not exceed the balance. *)
Lemma balance_deduct_hit (c : currency) (u : string) (q : Q) (s : state)
    (row : user_balances_row) :
  _db_enabled s = true -> (0 < q)%Q -> user_balances s !! u = Some row -> row_valid row ->
  let k := py_round q (precision c) in
  (k < units_of (col_balance c row) \/
   (k = units_of (col_balance c row) /\
    Qle_bool (binary64 (of_units k (precision c))) (of_units k (precision c)) = true)) ->
  balance_deduct c u (Fin q) s =
    (Return (VBalance (balance_of_row (debited_row c k (now s) row))),
     set_user_balances (<[u := debited_row c k (now s) row]> (user_balances s)) s).
Proof.
  intros Hen Hpos Hu Hrow k Hk.
  destruct (balance_deduct_round c u q s row Hen Hpos Hu Hrow) as (H & H1 & _ & _).
  fold k in H, H1. rewrite H. destruct Hk as [Hk|[Hk Hle]].
  - rewrite (H1 Hk). reflexivity.
  - rewrite <- Hk. unfold round. fold k.
    destruct (row_valid_cell c row Hrow) as [_ Hb]. rewrite <- Hk in Hb.
    rewrite numeric_ge_same, Hle; [reflexivity| |apply small_scale_precision].
    unfold numeric_12_limit in Hb. split; [lia|].
    apply Z.lt_trans with (2 ^ 52); [change (2 ^ 52) with 4503599627370496; lia|].
    apply Z.pow_lt_mono_r; lia.
Qed.


Lemma balance_get_enabled (u : string) (s : state) :
  _db_enabled s = true -> balance_get u s = (Return (VBalance (stored u s)), s).
Proof.
  intros Hen. unfold balance_get, stored, sql_select_balance. rewrite Hen. simpl.
  destruct (user_balances s !! u); reflexivity.
Qed.

Lemma stored_credited (c : currency) (u : string) (k now_ : Z) (s : state) :
  balance_field c
    (stored u (set_user_balances
                 (<[u := credited_row c k now_ (user_balances s !! u)]> (user_balances s)) s))
    = float_of_cell (precision c) (Units (stored_balance c (user_balances s !! u) + k)) /\
  balance_field (other c)
    (stored u (set_user_balances
                 (<[u := credited_row c k now_ (user_balances s !! u)]> (user_balances s)) s))
    = balance_field (other c) (stored u s).
Proof.
  unfold stored. cbn [user_balances set_user_balances]. rewrite lookup_insert_eq.
  destruct (user_balances s !! u) as [row|]; destruct c; split; reflexivity.
Qed.

(** X1: after a credit that stored, [balance_get] returns the float of
    the balance of before with the rounded amount added, for the credited
    currency, and the other currency as it was. *)
Theorem balance_get_after_credit (c : currency) (user_id : string) (amount : Q) (s : state) :
  _db_enabled s = true -> (0 < amount)%Q -> balances_valid s ->
  stored_balance c (user_balances s !! user_id) + py_round amount (precision c)
    < numeric_12_limit ->
  exists b,
    fst (balance_get user_id (snd (balance_add c user_id (Fin amount) s)))
      = Return (VBalance b) /\
    balance_field c b
      = float_of_cell (precision c)
          (Units (stored_balance c (user_balances s !! user_id)
                  + py_round amount (precision c))) /\
    balance_field (other c) b = balance_field (other c) (stored user_id s).
Proof.
  intros Hen Hpos Hvalid Hfit.
  rewrite (balance_add_ok c user_id amount s Hen Hpos Hvalid Hfit). cbn [snd].
  rewrite balance_get_enabled by exact Hen. cbn [fst].
  eexists. split; [reflexivity|]. apply stored_credited.
Qed.

Lemma balance_get_after_credit_witness :
  exists b,
    fst (balance_get "u" (snd (balance_add USDT "u" (Fin (5 # 2)) st_rub_60)))
      = Return (VBalance b) /\
    balance_field USDT b = float_of_cell 6 (Units 2500000) /\
    balance_field RUB b = float_of_cell 2 (Units 6000).
Proof.
  exact (balance_get_after_credit USDT "u" (5 # 2) st_rub_60 eq_refl eq_refl
           balances_valid_st_rub_60 eq_refl).
Defined.




(** The row a credit writes. *)
Lemma sql_upsert_add_shape c now_ u (a : number) t t' :
  sql_upsert_add c now_ u a t = inr t' ->
  exists v, t' = <[u := match t !! u with
                        | Some old => set_col_balance c v now_ old
                        | None => set_col_balance c v now_ (BalanceRow (Units 0) (Units 0) now_)
                        end]> t.
Proof.
  unfold sql_upsert_add. intros H.
  destruct (numeric_in (precision c) a) as [e|v]; [discriminate|].
  destruct (validate_balance_row (set_col_balance c v now_ _)); [discriminate|].
  destruct (t !! u) as [old|].
  - destruct (validate_balance_row _); [discriminate|]. inversion H; subst.
    eexists. reflexivity.
  - inversion H. exists v. reflexivity.
Qed.

Lemma sql_update_deduct_shape c now_ u (a : number) t r t' :
  sql_update_deduct c now_ u a t = inr (r, t') ->
  t' = t \/ exists v old, t !! u = Some old /\ t' = <[u := set_col_balance c v now_ old]> t.
Proof.
  unfold sql_update_deduct. intros H.
  destruct (t !! u) as [old|] eqn:E; [|inversion H; auto].
  destruct (numeric_ge _ _ _); [|inversion H; auto].
  destruct (numeric_sub _ _ _) as [e|v]; [discriminate|].
  destruct (validate_balance_row _); [discriminate|].
  inversion H; subst. right. exists v, old. split; reflexivity.
Qed.

Lemma balance_add_table (c : currency) (u : string) (a : number) (s : state) :
  user_balances (snd (balance_add c u a s)) = user_balances s \/
  exists v, user_balances (snd (balance_add c u a s))
            = <[u := match user_balances s !! u with
                     | Some old => set_col_balance c v (now s) old
                     | None => set_col_balance c v (now s)
                                 (BalanceRow (Units 0) (Units 0) (now s))
                     end]> (user_balances s).
Proof.
  destruct c; simpl; unfold balance_add_rub, balance_add_usdt;
    (destruct (_ || _); [left; reflexivity|]);
    (destruct (sql_upsert_add _ _ _ _ _) as [e|t'] eqn:E; [left; reflexivity|]);
    apply sql_upsert_add_shape in E as [v ->]; right; exists v; reflexivity.
Qed.

Lemma balance_deduct_table (c : currency) (u : string) (a : number) (s : state) :
  user_balances (snd (balance_deduct c u a s)) = user_balances s \/
  exists v old, user_balances s !! u = Some old /\
    user_balances (snd (balance_deduct c u a s))
    = <[u := set_col_balance c v (now s) old]> (user_balances s).
Proof.
  destruct c; simpl; unfold balance_deduct_rub, balance_deduct_usdt;
    (destruct (_ || _); [left; reflexivity|]);
    (destruct (sql_update_deduct _ _ _ _ _) as [e|[r t']] eqn:E; [left; reflexivity|]);
    apply sql_update_deduct_shape in E as [->|(v & old & Hold & ->)];
    try (left; destruct r; reflexivity);
    right; exists v, old; (split; [exact Hold|destruct r; reflexivity]).
Qed.

(** X3: a credit or a debit for one user, whatever its amount (NaN and
    the infinities included) and its outcome, leaves the row of every
    other user, the other currency of the user's own balance and the
    table of referrals as they were. *)
Theorem balance_ops_touch_one_field
    (c : currency) (user_id other_id : string) (amount : number) (s : state) :
  other_id <> user_id ->
  let s1 := snd (balance_add c user_id amount s) in
  let s2 := snd (balance_deduct c user_id amount s) in
  user_balances s1 !! other_id = user_balances s !! other_id /\
  user_balances s2 !! other_id = user_balances s !! other_id /\
  referrals s1 = referrals s /\ referrals s2 = referrals s /\
  balance_field (other c) (stored user_id s1) = balance_field (other c) (stored user_id s) /\
  balance_field (other c) (stored user_id s2) = balance_field (other c) (stored user_id s).
Proof.
  intros Hne s1 s2. subst s1 s2.
  split; [|split; [|split; [apply balance_add_referrals|split;
                              [apply balance_deduct_referrals|split]]]].
  - destruct (balance_add_table c user_id amount s) as [->|[v ->]]; [reflexivity|].
    apply lookup_insert_ne. congruence.
  - destruct (balance_deduct_table c user_id amount s) as [->|(v & old & _ & ->)];
      [reflexivity|]. apply lookup_insert_ne. congruence.
  - unfold stored.
    destruct (balance_add_table c user_id amount s) as [->|[v ->]]; [reflexivity|].
    rewrite lookup_insert_eq.
    destruct (user_balances s !! user_id) as [row|]; destruct c; reflexivity.
  - unfold stored.
    destruct (balance_deduct_table c user_id amount s) as [->|(v & old & Hold & ->)];
      [reflexivity|]. rewrite lookup_insert_eq, Hold. destruct c; reflexivity.
Qed.

Lemma balance_ops_touch_one_field_witness :
  user_balances (snd (balance_add RUB "w" (Fin 5) st_rub_60)) !! "u"%string
    = user_balances st_rub_60 !! "u"%string /\
  balance_field USDT (stored "w" (snd (balance_add RUB "w" (Fin 5) st_rub_60))) = Fin 0.
Proof.
  destruct (balance_ops_touch_one_field RUB "w" "u" (Fin 5) st_rub_60 ltac:(discriminate))
    as (H1 & _ & _ & _ & H5 & _).
  split; [exact H1|exact H5].
Defined.

(** X5: a positive amount that rounds to zero is not refused.  The credit
    returns [True], inserts the row of a user who had none, and leaves the
    balance as it was; the debit of a user who has a row succeeds and
    returns the unchanged balance. *)
Theorem amount_rounding_to_zero_is_accepted
    (c : currency) (user_id : string) (amount : Q) (s : state) :
  _db_enabled s = true -> (0 < amount)%Q -> py_round amount (precision c) = 0 ->
  balances_valid s ->
  fst (balance_add c user_id (Fin amount) s) = Return (VBool true) /\
  is_Some (user_balances (snd (balance_add c user_id (Fin amount) s)) !! user_id) /\
  stored user_id (snd (balance_add c user_id (Fin amount) s)) = stored user_id s /\
  (forall row, user_balances s !! user_id = Some row ->
     fst (balance_deduct c user_id (Fin amount) s) = Return (VBalance (balance_of_row row)) /\
     stored user_id (snd (balance_deduct c user_id (Fin amount) s)) = stored user_id s).
Proof.
  intros Hen Hpos Hzero Hvalid.
  assert (Hfit : stored_balance c (user_balances s !! user_id)
                   + py_round amount (precision c) < numeric_12_limit).
  { rewrite Hzero. destruct (user_balances s !! user_id) as [row|] eqn:Hrow; simpl.
    - destruct (row_valid_cell c row (Hvalid _ _ Hrow)) as [_ Hb]. lia.
    - unfold numeric_12_limit. lia. }
  rewrite (balance_add_ok c user_id amount s Hen Hpos Hvalid Hfit). cbn [fst snd].
  rewrite Hzero. split; [reflexivity|].
  cbn [user_balances set_user_balances]. split; [rewrite lookup_insert_eq; eauto|]. split.
  - unfold stored. cbn [user_balances set_user_balances]. rewrite lookup_insert_eq.
    destruct (user_balances s !! user_id) as [row|] eqn:Hrow.
    + destruct (row_valid_cell c row (Hvalid _ _ Hrow)) as [Ec _].
      unfold credited_row, balance_of_row.
      destruct c; cbn [col_balance set_col_balance col_balance_rub col_balance_usdt] in *;
        rewrite Z.add_0_r, <- Ec; reflexivity.
    + destruct c; reflexivity.
  - intros row Hrow.
    destruct (row_valid_cell c row (Hvalid _ _ Hrow)) as [Ec Hb].
    assert (Hdeb : balance_of_row (debited_row c 0 (now s) row) = balance_of_row row).
    { unfold debited_row, balance_of_row.
      destruct c; cbn [col_balance set_col_balance col_balance_rub col_balance_usdt] in *;
        rewrite Z.sub_0_r, <- Ec; reflexivity. }
    rewrite (balance_deduct_hit c user_id amount s row Hen Hpos Hrow (Hvalid _ _ Hrow)).
    + cbn [fst snd]. rewrite Hzero. unfold stored.
      cbn [user_balances set_user_balances]. rewrite lookup_insert_eq, Hrow, Hdeb.
      split; reflexivity.
    + cbv zeta. rewrite Hzero.
      destruct (Z.eq_dec (units_of (col_balance c row)) 0) as [E0|Hne]; [right|left; lia].
      split; [symmetry; exact E0|]. rewrite binary64_units_0. reflexivity.
Qed.

Lemma amount_rounding_to_zero_is_accepted_witness :
  fst (balance_add RUB "w" (Fin (4 # 1000)) st_rub_60) = Return (VBool true) /\
  is_Some (user_balances (snd (balance_add RUB "w" (Fin (4 # 1000)) st_rub_60)) !! "w"%string) /\
  fst (balance_deduct RUB "u" (Fin (4 # 1000)) st_rub_60)
    = Return (VBalance (balance_of_row (BalanceRow (Units 6000) (Units 0) 0))).
Proof.
  destruct (amount_rounding_to_zero_is_accepted RUB "w" (4 # 1000) st_rub_60
              eq_refl eq_refl eq_refl balances_valid_st_rub_60) as (H1 & H2 & _ & _).
  destruct (amount_rounding_to_zero_is_accepted RUB "u" (4 # 1000) st_rub_60
              eq_refl eq_refl eq_refl balances_valid_st_rub_60) as (_ & _ & _ & H4).
  split; [exact H1|]. split; [exact H2|].
  exact (proj1 (H4 (BalanceRow (Units 6000) (Units 0) 0) eq_refl)).
Defined.



(** ** Referral records *)

Lemma fresh_row_reads_fresh_ref (now_ : Z) : _row_to_ref (fetch (fresh_row now_)) = fresh_ref.
Proof. reflexivity. Qed.

Lemma ref_get_or_create_absent (u : string) (s : state) :
  _db_enabled s = true -> referrals s !! u = None ->
  ref_get_or_create u s =
    (Return (VRef fresh_ref), set_referrals (<[u := fresh_row (now s)]> (referrals s)) s).
Proof.
  intros Hen Hrow. unfold ref_get_or_create, sql_insert_referral_default.
  rewrite Hen, Hrow. cbn [negb set_referrals referrals]. rewrite lookup_insert_eq.
  reflexivity.
Qed.

Lemma ref_get_or_create_present (u : string) (s : state) (row : referrals_row) :
  _db_enabled s = true -> referrals s !! u = Some row ->
  ref_get_or_create u s = (Return (VRef (_row_to_ref (fetch row))), s).
Proof.
  intros Hen Hrow. unfold ref_get_or_create. rewrite Hen, Hrow. reflexivity.
Qed.

(** X7: with the store enabled, [ref_get_or_create] for a user without a
    row inserts the row of defaults and returns the record without
    parents, with empty lists, zero amounts and empty names; a second call
    returns the same record and changes nothing more. *)
Theorem get_or_create_inserts_once (user_id : string) (s : state) :
  _db_enabled s = true ->
  (referrals s !! user_id = None ->
   ref_get_or_create user_id s =
     (Return (VRef fresh_ref),
      set_referrals (<[user_id := fresh_row (now s)]> (referrals s)) s)) /\
  ref_get_or_create user_id (snd (ref_get_or_create user_id s)) =
    (fst (ref_get_or_create user_id s), snd (ref_get_or_create user_id s)).
Proof.
  intros Hen. split; [apply ref_get_or_create_absent, Hen|].
  destruct (referrals s !! user_id) as [row|] eqn:Hrow.
  - rewrite (ref_get_or_create_present user_id s row Hen Hrow). cbn [fst snd].
    apply ref_get_or_create_present; assumption.
  - rewrite (ref_get_or_create_absent user_id s Hen Hrow). cbn [fst snd].
    rewrite (ref_get_or_create_present user_id _ (fresh_row (now s))).
    + reflexivity.
    + exact Hen.
    + cbn [referrals set_referrals]. apply lookup_insert_eq.
Qed.

Lemma get_or_create_inserts_once_witness :
  ref_get_or_create "w" st_ref =
    (Return (VRef fresh_ref), set_referrals (<["w"%string := fresh_row 5]> (referrals st_ref)) st_ref)
  /\ ref_get_or_create "w" (snd (ref_get_or_create "w" st_ref)) =
     (fst (ref_get_or_create "w" st_ref), snd (ref_get_or_create "w" st_ref)).
Proof.
  destruct (get_or_create_inserts_once "w" st_ref eq_refl) as [H1 H2].
  split; [exact (H1 eq_refl)|exact H2].
Defined.

(** X8: with the store enabled, [ref_load_all] changes nothing and maps
    exactly the users that have a row, each to the record
    [ref_get_or_create] returns for that user. *)
Theorem load_all_agrees_with_get (s : state) :
  _db_enabled s = true ->
  exists m,
    ref_load_all s = (Return (VRefs m), s) /\
    forall u r, m !! u = Some r <->
                is_Some (referrals s !! u) /\
                ref_get_or_create u s = (Return (VRef r), s).
Proof.
  intros Hen. unfold ref_load_all. rewrite Hen. cbn [negb].
  eexists. split; [reflexivity|]. intros u r. rewrite lookup_fmap.
  destruct (referrals s !! u) as [row|] eqn:Hrow; cbn.
  - rewrite (ref_get_or_create_present u s row Hen Hrow). split.
    + intros [= <-]. split; [eauto|reflexivity].
    + intros [_ [= ->]]. reflexivity.
  - split; [discriminate|]. intros [[x Hx] _]. discriminate.
Qed.

Lemma load_all_agrees_with_get_witness :
  exists m,
    ref_load_all st_ref = (Return (VRefs m), st_ref) /\
    forall u r, m !! u = Some r <->
                is_Some (referrals st_ref !! u) /\
                ref_get_or_create u st_ref = (Return (VRef r), st_ref).
Proof. exact (load_all_agrees_with_get st_ref eq_refl). Defined.



Lemma sql_upsert_referral_result now_ u p1 p2 p3 l1 l2 l3 e v un fn :
  exists res : pg_error + referrals_row,
    forall t, sql_upsert_referral now_ u p1 p2 p3 l1 l2 l3 e v un fn t =
              match res with
              | inl err => inl err
              | inr row => inr (<[u := row]> t)
              end.
Proof.
  unfold sql_upsert_referral.
  destruct (jsonb_in l1) as [x1|j1]; [exists (inl x1); reflexivity|].
  destruct (jsonb_in l2) as [x2|j2]; [exists (inl x2); reflexivity|].
  destruct (jsonb_in l3) as [x3|j3]; [exists (inl x3); reflexivity|].
  destruct (numeric_12_2_in e) as [x4|e']; [exists (inl x4); reflexivity|].
  destruct (numeric_12_2_in v) as [x5|v']; [exists (inl x5); reflexivity|].
  eexists (inr _). reflexivity.
Qed.

(** X10: [ref_save] keeps nothing of the row it replaces: with the store
    enabled and at the same clock, it returns the same outcome and, when
    it stores, leaves the same row for the user whatever the table held
    before (amounts accrued since the record was read are overwritten). *)
Theorem save_forgets_previous_row (user_id : string) (data : ref) (s1 s2 : state) :
  _db_enabled s1 = true -> _db_enabled s2 = true -> now s1 = now s2 ->
  fst (ref_save user_id data s1) = fst (ref_save user_id data s2) /\
  (fst (ref_save user_id data s1) = Return VNone ->
   is_Some (referrals (snd (ref_save user_id data s1)) !! user_id) /\
   referrals (snd (ref_save user_id data s1)) !! user_id
   = referrals (snd (ref_save user_id data s2)) !! user_id).
Proof.
  intros H1 H2 Hnow. unfold ref_save. rewrite H1, H2, Hnow. cbn [negb].
  destruct (sql_upsert_referral_result (now s2) user_id
              (parent1 data) (parent2 data) (parent3 data)
              (Json.dumps (py_or (referrals_l1 data) (PyList [])))
              (Json.dumps (py_or (referrals_l2 data) (PyList [])))
              (Json.dumps (py_or (referrals_l3 data) (PyList [])))
              (q_or_0 (earned_rub data)) (q_or_0 (volume_rub data))
              (str_or_empty (username data)) (str_or_empty (first_name data)))
    as [[err|row] Hres]; rewrite !Hres; cbn [fst snd].
  - split; [reflexivity|discriminate].
  - split; [reflexivity|]. intros _. cbn [referrals set_referrals].
    rewrite !lookup_insert_eq. split; [eauto|reflexivity].
Qed.

Lemma save_forgets_previous_row_witness :
  fst (ref_save "u" data_b (set_now 5 st0)) = fst (ref_save "u" data_b st_ref) /\
  referrals (snd (ref_save "u" data_b (set_now 5 st0))) !! "u"%string
  = referrals (snd (ref_save "u" data_b st_ref)) !! "u"%string.
Proof.
  destruct (save_forgets_previous_row "u" data_b (set_now 5 st0) st_ref eq_refl eq_refl eq_refl)
    as [H1 H2].
  split; [exact H1|exact (proj2 (H2 eq_refl))].
Defined.

Lemma ref_add_earned_whole (u : string) (dv de : Q) (kv ke v e : Z) (s : state)
    (row : referrals_row) :
  _db_enabled s = true -> referrals s !! u = Some row ->
  col_volume_rub row = Some v -> col_earned_rub row = Some e ->
  (dv == of_units kv 2)%Q -> (de == of_units ke 2)%Q ->
  Z.abs (v + kv) < numeric_12_limit -> Z.abs (e + ke) < numeric_12_limit ->
  ref_add_earned u dv de s =
    (Return VNone,
     set_referrals (<[u := accrued_row (v + kv) (e + ke) (now s) row]> (referrals s)) s).
Proof.
  intros Hen Hrow Hv He Hdv Hde Hfv Hfe.
  unfold ref_add_earned, sql_update_accrual. rewrite Hen, Hrow, Hv, He. cbn [negb].
  unfold numeric_12_2_add.
  rewrite !numeric_12_2_in_ok; rewrite ?(pg_round_hundredths v kv dv Hdv),
    ?(pg_round_hundredths e ke de Hde); try assumption.
  reflexivity.
Qed.

(** X11: accruals in whole hundredths add up: with the store enabled, two
    calls of [ref_add_earned] for a user with a row leave the state that
    one call with the sums of the deltas leaves. *)
Theorem accruals_add_up (user_id : string) (dv1 de1 dv2 de2 : Q) (kv1 ke1 kv2 ke2 v e : Z)
    (s : state) (row : referrals_row) :
  _db_enabled s = true -> referrals s !! user_id = Some row ->
  col_volume_rub row = Some v -> col_earned_rub row = Some e ->
  (dv1 == of_units kv1 2)%Q -> (de1 == of_units ke1 2)%Q ->
  (dv2 == of_units kv2 2)%Q -> (de2 == of_units ke2 2)%Q ->
  Z.abs (v + kv1) < numeric_12_limit -> Z.abs (e + ke1) < numeric_12_limit ->
  Z.abs (v + kv1 + kv2) < numeric_12_limit -> Z.abs (e + ke1 + ke2) < numeric_12_limit ->
  snd (ref_add_earned user_id dv2 de2 (snd (ref_add_earned user_id dv1 de1 s)))
  = snd (ref_add_earned user_id (dv1 + dv2) (de1 + de2) s).
Proof.
  intros Hen Hrow Hv He H1v H1e H2v H2e F1v F1e F2v F2e.
  rewrite (ref_add_earned_whole user_id dv1 de1 kv1 ke1 v e s row) by assumption.
  cbn [snd].
  rewrite (ref_add_earned_whole user_id dv2 de2 kv2 ke2 (v + kv1) (e + ke1) _
             (accrued_row (v + kv1) (e + ke1) (now s) row));
    try assumption; try reflexivity;
    [|cbn [referrals set_referrals]; apply lookup_insert_eq].
  rewrite (ref_add_earned_whole user_id (dv1 + dv2) (de1 + de2) (kv1 + kv2) (ke1 + ke2)
             v e s row); try assumption.
  - cbn [snd]. unfold set_referrals. cbn. rewrite insert_insert_eq.
    unfold accrued_row. cbn. rewrite !Z.add_assoc. reflexivity.
  - rewrite H1v, H2v. unfold of_units, scale_of. change (10 ^ Z.of_nat 2) with 100.
    rewrite inject_Z_plus. field.
  - rewrite H1e, H2e. unfold of_units, scale_of. change (10 ^ Z.of_nat 2) with 100.
    rewrite inject_Z_plus. field.
  - rewrite Z.add_assoc. exact F2v.
  - rewrite Z.add_assoc. exact F2e.
Qed.

Lemma accruals_add_up_witness :
  snd (ref_add_earned "u" (5 # 2) (1 # 4) (snd (ref_add_earned "u" 100 10 st_ref)))
  = snd (ref_add_earned "u" (100 + (5 # 2)) (10 + (1 # 4)) st_ref).
Proof.
  exact (accruals_add_up "u" 100 10 (5 # 2) (1 # 4) 10000 1000 250 25 1000 100 st_ref row_u
           eq_refl eq_refl eq_refl eq_refl eq_refl eq_refl eq_refl eq_refl
           eq_refl eq_refl eq_refl eq_refl).
Defined.

(** ** Lists stay lists *)

Lemma ref_has_lists_cells (row row' : referrals_row) :
  col_referrals_l1 row' = col_referrals_l1 row ->
  col_referrals_l2 row' = col_referrals_l2 row ->
  col_referrals_l3 row' = col_referrals_l3 row ->
  ref_has_lists (_row_to_ref (fetch row')) = ref_has_lists (_row_to_ref (fetch row)).
Proof.
  intros H1 H2 H3. unfold ref_has_lists, _row_to_ref, fetch.
  cbn [referrals_l1 referrals_l2 referrals_l3 r_referrals_l1 r_referrals_l2 r_referrals_l3].
  rewrite H1, H2, H3. reflexivity.
Qed.

Lemma rows_have_lists_insert (s : state) (u : string) (row : referrals_row) :
  rows_have_lists s -> ref_has_lists (_row_to_ref (fetch row)) = true ->
  rows_have_lists (set_referrals (<[u := row]> (referrals s)) s).
Proof.
  intros Hs Hrow u' row'. cbn [referrals set_referrals]. rewrite lookup_insert.
  case_decide; [|apply Hs]. intros [= <-]. exact Hrow.
Qed.

Lemma stored_list_reads_list (v : pyval) :
  is_list v = true -> storable v = true ->
  is_list (py_or (coerce_referrals
                    (jsonb_out (Some (jsonb_text (jsonb_value (py_or v (PyList [])))))))
                 (PyList [])) = true.
Proof.
  intros Hl Hs. destruct v as [ | | | | |l| ]; try discriminate.
  assert (E : py_or (PyList l) (PyList []) = PyList l) by (destruct l; reflexivity).
  rewrite E. apply andb_true_iff in Hs as [Hp _].
  cbn [jsonb_out]. rewrite (coerce_referrals_jsonb (PyList l) Hp).
  cbn [jsonb_value]. unfold py_or. destruct (truthy _); reflexivity.
Qed.

Lemma exec_keeps_lists (c : call) (s : state) :
  rows_have_lists s -> saves_lists c = true ->
  rows_have_lists (snd (exec c s)) /\
  match fst (exec c s) with
  | Return v => value_has_lists v
  | Raise _ => True
  end.
Proof.
  intros Hs Hc. destruct c as [u|u data| |u dv de|u x|u|cur u a|cur u a|t]; simpl.
  - unfold ref_get_or_create. destruct (negb _); [simpl; auto|].
    destruct (referrals s !! u) as [row|] eqn:Hrow; [simpl; split; [exact Hs|eauto]|].
    unfold sql_insert_referral_default. rewrite Hrow.
    cbn [set_referrals referrals]. rewrite lookup_insert_eq. cbn [fst snd].
    split; [|reflexivity]. apply rows_have_lists_insert; [exact Hs|reflexivity].
  - unfold ref_save. destruct (negb _); [simpl; auto|].
    destruct (sql_upsert_referral _ _ _ _ _ _ _ _ _ _ _ _ _) as [err|t'] eqn:E;
      [simpl; auto|]. cbn [fst snd]. split; [|exact I].
    unfold sql_upsert_referral in E.
    destruct (jsonb_in _) as [|j1] eqn:E1; [discriminate|].
    destruct (jsonb_in (Json.dumps (py_or (referrals_l2 data) _))) as [|j2] eqn:E2;
      [discriminate|].
    destruct (jsonb_in (Json.dumps (py_or (referrals_l3 data) _))) as [|j3] eqn:E3;
      [discriminate|].
    destruct (numeric_12_2_in _) as [|e']; [discriminate|].
    destruct (numeric_12_2_in _) as [|v']; [discriminate|].
    inversion E; subst t'. clear E.
    simpl in Hc. apply andb_true_iff in Hc as [Hc H3]. apply andb_true_iff in Hc as [H1 H2].
    apply andb_true_iff in H1 as [L1 S1], H2 as [L2 S2], H3 as [L3 S3].
    rewrite jsonb_in_dumps in E1, E2, E3 by (apply storable_or_empty; assumption).
    inversion E1; inversion E2; inversion E3; subst.
    apply rows_have_lists_insert; [exact Hs|].
    unfold ref_has_lists, _row_to_ref, fetch.
    cbn [referrals_l1 referrals_l2 referrals_l3 r_referrals_l1 r_referrals_l2 r_referrals_l3
         col_referrals_l1 col_referrals_l2 col_referrals_l3].
    rewrite !stored_list_reads_list by assumption. reflexivity.
  - unfold ref_load_all. destruct (negb _); simpl.
    + split; [exact Hs|]. intros u r. rewrite lookup_empty. discriminate.
    + split; [exact Hs|]. intros u r. rewrite lookup_fmap.
      destruct (referrals s !! u) as [row|] eqn:Hrow; [|discriminate].
      intros [= <-]. eapply Hs, Hrow.
  - unfold ref_add_earned. destruct (negb _); [simpl; auto|].
    destruct (sql_update_accrual _ _ _ _ _) as [err|t'] eqn:E; [simpl; auto|].
    cbn [fst snd]. split; [|exact I]. unfold sql_update_accrual in E.
    destruct (referrals s !! u) as [old|] eqn:Hold;
      [|inversion E; subst; rewrite set_referrals_same; exact Hs].
    destruct (numeric_12_2_add (col_volume_rub old) dv); [discriminate|].
    destruct (numeric_12_2_add (col_earned_rub old) de); [discriminate|].
    inversion E; subst t'. apply rows_have_lists_insert; [exact Hs|].
    erewrite ref_has_lists_cells; [eapply Hs, Hold|reflexivity..].
  - unfold ref_set_earned. destruct (negb _); [simpl; auto|].
    destruct (sql_update_earned _ _ _ _) as [err|t'] eqn:E; [simpl; auto|].
    cbn [fst snd]. split; [|exact I]. unfold sql_update_earned in E.
    destruct (referrals s !! u) as [old|] eqn:Hold;
      [|inversion E; subst; rewrite set_referrals_same; exact Hs].
    destruct (numeric_12_2_in x); [discriminate|].
    inversion E; subst t'. apply rows_have_lists_insert; [exact Hs|].
    erewrite ref_has_lists_cells; [eapply Hs, Hold|reflexivity..].
  - unfold balance_get. destruct (negb _); [simpl; auto|].
    destruct (sql_select_balance _ _); simpl; auto.
  - split.
    + intros u' row'. rewrite balance_add_referrals. apply Hs.
    + destruct cur; simpl; unfold balance_add_rub, balance_add_usdt;
        (destruct (_ || _); [exact I|]); destruct (sql_upsert_add _ _ _ _ _); exact I.
  - split.
    + intros u' row'. rewrite balance_deduct_referrals. apply Hs.
    + destruct cur; simpl; unfold balance_deduct_rub, balance_deduct_usdt;
        (destruct (_ || _); [exact I|]);
        destruct (sql_update_deduct _ _ _ _ _) as [err|[[row|] t']]; exact I.
  - split; [exact Hs|exact I].
Qed.

(** X12: as long as every [ref_save] is given lists (of values without
    floats), the missing check of [_row_to_ref] is never reached: starting
    from a table whose rows read as lists, after any sequence of calls
    every row still reads as lists, and every record any of the calls
    returned has lists in [referrals_l1], [referrals_l2] and
    [referrals_l3]. *)
Theorem lists_stay_lists (calls : list call) (s : state) :
  rows_have_lists s -> forallb saves_lists calls = true ->
  rows_have_lists (exec_all calls s) /\
  Forall (fun rs => match fst rs with
                    | Return v => value_has_lists v
                    | Raise _ => True
                    end) (exec_trace calls s).
Proof.
  revert s. induction calls as [|c calls IH]; intros s Hs Hall; simpl.
  - split; [exact Hs|constructor].
  - simpl in Hall. apply andb_true_iff in Hall as [Hc Hall].
    destruct (exec_keeps_lists c s Hs Hc) as [Hs' Hv].
    destruct (IH _ Hs' Hall) as [Hs'' Hvs].
    split; [exact Hs''|]. constructor; assumption.
Qed.

Lemma rows_have_lists_st_ref : rows_have_lists st_ref.
Proof.
  intros u row. unfold st_ref. simpl. rewrite lookup_singleton.
  case_decide; [|discriminate]. intros [= <-]. reflexivity.
Qed.

Lemma lists_stay_lists_witness :
  rows_have_lists
    (exec_all [CRefSave "w" data_fine; CRefAddEarned "w" 5 1; CRefGetOrCreate "x";
               CRefLoadAll; CRefSetEarned "u" 0] st_ref).
Proof.
  exact (proj1 (lists_stay_lists
                  [CRefSave "w" data_fine; CRefAddEarned "w" 5 1; CRefGetOrCreate "x";
                   CRefLoadAll; CRefSetEarned "u" 0] st_ref rows_have_lists_st_ref eq_refl)).
Defined.


(** ** Concurrent credits and debits *)

Lemma ledger_cons c u (j : job) (jobs : list job) :
  ledger c u (j :: jobs) = effect c u j + ledger c u jobs.
Proof. reflexivity. Qed.

Lemma ledger_insert c u (jobs : list job) (i : nat) (j j' : job) :
  jobs !! i = Some j ->
  ledger c u (<[i := j']> jobs) = ledger c u jobs - effect c u j + effect c u j'.
Proof.
  revert i. induction jobs as [|j0 jobs IH]; intros i Hi; [discriminate|].
  destruct i as [|i]; simpl in Hi.
  - inversion Hi; subst. change (<[0%nat := j']> (j :: jobs)) with (j' :: jobs).
    rewrite !ledger_cons. lia.
  - change (<[S i := j']> (j0 :: jobs)) with (j0 :: <[i := j']> jobs).
    rewrite !ledger_cons, (IH i Hi). lia.
Qed.

Lemma stored_balance_credited (c cj : currency) (a now_ : Z) (old : option user_balances_row) :
  stored_balance c (Some (credited_row cj a now_ old))
  = stored_balance c old + (if same_currency cj c then a else 0).
Proof. destruct old as [row|], c, cj; simpl; lia. Qed.

Lemma stored_balance_debited (c cj : currency) (a now_ : Z) (old : user_balances_row) :
  stored_balance c (Some (debited_row cj a now_ old))
  = stored_balance c (Some old) + (if same_currency cj c then - a else 0).
Proof. destruct c, cj; simpl; lia. Qed.

(** A call whose statement has not stored or taken anything counts for
    nothing. *)
Lemma effect_idle (c : currency) (u : string) (k : job_kind) (uj : string) (a : number)
    (p : position) :
  credited p = false -> took p = false -> effect c u (Job k uj a p) = 0.
Proof.
  intros H1 H2. unfold effect. cbn [job_at job_kind_of job_user]. rewrite H1, H2.
  destruct (bool_decide (uj = u)), k; reflexivity.
Qed.

Lemma effect_refused (c : currency) (u : string) (k : job_kind) (uj : string) (a : number) :
  effect c u (Job k uj a (Done (Return (match k with
                                         | JCredit _ => VBool false
                                         | JDebit _ => VNone
                                         end)))) = 0.
Proof.
  unfold effect. cbn [job_at job_kind_of job_user].
  destruct (bool_decide (uj = u)), k; reflexivity.
Qed.

Lemma effect_missed (c : currency) (u : string) (cj : currency) (uj : string) (a : number) :
  effect c u (Job (JDebit cj) uj a
                  (match cj with RUB => AtSelect | USDT => AtRelease (Return VNone) end)) = 0.
Proof.
  unfold effect. cbn [job_at job_kind_of job_user].
  destruct (bool_decide (uj = u)), cj; reflexivity.
Qed.

Lemma effect_credited (c : currency) (u : string) (cj : currency) (uj : string) (a : number) :
  effect c u (Job (JCredit cj) uj a (AtRelease (Return (VBool true))))
  = if bool_decide (uj = u)
    then (if same_currency cj c then rounded (precision cj) a else 0)
    else 0.
Proof. reflexivity. Qed.

Lemma effect_debited (c : currency) (u : string) (cj : currency) (uj : string) (a : number)
    (b : balance) :
  effect c u (Job (JDebit cj) uj a (AtRelease (Return (VBalance b))))
  = if bool_decide (uj = u)
    then (if same_currency cj c then - rounded (precision cj) a else 0)
    else 0.
Proof. reflexivity. Qed.

Lemma effect_released (c : currency) (u : string) (k : job_kind) (uj : string) (a : number)
    (r : outcome value) :
  effect c u (Job k uj a (Done r)) = effect c u (Job k uj a (AtRelease r)).
Proof. reflexivity. Qed.

(** What the statement of a credit does, on a table without NaN: it
    raises, or it adds the rounded amount. *)
Lemma sql_upsert_add_outcome c now_ u (x : number) (s : state) :
  x <> NaN -> float_le_0 x = false -> balances_valid s ->
  (exists e, sql_upsert_add c now_ u (round x (precision c)) (user_balances s) = inl e) \/
  (row_valid (credited_row c (rounded (precision c) x) now_ (user_balances s !! u)) /\
   sql_upsert_add c now_ u (round x (precision c)) (user_balances s)
     = inr (<[u := credited_row c (rounded (precision c) x) now_ (user_balances s !! u)]>
              (user_balances s))).
Proof.
  intros Hnan Hx Hs. destruct x as [|negative|q]; [congruence| |].
  - left. exists NumericFieldOverflow. reflexivity.
  - cbn [float_le_0] in Hx.
    rewrite (sql_upsert_add_round c now_ u q (user_balances s) Hx (Hs u)).
    cbn [rounded]. destruct (_ <? _) eqn:E; [right|left; eexists; reflexivity].
    apply Z.ltb_lt in E. split; [|reflexivity].
    apply credited_row_valid; [apply (Hs u)|apply py_round_nonneg; exact Hx|exact E].
Qed.

(** One resumption keeps the ledger: the balance moves by what the call is
    recorded to have done. *)
Lemma resume_job_keeps_ledger (c : currency) (u : string) (j : job) (s : state) :
  job_ok j -> balances_valid s ->
  job_ok (fst (resume_job j s)) /\
  balances_valid (snd (resume_job j s)) /\
  stored_balance c (user_balances (snd (resume_job j s)) !! u) + effect c u j
  = stored_balance c (user_balances s !! u) + effect c u (fst (resume_job j s)).
Proof.
  intros [Hnan Hat] Hs. unfold resume_job. destruct j as [k uj a p].
  cbn [job_at job_kind_of job_user job_amount] in *.
  assert (Hok : forall p', match p' with
                           | AtAcquire | AtUpdate => float_le_0 a = false
                           | _ => True
                           end -> job_ok (Job k uj a p'))
    by (intros p' Hp'; split; [exact Hnan|exact Hp']).
  destruct p as [| | | |r|r].
  - rewrite (effect_idle c u k uj a AtCall) by reflexivity.
    destruct (negb (_db_enabled s) || float_le_0 a) eqn:G; cbn [fst snd].
    + split; [apply Hok; exact I|]. split; [exact Hs|].
      rewrite effect_refused. reflexivity.
    + apply orb_false_iff in G as [_ G].
      split; [apply Hok; exact G|]. split; [exact Hs|].
      rewrite (effect_idle c u k uj a AtAcquire) by reflexivity. reflexivity.
  - cbn [fst snd]. split; [apply Hok; exact Hat|]. split; [exact Hs|].
    rewrite !effect_idle by reflexivity. reflexivity.
  - rewrite (effect_idle c u k uj a AtUpdate) by reflexivity.
    destruct k as [cj|cj].
    + assert (Ha : a <> NaN).
      { unfold credits_nan_job in Hnan. cbn [job_kind_of job_amount] in Hnan.
        destruct a; [discriminate|discriminate..]. }
      destruct (sql_upsert_add_outcome cj (now s) uj a s Ha Hat Hs) as [[e E]|[Hv E]];
        rewrite E; cbn [fst snd].
      * split; [apply Hok; exact I|]. split; [exact Hs|].
        rewrite effect_idle by reflexivity. reflexivity.
      * split; [apply Hok; exact I|].
        split; [apply balances_valid_insert; assumption|].
        cbn [user_balances set_user_balances]. rewrite effect_credited, lookup_insert.
        destruct (decide (uj = u)) as [->|Hne].
        -- rewrite bool_decide_eq_true_2 by reflexivity.
           rewrite stored_balance_credited. lia.
        -- rewrite bool_decide_eq_false_2 by exact Hne. lia.
    + destruct (sql_update_deduct_outcome cj (now s) uj a s Hat Hs)
        as [E|(old & Hold & Hk & E)]; rewrite E; cbn [fst snd].
      * rewrite set_user_balances_same.
        split; [apply Hok; destruct cj; exact I|]. split; [exact Hs|].
        rewrite effect_missed. reflexivity.
      * split; [apply Hok; exact I|].
        split; [apply balances_valid_insert;
                [exact Hs|apply debited_row_valid; [apply (Hs uj old Hold)|exact Hk]]|].
        cbn [user_balances set_user_balances]. rewrite effect_debited, lookup_insert.
        destruct (decide (uj = u)) as [->|Hne].
        -- rewrite bool_decide_eq_true_2 by reflexivity.
           rewrite stored_balance_debited, Hold. lia.
        -- rewrite bool_decide_eq_false_2 by exact Hne. lia.
  - cbn [fst snd]. split; [apply Hok; exact I|]. split; [exact Hs|].
    rewrite !effect_idle by reflexivity. reflexivity.
  - cbn [fst snd]. split; [apply Hok; exact I|]. split; [exact Hs|].
    rewrite effect_released. reflexivity.
  - cbn [fst snd]. split; [apply Hok; exact I|]. split; [exact Hs|]. lia.
Qed.

Lemma run_jobs_keeps_ledger (c : currency) (u : string) (events : list event)
    (sys : list job * state) :
  Forall job_ok (fst sys) -> balances_valid (snd sys) ->
  balances_valid (snd (run_jobs events sys)) /\
  stored_balance c (user_balances (snd (run_jobs events sys)) !! u) + ledger c u (fst sys)
  = stored_balance c (user_balances (snd sys) !! u) + ledger c u (fst (run_jobs events sys)).
Proof.
  revert sys. induction events as [|e events IH]; intros sys Hok Hs; simpl; [auto|].
  assert (Hstep : Forall job_ok (fst (step_jobs e sys)) /\
            balances_valid (snd (step_jobs e sys)) /\
            stored_balance c (user_balances (snd (step_jobs e sys)) !! u) + ledger c u (fst sys)
            = stored_balance c (user_balances (snd sys) !! u)
              + ledger c u (fst (step_jobs e sys))).
  { destruct sys as [jobs s]. simpl in *. destruct e as [i|t]; simpl; [|auto].
    destruct (jobs !! i) as [j|] eqn:Hi; simpl; [|auto].
    assert (Hj : job_ok j) by (eapply Forall_lookup_1; eassumption).
    pose proof (resume_job_keeps_ledger c u j s Hj Hs) as (Hj' & Hv & Hl).
    destruct (resume_job j s) as [j' s']. simpl in *.
    split; [apply Forall_insert; assumption|]. split; [exact Hv|].
    rewrite (ledger_insert c u jobs i j j' Hi). lia. }
  destruct Hstep as (Hok' & Hv & Hl). destruct (IH (step_jobs e sys) Hok' Hv) as [Hv' Hl'].
  split; [exact Hv'|]. unfold run_jobs in *. lia.
Qed.

Lemma ledger_not_started (c : currency) (u : string) (jobs : list job) :
  forallb not_started jobs = true -> ledger c u jobs = 0.
Proof.
  induction jobs as [|j jobs IH]; intros H; [reflexivity|].
  simpl in H. apply andb_true_iff in H as [Hj H]. rewrite ledger_cons, (IH H).
  destruct j as [k uj a p]. unfold not_started in Hj. simpl in Hj.
  destruct p; try discriminate. rewrite effect_idle by reflexivity. reflexivity.
Qed.

Lemma jobs_ok_not_started (jobs : list job) :
  forallb not_started jobs = true -> existsb credits_nan_job jobs = false ->
  Forall job_ok jobs.
Proof.
  induction jobs as [|j jobs IH]; intros H1 H2; [constructor|].
  simpl in H1, H2. apply andb_true_iff in H1 as [Hj H1].
  apply orb_false_iff in H2 as [Hn H2].
  constructor; [|apply IH; assumption]. split; [exact Hn|].
  unfold not_started in Hj. destruct (job_at j); try discriminate. exact I.
Qed.

Lemma resume_job_progress (j : job) (s : state) :
  (steps_left (job_at (fst (resume_job j s))) <= pred (steps_left (job_at j)))%nat.
Proof.
  unfold resume_job. destruct (job_at j) eqn:E; simpl.
  - destruct (_ || _); simpl; lia.
  - lia.
  - destruct (job_kind_of j) as [cj|cj].
    + destruct (sql_upsert_add _ _ _ _ _); simpl; lia.
    + destruct (sql_update_deduct _ _ _ _ _) as [e|[[row|] tbl]]; simpl; try lia.
      destruct cj; simpl; lia.
  - lia.
  - lia.
  - rewrite E. simpl. lia.
Qed.

Lemma run_jobs_progress (events : list event) (jobs : list job) (s : state) (i : nat) (j : job) :
  jobs !! i = Some j ->
  exists j', fst (run_jobs events (jobs, s)) !! i = Some j' /\
             (steps_left (job_at j') <= steps_left (job_at j) - resumes i events)%nat.
Proof.
  revert jobs s j. induction events as [|e events IH]; intros jobs s j Hi; simpl.
  - exists j. split; [exact Hi|lia].
  - destruct e as [k|tm]; simpl.
    + destruct (jobs !! k) as [jk|] eqn:Hk; simpl.
      * pose proof (resume_job_progress jk s) as Hp.
        destruct (resume_job jk s) as [jk' s'] eqn:Er. simpl in Hp.
        destruct (Nat.eqb_spec i k) as [->|Hne].
        -- assert (jk = j) by congruence. subst jk.
           assert (Hi' : <[k := jk']> jobs !! k = Some jk').
           { apply list_lookup_insert_eq. eapply lookup_lt_Some; eassumption. }
           destruct (IH _ s' _ Hi') as (j' & Hj' & Hle).
           exists j'. split; [exact Hj'|lia].
        -- assert (Hi' : <[k := jk']> jobs !! i = Some j)
             by (rewrite list_lookup_insert_ne by congruence; exact Hi).
           apply (IH _ s' _ Hi').
      * destruct (Nat.eqb_spec i k) as [->|Hne]; [congruence|].
        apply (IH _ s _ Hi).
    + apply (IH _ _ _ Hi).
Qed.

Lemma run_jobs_length (events : list event) (sys : list job * state) :
  length (fst (run_jobs events sys)) = length (fst sys).
Proof.
  revert sys. induction events as [|e events IH]; intros sys; simpl; [reflexivity|].
  unfold run_jobs in IH. rewrite IH. destruct sys as [jobs s], e as [i|t]; simpl; [|reflexivity].
  destruct (jobs !! i); simpl; [|reflexivity].
  destruct (resume_job _ _). simpl. apply length_insert.
Qed.

(** X13: credits and debits of any users in both currencies, of any
    amounts but no credit of NaN, on a table without NaN, resumed in any
    order at their [await]s (acquiring the connection, each statement,
    releasing the connection): at every moment each balance is the
    balance at the start plus the rounded amounts of the credits whose
    statement stored minus the rounded amounts of the debits whose
    statement took, so no credit is lost and none is applied twice; the
    table holds no NaN and no balance is negative; and every call has
    finished once it was resumed five times. *)
Theorem concurrent_ledger_is_exact
    (c : currency) (user_id : string) (jobs : list job) (events : list event) (s : state) :
  balances_valid s -> forallb not_started jobs = true ->
  existsb credits_nan_job jobs = false ->
  let sys' := run_jobs events (jobs, s) in
  stored_balance c (user_balances (snd sys') !! user_id)
    = stored_balance c (user_balances s !! user_id) + ledger c user_id (fst sys') /\
  balances_valid (snd sys') /\ balances_nonneg (snd sys') /\
  ((forall i, (i < length jobs)%nat -> (5 <= resumes i events)%nat) ->
   Forall (fun j => job_finished j = true) (fst sys')).
Proof.
  intros Hs Hjobs Hnan sys'.
  destruct (run_jobs_keeps_ledger c user_id events (jobs, s)
              (jobs_ok_not_started jobs Hjobs Hnan) Hs) as [Hv Hl].
  fold sys' in Hv, Hl. simpl in Hl. rewrite (ledger_not_started c user_id jobs Hjobs) in Hl.
  split; [lia|]. split; [exact Hv|]. split; [apply balances_valid_nonneg, Hv|].
  intros Hfair. apply Forall_lookup. intros i j' Hi.
  assert (Hlen : (i < length jobs)%nat).
  { apply lookup_lt_Some in Hi. unfold sys' in Hi. rewrite run_jobs_length in Hi. exact Hi. }
  destruct (lookup_lt_is_Some_2 jobs i Hlen) as [j Hj].
  destruct (run_jobs_progress events jobs s i j Hj) as (j2 & Hj2 & Hle).
  fold sys' in Hj2. rewrite Hi in Hj2. inversion Hj2; subst j2.
  assert (Hstart : job_at j = AtCall).
  { rewrite forallb_forall in Hjobs.
    assert (Hin : In j jobs) by (apply list_elem_of_In; eapply list_elem_of_lookup_2; eassumption).
    specialize (Hjobs j Hin). unfold not_started in Hjobs.
    destruct (job_at j); try discriminate. reflexivity. }
  specialize (Hfair i Hlen). rewrite Hstart in Hle. simpl in Hle.
  unfold job_finished. destruct (job_at j'); simpl in Hle; try reflexivity; lia.
Qed.

Lemma some_schedule_is_fair :
  forall i, (i < length some_jobs)%nat -> (5 <= resumes i some_schedule)%nat.
Proof.
  intros i Hi. destruct i as [|[|[|[|[|i]]]]]; [vm_compute; lia..|].
  exfalso. revert Hi. vm_compute. lia.
Qed.

Lemma concurrent_ledger_is_exact_witness :
  let sys' := run_jobs some_schedule (some_jobs, st_rub_60) in
  stored_balance RUB (user_balances (snd sys') !! "u"%string)
    = 6000 + ledger RUB "u" (fst sys') /\
  balances_nonneg (snd sys') /\
  Forall (fun j => job_finished j = true) (fst sys').
Proof.
  destruct (concurrent_ledger_is_exact RUB "u" some_jobs some_schedule st_rub_60
              balances_valid_st_rub_60 eq_refl eq_refl) as (H1 & _ & H2 & H3).
  split; [exact H1|]. split; [exact H2|].
  apply H3. exact some_schedule_is_fair.
Defined.

(** ** Users, rating preferences and rates *)

Lemma scaled_by_4 (x : Q) :
  Qnum (x * inject_Z (scale_of 4)) = Qnum x * 10000 /\
  Z.pos (Qden (x * inject_Z (scale_of 4))) = Z.pos (Qden x).
Proof.
  destruct x as [n d]. unfold Qmult, inject_Z. cbn [Qnum Qden].
  rewrite Pos.mul_1_r. split; reflexivity.
Qed.

(** A value fits [NUMERIC(12,4)] exactly when its magnitude is below
    99999999.99995. *)
Lemma numeric_12_4_fits (x : Q) :
  fits_numeric_12 (pg_round x 4) = true <-> (- rate_limit < x /\ x < rate_limit)%Q.
Proof.
  unfold fits_numeric_12, pg_round. rewrite Z.ltb_lt, round_half_away_abs.
  destruct (scaled_by_4 x) as [-> ->].
  change numeric_12_limit with 1000000000000.
  destruct x as [n d]. unfold Qlt, Qopp, rate_limit. cbn [Qnum Qden].
  split; intros H.
  - assert (~ (2 * Z.pos d) * 1000000000000 <= 2 * Z.abs (n * 10000) + Z.pos d); [|lia].
    intros Hle. apply Z.div_le_lower_bound in Hle; lia.
  - apply Z.div_lt_upper_bound; lia.
Qed.

Lemma numeric_12_4_in_ok (x : Q) :
  (- rate_limit < x)%Q -> (x < rate_limit)%Q -> numeric_12_4_in x = inr (pg_round x 4).
Proof.
  intros Hlo Hhi. unfold numeric_12_4_in.
  rewrite (proj2 (numeric_12_4_fits x) (conj Hlo Hhi)). reflexivity.
Qed.

Lemma numeric_12_4_in_overflow (x : Q) :
  (x <= - rate_limit \/ rate_limit <= x)%Q -> numeric_12_4_in x = inl NumericFieldOverflow.
Proof.
  intros H. unfold numeric_12_4_in.
  destruct (fits_numeric_12 (pg_round x 4)) eqn:E; [|reflexivity].
  apply numeric_12_4_fits in E. destruct E as [Hlo Hhi]. exfalso.
  destruct H as [H|H]; [exact (Qlt_not_le _ _ Hlo H)|exact (Qlt_not_le _ _ Hhi H)].
Qed.

(** The stored value is within half a ten-thousandth of the value given. *)
Lemma pg_round_4_near (x : Q) :
  (x - (1 # 20000) <= of_units (pg_round x 4) 4 /\
   of_units (pg_round x 4) 4 <= x + (1 # 20000))%Q.
Proof.
  unfold pg_round.
  pose proof (round_half_away_near (x * inject_Z (scale_of 4))) as H.
  destruct (scaled_by_4 x) as [Hn Hd]. rewrite Hn, Hd in H. clear Hn Hd.
  revert H. generalize (round_half_away (x * inject_Z (scale_of 4))). intros r H.
  unfold of_units. change (scale_of 4) with 10000.
  destruct x as [n d]. cbn [Qnum Qden] in H.
  unfold Qle, Qminus, Qplus, Qopp, Qdiv, Qmult, Qinv, inject_Z. cbn [Qnum Qden].
  cbn [Z.mul Pos.mul]. split; lia.
Qed.

Lemma small_scale_4 : small_scale 4.
Proof. unfold small_scale, scale_of. simpl. lia. Qed.

(** X14: with the store enabled, a rate of magnitude below 99999999.99995
    is stored as the decimal of four fractional digits nearest to it,
    which is within half a ten-thousandth of it, and [rates_get] then
    returns for its key the float of that decimal: the very value given
    when that is the float nearest to a number of at most four fractional
    digits; the other keys read as before. *)
Theorem rate_reads_back (key : string) (value : Q) (d : db) :
  _db_enabled (db_state d) = true -> (- rate_limit < value)%Q -> (value < rate_limit)%Q ->
  exists d' m m0 r,
    rates_set key value d = (Return ANone, d') /\
    fst (rates_get d') = Return (ARates m) /\
    fst (rates_get d) = Return (ARates m0) /\
    m !! key = Some r /\
    r = binary64 (of_units (pg_round value 4) 4) /\
    (value - (1 # 20000) <= of_units (pg_round value 4) 4 /\
     of_units (pg_round value 4) 4 <= value + (1 # 20000))%Q /\
    (forall k, Z.abs k < 2 ^ 52 -> (value == binary64 (of_units k 4))%Q -> (r == value)%Q) /\
    (forall key', key' <> key -> m !! key' = m0 !! key').
Proof.
  intros Hen Hlo Hhi.
  unfold rates_set, rates_get, sql_upsert_rate. rewrite Hen.
  rewrite (numeric_12_4_in_ok value Hlo Hhi). cbn [negb].
  eexists _, _, _, _. split; [reflexivity|].
  cbn [db_state set_app_rates app_rates]. rewrite Hen. cbn [negb fst].
  split; [reflexivity|]. split; [reflexivity|].
  rewrite fmap_insert. cbn [col_value].
  split; [apply lookup_insert_eq|].
  split; [reflexivity|].
  split; [apply pg_round_4_near|].
  split.
  - intros k Hk Hv.
    rewrite (pg_round_Qeq _ _ 4 Hv), (pg_round_binary64_abs k 4 Hk small_scale_4).
    symmetry. exact Hv.
  - intros key' Hne. apply lookup_insert_ne. congruence.
Qed.

Lemma rate_reads_back_witness :
  exists d' m m0 r,
    rates_set "star_price_rub" (binary64 (13 # 10)) db0 = (Return ANone, d') /\
    fst (rates_get d') = Return (ARates m) /\
    fst (rates_get db0) = Return (ARates m0) /\
    m !! "star_price_rub"%string = Some r /\
    (r == binary64 (13 # 10))%Q /\
    (forall key', key' <> "star_price_rub"%string -> m !! key' = m0 !! key').
Proof.
  destruct (rate_reads_back "star_price_rub" (binary64 (13 # 10)) db0 eq_refl eq_refl eq_refl)
    as (d' & m & m0 & r & H1 & H2 & H3 & H4 & _ & _ & H7 & H8).
  exists d', m, m0, r. split; [exact H1|]. split; [exact H2|]. split; [exact H3|].
  split; [exact H4|]. split; [|exact H8].
  apply (H7 13000); [reflexivity|]. vm_compute. reflexivity.
Defined.

(** X15: with the store enabled, [rates_set] of a value of magnitude
    99999999.99995 or more raises the overflow of [NUMERIC(12,4)] and
    leaves every table as it was. *)
Theorem rate_out_of_range_raises (key : string) (value : Q) (d : db) :
  _db_enabled (db_state d) = true -> (value <= - rate_limit \/ rate_limit <= value)%Q ->
  rates_set key value d = (Raise NumericFieldOverflow, d).
Proof.
  intros Hen Hout. unfold rates_set, sql_upsert_rate. rewrite Hen.
  rewrite (numeric_12_4_in_overflow value Hout). reflexivity.
Qed.

Lemma rate_out_of_range_raises_witness :
  rates_set "steam_rate_rub" (-100000000) db0 = (Raise NumericFieldOverflow, db0).
Proof.
  apply (rate_out_of_range_raises "steam_rate_rub" (-100000000) db0 eq_refl).
  left. unfold Qle, rate_limit. simpl. lia.
Defined.

Lemma sql_upsert_user_twice (t1 t2 : Z) (u uname fname : string) (t : gmap string users_row) :
  sql_upsert_user t2 u uname fname (sql_upsert_user t1 u uname fname t)
    = sql_upsert_user t1 u uname fname t.
Proof.
  unfold sql_upsert_user at 1.
  assert (Hrow : exists row, sql_upsert_user t1 u uname fname t = <[u := row]> t /\
            coalesce (nullif_empty uname) (col_user_username row) = col_user_username row /\
            coalesce (nullif_empty fname) (col_user_first_name row) = col_user_first_name row).
  { unfold sql_upsert_user. destruct (t !! u) as [old|]; eexists; (split; [reflexivity|]);
      cbn [col_user_username col_user_first_name];
      destruct uname, fname; split; reflexivity. }
  destruct Hrow as (row & -> & Hn & Hf).
  rewrite lookup_insert_eq, insert_insert_eq, Hn, Hf. destruct row; reflexivity.
Qed.

(** X16: [user_upsert] repeated with the same arguments, at whatever
    later time, leaves the table [users] as the first call left it. *)
Theorem user_upsert_twice
    (user_id : string) (username first_name : option string) (t : Z) (d : db) :
  let d1 := snd (user_upsert user_id username first_name d) in
  let d2 := snd (perform (ACall (CTick t)) d1) in
  users (snd (user_upsert user_id username first_name d2)) = users d1.
Proof.
  intros d1 d2. unfold d2, d1, user_upsert.
  destruct (negb (_db_enabled (db_state d))) eqn:Hen.
  - cbn [snd perform lift exec fst set_db_state db_state _db_enabled set_now].
    rewrite Hen. reflexivity.
  - cbn [snd perform lift exec fst set_db_state set_users db_state _db_enabled set_now users now].
    rewrite Hen. cbn [snd set_users users]. apply sql_upsert_user_twice.
Qed.

Lemma exec_keeps_enabled (c : call) (s : state) :
  _db_enabled (snd (exec c s)) = _db_enabled s.
Proof.
  destruct c as [u|u data| |u dv de|u e|u|[|] u a|[|] u a|t]; cbn [exec];
    unfold ref_get_or_create, ref_save, ref_load_all, ref_add_earned, ref_set_earned,
      balance_get, balance_add, balance_deduct, balance_add_rub, balance_add_usdt,
      balance_deduct_rub, balance_deduct_usdt;
    repeat match goal with
           | |- context [if ?b then _ else _] => destruct b
           | |- context [match ?x with _ => _ end] => destruct x
           end; reflexivity.
Qed.

Lemma exec_disabled (c : call) (s : state) :
  _db_enabled s = false ->
  user_balances (snd (exec c s)) = user_balances s /\ referrals (snd (exec c s)) = referrals s.
Proof.
  intros H.
  destruct c as [u|u data| |u dv de|u e|u|[|] u a|[|] u a|t]; cbn [exec];
    unfold ref_get_or_create, ref_save, ref_load_all, ref_add_earned, ref_set_earned,
      balance_get, balance_add, balance_deduct, balance_add_rub, balance_add_usdt,
      balance_deduct_rub, balance_deduct_usdt;
    rewrite ?H; split; reflexivity.
Qed.

Lemma perform_keeps_enabled (a : action) (d : db) :
  closes a = false -> _db_enabled (db_state (snd (perform a d))) = _db_enabled (db_state d).
Proof.
  intros Ha. destruct a; try discriminate; cbn [perform];
    unfold lift, user_upsert, rating_get_all, rating_set, rates_get, rates_set;
    cbn [snd set_db_state db_state];
    try apply exec_keeps_enabled;
    repeat match goal with
           | |- context [if ?b then _ else _] => destruct b
           | |- context [match ?x with _ => _ end] => destruct x
           end; reflexivity.
Qed.

Lemma perform_rating (a : action) (u : string) (d : db) :
  _db_enabled (db_state d) = true ->
  rating_of u (snd (perform a d))
    = match a with
      | ARatingSet u' b => if bool_decide (u' = u) then Some (Some b) else rating_of u d
      | _ => rating_of u d
      end.
Proof.
  intros Hen. unfold rating_of.
  destruct a; cbn [perform];
    unfold lift, user_upsert, rating_get_all, rating_set, rates_get, rates_set, close_pool;
    rewrite ?Hen; cbn [negb snd set_db_state set_users set_rating_prefs rating_prefs];
    try reflexivity.
  - unfold sql_upsert_rating. destruct (bool_decide_reflect (user_id = u)) as [->|Hne].
    + rewrite lookup_insert_eq. reflexivity.
    + rewrite lookup_insert_ne by exact Hne. reflexivity.
  - destruct (sql_upsert_rate _ _ _ _); reflexivity.
Qed.

Lemma rating_get_all_enabled (d : db) :
  _db_enabled (db_state d) = true ->
  rating_get_all d = (Return (ARatings (col_show_in_rating <$> rating_prefs d)), d).
Proof. intros Hen. unfold rating_get_all. rewrite Hen. reflexivity. Qed.

Lemma perform_all_rating (actions : list action) (u : string) (d : db) :
  _db_enabled (db_state d) = true -> existsb closes actions = false ->
  _db_enabled (db_state (perform_all actions d)) = true /\
  rating_of u (perform_all actions d)
    = match last_rating u actions with
      | Some b => Some (Some b)
      | None => rating_of u d
      end.
Proof.
  revert d. induction actions as [|a rest IH]; intros d Hen Hopen.
  - split; [exact Hen|reflexivity].
  - cbn [existsb] in Hopen. apply orb_false_iff in Hopen. destruct Hopen as [Ha Hrest].
    assert (Hen' : _db_enabled (db_state (snd (perform a d))) = true).
    { rewrite perform_keeps_enabled; assumption. }
    destruct (IH (snd (perform a d)) Hen' Hrest) as [Hen2 Hr].
    change (perform_all (a :: rest) d) with (perform_all rest (snd (perform a d))).
    split; [exact Hen2|]. rewrite Hr. cbn [last_rating].
    destruct (last_rating u rest); [reflexivity|].
    rewrite perform_rating by exact Hen.
    destruct a; try reflexivity. destruct (bool_decide _); reflexivity.
Qed.

(** X17: with the store enabled and never closed, after any calls of the
    module [rating_get_all] has for a user the value of the last
    [rating_set] for that user, whatever was called in between, and the
    value of before when there was none. *)
Theorem rating_last_write_wins (actions : list action) (user_id : string) (d : db) :
  _db_enabled (db_state d) = true -> existsb closes actions = false ->
  exists m m0,
    fst (rating_get_all (perform_all actions d)) = Return (ARatings m) /\
    fst (rating_get_all d) = Return (ARatings m0) /\
    m !! user_id = match last_rating user_id actions with
                   | Some b => Some (Some b)
                   | None => m0 !! user_id
                   end.
Proof.
  intros Hen Hopen.
  destruct (perform_all_rating actions user_id d Hen Hopen) as [Hen' Hr].
  rewrite (rating_get_all_enabled _ Hen'), (rating_get_all_enabled _ Hen).
  eexists _, _. split; [reflexivity|]. split; [reflexivity|].
  rewrite !lookup_fmap. exact Hr.
Qed.

Lemma rating_last_write_wins_witness :
  exists m m0,
    fst (rating_get_all (perform_all open_actions db0)) = Return (ARatings m) /\
    fst (rating_get_all db0) = Return (ARatings m0) /\
    m !! "u"%string = Some (Some true).
Proof.
  exact (rating_last_write_wins open_actions "u" db0 eq_refl eq_refl).
Defined.

Lemma keeps_registration_refl (row : users_row) : keeps_registration row row.
Proof. repeat split; auto. Qed.

Lemma keeps_registration_trans (r1 r2 r3 : users_row) :
  keeps_registration r1 r2 -> keeps_registration r2 r3 -> keeps_registration r1 r3.
Proof.
  intros (Hc & Hl & Hn & Hf) (Hc' & Hl' & Hn' & Hf').
  repeat split; [congruence|congruence|auto..].
Qed.

Lemma named_coalesce (x : string) (old : option string) :
  named old = true -> named (coalesce (nullif_empty x) old) = true.
Proof. destruct x; [trivial|reflexivity]. Qed.

Lemma sql_upsert_user_keeps (now_ : Z) (u' uname fname u : string) (row : users_row)
    (t : gmap string users_row) :
  t !! u = Some row ->
  exists row', sql_upsert_user now_ u' uname fname t !! u = Some row' /\
               keeps_registration row row'.
Proof.
  intros Hrow. unfold sql_upsert_user.
  destruct (decide (u' = u)) as [->|Hne].
  - rewrite Hrow, lookup_insert_eq. eexists. split; [reflexivity|].
    repeat split; cbn [col_user_username col_user_first_name]; apply named_coalesce.
  - exists row. split; [|apply keeps_registration_refl].
    destruct (t !! u'); rewrite lookup_insert_ne by exact Hne; exact Hrow.
Qed.

Lemma perform_keeps_user (a : action) (u : string) (row : users_row) (d : db) :
  users d !! u = Some row ->
  exists row', users (snd (perform a d)) !! u = Some row' /\ keeps_registration row row'.
Proof.
  intros Hrow.
  destruct a as [c|u' n f| |u' b| |k v| |]; cbn [perform];
    try (exists row; split; [|apply keeps_registration_refl];
         unfold lift, rating_get_all, rating_set, rates_get, rates_set, close_pool;
         repeat match goal with
                | |- context [if ?b then _ else _] => destruct b
                | |- context [match ?x with _ => _ end] => destruct x
                end; exact Hrow).
  unfold user_upsert. destruct (negb _).
  - exists row. split; [exact Hrow|apply keeps_registration_refl].
  - cbn [snd set_users users]. apply sql_upsert_user_keeps, Hrow.
Qed.

(** X18: whatever is called afterwards, a user once in [users] stays
    there with the same registration date and last name, and a username
    or first name that is not blank is never replaced by a blank one. *)
Theorem registration_is_kept
    (actions : list action) (user_id : string) (row : users_row) (d : db) :
  users d !! user_id = Some row ->
  exists row', users (perform_all actions d) !! user_id = Some row' /\
               keeps_registration row row'.
Proof.
  revert d row. induction actions as [|a rest IH]; intros d row Hrow.
  - exists row. split; [exact Hrow|apply keeps_registration_refl].
  - destruct (perform_keeps_user a user_id row d Hrow) as (row1 & Hrow1 & Hk1).
    destruct (IH _ row1 Hrow1) as (row2 & Hrow2 & Hk2).
    exists row2. split; [exact Hrow2|]. eapply keeps_registration_trans; eassumption.
Qed.

Lemma registration_is_kept_witness :
  exists row', users (perform_all some_actions db_ann) !! "u"%string = Some row' /\
               keeps_registration row_ann row'.
Proof.
  exact (registration_is_kept some_actions "u" row_ann db_ann eq_refl).
Defined.

Lemma perform_disabled (a : action) (d : db) :
  _db_enabled (db_state d) = false ->
  let d' := snd (perform a d) in
  _db_enabled (db_state d') = false /\
  users d' = users d /\ rating_prefs d' = rating_prefs d /\ app_rates d' = app_rates d /\
  user_balances (db_state d') = user_balances (db_state d) /\
  referrals (db_state d') = referrals (db_state d).
Proof.
  intros Hoff d'. unfold d'.
  destruct a as [c|u n f| |u b| |k v| |]; cbn [perform];
    unfold lift, user_upsert, rating_get_all, rating_set, rates_get, rates_set, close_pool;
    rewrite ?Hoff; cbn [negb snd set_db_state db_state users rating_prefs app_rates];
    try (repeat split; (reflexivity || exact Hoff)).
  destruct (exec_disabled c (db_state d) Hoff) as [Hb Hr].
  rewrite exec_keeps_enabled. repeat split; assumption.
Qed.

(** X19: once [close_pool] has run, none of the calls changes a row of
    [users], [rating_prefs], [app_rates], [user_balances] or [referrals],
    and [is_enabled] stays [False]. *)
Theorem closed_store_is_inert (actions : list action) (d : db) :
  let d' := perform_all actions (snd (close_pool d)) in
  is_enabled d' = false /\
  users d' = users d /\ rating_prefs d' = rating_prefs d /\ app_rates d' = app_rates d /\
  user_balances (db_state d') = user_balances (db_state d) /\
  referrals (db_state d') = referrals (db_state d).
Proof.
  intros d'. unfold d', is_enabled.
  assert (Hgen : forall d0, _db_enabled (db_state d0) = false ->
            _db_enabled (db_state (perform_all actions d0)) = false /\
            users (perform_all actions d0) = users d0 /\
            rating_prefs (perform_all actions d0) = rating_prefs d0 /\
            app_rates (perform_all actions d0) = app_rates d0 /\
            user_balances (db_state (perform_all actions d0)) = user_balances (db_state d0) /\
            referrals (db_state (perform_all actions d0)) = referrals (db_state d0)).
  { induction actions as [|a rest IH]; intros d0 Hoff.
    - repeat split; (reflexivity || exact Hoff).
    - destruct (perform_disabled a d0 Hoff) as (Hoff1 & Hu & Hp & Ha & Hb & Hr).
      destruct (IH _ Hoff1) as (Hoff2 & Hu2 & Hp2 & Ha2 & Hb2 & Hr2).
      change (perform_all (a :: rest) d0) with (perform_all rest (snd (perform a d0))).
      repeat split; congruence. }
  apply (Hgen (snd (close_pool d))). reflexivity.
Qed.
